(** * NotesApp_AI: the auto-save and AI-assist pipeline

    A shallow embedding of the server routes ([lib/hono/routes/ai.routes.ts],
    [lib/hono/routes/pages.routes.ts]), the prompt builders
    ([lib/ai/prompts.ts]), the text extractor
    ([lib/utils/blocknote-to-text.ts]), the debounced save of the editor
    component ([components/editor/Editor.tsx]), the connection cache
    ([lib/db/mongodb.ts]), the client helpers ([hooks/usePages.ts],
    [hooks/useAI.ts]), the AI actions of the page view and of the floating
    prompt, and the form schemas ([lib/validations/auth.schema.ts]),
    followed by the properties established about them.

    Conventions of the embedding.
    - A JavaScript string is the list of its UTF-16 code units ([N]).
    - [String.prototype.toLowerCase] depends on the Unicode case tables; the
      definitions that call it take it as a section variable, and the worked
      examples instantiate it with its restriction to Latin-1.
    - JavaScript regular expressions are kept as syntax trees and run by a
      backtracking matcher with the priorities of the language (greedy and
      lazy quantifiers, leftmost match).
    - The document collection is the list of its documents; the remote
      completion provider is an oracle from requests to outcomes, and every
      handler returns the list of requests it issued. *)

From Stdlib Require Import List NArith Arith Bool Ascii String Lia Permutation.
From Equations Require Import Equations.
Import ListNotations.

Set Implicit Arguments.
Local Open Scope list_scope.

(* ===================================================================== *)
(** * JavaScript strings *)
(* ===================================================================== *)

Module Js.

(** One UTF-16 code unit. *)
Definition char16 := N.
Definition jsstring := list char16.

Definition ch (a : ascii) : char16 := N_of_ascii a.

(** An ASCII literal as a JavaScript string. *)
Definition js (s : string) : jsstring := map ch (list_ascii_of_string s).

Definition LF : char16 := 10%N.
Definition DQUOTE : char16 := 34%N.
Definition SPACE : char16 := 32%N.

Fixpoint eqb (a b : jsstring) : bool :=
  match a, b with
  | [], [] => true
  | x :: a', y :: b' => N.eqb x y && eqb a' b'
  | _, _ => false
  end.

(** Truthiness of a string: non-empty. *)
Definition truthy (s : jsstring) : bool :=
  match s with [] => false | _ :: _ => true end.

(** WhiteSpace and LineTerminator code units (ECMA-262 12.2, 12.3): the
    set removed by [trim] and matched by [\s]. *)
Definition isWhiteSpace (c : char16) : bool :=
  ((9 <=? c) && (c <=? 13) || (c =? 32) || (c =? 160) || (c =? 5760)
   || (8192 <=? c) && (c <=? 8202) || (c =? 8232) || (c =? 8233)
   || (c =? 8239) || (c =? 8287) || (c =? 12288) || (c =? 65279))%N.

Fixpoint dropWhile (p : char16 -> bool) (s : jsstring) : jsstring :=
  match s with
  | [] => []
  | c :: t => if p c then dropWhile p t else s
  end.

Definition trimStart (s : jsstring) : jsstring := dropWhile isWhiteSpace s.
Definition trimEnd (s : jsstring) : jsstring := rev (dropWhile isWhiteSpace (rev s)).

(** [String.prototype.trim]. *)
Definition trim (s : jsstring) : jsstring := trimEnd (trimStart s).

(** The string has a code unit that is not whitespace. *)
Definition hasNonWhitespace (s : jsstring) : bool :=
  existsb (fun c => negb (isWhiteSpace c)) s.

Fixpoint startsWith (pat s : jsstring) : bool :=
  match pat, s with
  | [], _ => true
  | p :: pat', c :: s' => N.eqb p c && startsWith pat' s'
  | _ :: _, [] => false
  end.

(** [String.prototype.includes]. *)
Fixpoint includes (pat s : jsstring) : bool :=
  startsWith pat s ||
  match s with
  | [] => false
  | _ :: t => includes pat t
  end.

(** [Array.prototype.join] on an array of strings. *)
Fixpoint join (sep : jsstring) (parts : list jsstring) : jsstring :=
  match parts with
  | [] => []
  | [p] => p
  | p :: rest => p ++ sep ++ join sep rest
  end.

(** [Array.prototype.slice(0, n)]. *)
Definition slice0 {A} (n : nat) (l : list A) : list A := firstn n l.

(** [toLowerCase] on strings whose code units are all below 256: the
    letters A-Z, U+00C0-U+00D6 and U+00D8-U+00DE move up by 32. *)
Definition lowerLatin1 (c : char16) : char16 :=
  if ((65 <=? c) && (c <=? 90) || (192 <=? c) && (c <=? 214)
      || (216 <=? c) && (c <=? 222))%N
  then (c + 32)%N else c.

Definition toLowerCaseLatin1 (s : jsstring) : jsstring := map lowerLatin1 s.

End Js.

(* ===================================================================== *)
(** * Regular expressions *)
(* ===================================================================== *)

Module Regex.
Import Js.

Inductive greed := Greedy | Lazy.

(** The fragment of the pattern language the program uses: classes of one
    code unit, concatenation, and [*] / [*?]. *)
Inductive regex :=
| Class (p : char16 -> bool)
| Seq (r1 r2 : regex)
| Star (g : greed) (r : regex).

Definition Chr (c : char16) : regex := Class (N.eqb c).
Definition Plus (g : greed) (r : regex) : regex := Seq r (Star g r).

(** [[\s\S]]: any code unit. *)
Definition anyChar : regex := Class (fun c => isWhiteSpace c || negb (isWhiteSpace c)).

(** The iteration of a star.  [once] matches the body once; an iteration
    that consumes nothing is rejected, so that [List.length s] iterations
    are always enough and [fuel] never runs out before the text does. *)
Fixpoint starLoop (g : greed)
         (once : jsstring -> (jsstring -> option jsstring) -> option jsstring)
         (k : jsstring -> option jsstring) (fuel : nat) (s : jsstring)
  : option jsstring :=
  match fuel with
  | O => k s
  | S fuel' =>
      let more :=
        once s (fun t =>
          if List.length t <? List.length s then starLoop g once k fuel' t
          else None) in
      match g with
      | Greedy => match more with Some x => Some x | None => k s end
      | Lazy => match k s with Some x => Some x | None => more end
      end
  end.

(** Backtracking matcher, in continuation-passing style: [rmatch r s k]
    matches [r] at the start of [s] and hands the rest to [k]; a failure
    of [k] makes the matcher try its next alternative. *)
Fixpoint rmatch (r : regex) (s : jsstring)
         (k : jsstring -> option jsstring) {struct r} : option jsstring :=
  match r with
  | Class p =>
      match s with
      | c :: t => if p c then k t else None
      | [] => None
      end
  | Seq a b => rmatch a s (fun t => rmatch b t k)
  | Star g a => starLoop g (rmatch a) k (List.length s) s
  end.

(** [rest] is what is left of [s] after some prefix. *)
Definition suffixOf (rest s : jsstring) : Prop := exists m, s = m ++ rest.

(** A continuation that returns suffixes of what it is given. *)
Definition returnsSuffix (k : jsstring -> option jsstring) : Prop :=
  forall u v, k u = Some v -> suffixOf v u.

(** The result of [k] on the first suffix of [s], from [s] itself down to
    the empty one, that [k] accepts. *)
Fixpoint firstSuffix (k : jsstring -> option jsstring) (s : jsstring)
  : option jsstring :=
  match k s with
  | Some x => Some x
  | None =>
      match s with
      | [] => None
      | _ :: t => firstSuffix k t
      end
  end.

(** Length of the match of [r] anchored at the start of [s]. *)
Definition match_at (r : regex) (s : jsstring) : option nat :=
  match rmatch r s Some with
  | Some rest => Some (List.length s - List.length rest)
  | None => None
  end.

(** [s.match(r)] for a non-global [r]: the leftmost match, or [None]. *)
Fixpoint exec (r : regex) (s : jsstring) : option jsstring :=
  match match_at r s with
  | Some n => Some (firstn n s)
  | None =>
      match s with
      | [] => None
      | _ :: t => exec r t
      end
  end.

(** [s.replace(r, repl)] for a global [r] none of whose matches is empty
    (as is the case for every pattern below).  [skip] counts the code
    units of the current match that are still to be passed over. *)
Fixpoint replace_from (r : regex) (repl : jsstring) (skip : nat)
         (s : jsstring) : jsstring :=
  match s with
  | [] => []
  | c :: t =>
      match skip with
      | S k => replace_from r repl k t
      | O =>
          match match_at r s with
          | Some (S n) => repl ++ replace_from r repl n t
          | _ => c :: replace_from r repl 0 t
          end
      end
  end.

Definition replaceAll (r : regex) (repl : jsstring) (s : jsstring) : jsstring :=
  replace_from r repl 0 s.

(** [s.split(r)] for an [r] none of whose matches is empty.  [cur] is the
    piece being read, reversed. *)
Fixpoint split_from (r : regex) (skip : nat) (cur : jsstring)
         (s : jsstring) : list jsstring :=
  match s with
  | [] => [rev cur]
  | c :: t =>
      match skip with
      | S k => split_from r k cur t
      | O =>
          match match_at r s with
          | Some (S n) => rev cur :: split_from r n [] t
          | _ => split_from r 0 (c :: cur) t
          end
      end
  end.

Definition split (r : regex) (s : jsstring) : list jsstring :=
  split_from r 0 [] s.

End Regex.

(* ===================================================================== *)
(** * JSON values and [JSON.parse] *)
(* ===================================================================== *)

Module Json.
Import Js.

(** A parsed JSON value.  A number keeps its lexeme: the program never
    computes with one. *)
#[warnings="-register-all"]
Inductive json :=
| JNull
| JBool (b : bool)
| JNumber (lexeme : jsstring)
| JString (s : jsstring)
| JArray (items : list json)
| JObject (members : list (jsstring * json)).

(** Own property [key] of an object built by [JSON.parse]: of two members
    with the same name the later one wins. *)
Fixpoint lookup (key : jsstring) (members : list (jsstring * json)) : option json :=
  match members with
  | [] => None
  | (k, v) :: rest =>
      match lookup key rest with
      | Some v' => Some v'
      | None => if Js.eqb k key then Some v else None
      end
  end.

Inductive token :=
| TLBrack | TRBrack | TLBrace | TRBrace | TComma | TColon
| TString (s : jsstring)
| TNumber (lexeme : jsstring)
| TTrue | TFalse | TNull.

Definition isDigit (c : char16) : bool := ((48 <=? c) && (c <=? 57))%N.

Definition hexVal (c : char16) : option N :=
  if isDigit c then Some (c - 48)%N
  else if ((97 <=? c) && (c <=? 102))%N then Some (c - 87)%N
  else if ((65 <=? c) && (c <=? 70))%N then Some (c - 55)%N
  else None.

Definition hex4 (a b c d : char16) : option char16 :=
  match hexVal a, hexVal b, hexVal c, hexVal d with
  | Some x, Some y, Some z, Some w => Some (((x * 16 + y) * 16 + z) * 16 + w)%N
  | _, _, _, _ => None
  end.

(** The one-letter escapes of a JSON string. *)
Definition simpleEscape (c : char16) : option char16 :=
  if (c =? 34)%N then Some 34%N            (* quote *)
  else if (c =? 92)%N then Some 92%N       (* backslash *)
  else if (c =? 47)%N then Some 47%N       (* slash *)
  else if (c =? 98)%N then Some 8%N        (* backspace *)
  else if (c =? 102)%N then Some 12%N      (* form feed *)
  else if (c =? 110)%N then Some 10%N      (* line feed *)
  else if (c =? 114)%N then Some 13%N      (* carriage return *)
  else if (c =? 116)%N then Some 9%N       (* tab *)
  else None.

(** Reads a string body after its opening quote: the decoded string and
    the number of code units read, closing quote included. *)
Fixpoint lexString (s : jsstring) : option (jsstring * nat) :=
  match s with
  | [] => None
  | c :: t =>
      if (c =? 34)%N then Some ([], 1)
      else if (c =? 92)%N then
        match t with
        | [] => None
        | e :: t' =>
            if (e =? 117)%N then
              match t' with
              | h1 :: h2 :: h3 :: h4 :: t'' =>
                  match hex4 h1 h2 h3 h4, lexString t'' with
                  | Some u, Some (str, n) => Some (u :: str, 6 + n)
                  | _, _ => None
                  end
              | _ => None
              end
            else
              match simpleEscape e, lexString t' with
              | Some x, Some (str, n) => Some (x :: str, 2 + n)
              | _, _ => None
              end
        end
      else if (c <? 32)%N then None
      else
        match lexString t with
        | Some (str, n) => Some (c :: str, 1 + n)
        | None => None
        end
  end.

Fixpoint takeWhile (p : char16 -> bool) (s : jsstring) : jsstring :=
  match s with
  | [] => []
  | c :: t => if p c then c :: takeWhile p t else []
  end.

Definition isNumberChar (c : char16) : bool :=
  isDigit c || (c =? 45)%N || (c =? 43)%N || (c =? 46)%N
  || (c =? 101)%N || (c =? 69)%N.

(** [digits+] followed by nothing. *)
Definition allDigits1 (s : jsstring) : bool :=
  match s with [] => false | _ => forallb isDigit s end.

(** The exponent part, or nothing. *)
Definition validExp (s : jsstring) : bool :=
  match s with
  | [] => true
  | e :: t =>
      ((e =? 101) || (e =? 69))%N &&
      match t with
      | sg :: t' => if ((sg =? 43) || (sg =? 45))%N then allDigits1 t' else allDigits1 t
      | [] => false
      end
  end.

(** The fraction and exponent parts, or nothing. *)
Definition validFracExp (s : jsstring) : bool :=
  match s with
  | d :: t =>
      if (d =? 46)%N then
        let ds := takeWhile isDigit t in
        Js.truthy ds && validExp (skipn (List.length ds) t)
      else validExp s
  | [] => true
  end.

(** The JSON number grammar: an optional minus sign, then 0 or a digit
    string that does not start with 0, then an optional fraction and an
    optional exponent. *)
Definition validNumber (s : jsstring) : bool :=
  let body := match s with c :: t => if (c =? 45)%N then t else s | [] => [] end in
  match body with
  | d :: t =>
      if (d =? 48)%N then validFracExp t
      else if isDigit d then
        validFracExp (skipn (List.length (takeWhile isDigit t)) t)
      else false
  | [] => false
  end.

Definition isJsonSpace (c : char16) : bool :=
  ((c =? 32) || (c =? 9) || (c =? 10) || (c =? 13))%N.

(** The lexer.  [skip] counts the code units of the current token that
    are still to be passed over. *)
Fixpoint tokenize (skip : nat) (s : jsstring) : option (list token) :=
  match s with
  | [] => Some []
  | c :: t =>
      match skip with
      | S k => tokenize k t
      | O =>
          let emit (tok : token) (k : nat) :=
            match tokenize k t with
            | Some toks => Some (tok :: toks)
            | None => None
            end in
          if isJsonSpace c then tokenize 0 t
          else if (c =? 91)%N then emit TLBrack 0
          else if (c =? 93)%N then emit TRBrack 0
          else if (c =? 123)%N then emit TLBrace 0
          else if (c =? 125)%N then emit TRBrace 0
          else if (c =? 44)%N then emit TComma 0
          else if (c =? 58)%N then emit TColon 0
          else if (c =? 34)%N then
            match lexString t with
            | Some (str, n) => emit (TString str) n
            | None => None
            end
          else if isDigit c || (c =? 45)%N then
            let lexeme := takeWhile isNumberChar s in
            if validNumber lexeme
            then emit (TNumber lexeme) (List.length lexeme - 1)
            else None
          else if startsWith (js "true") s then emit TTrue 3
          else if startsWith (js "false") s then emit TFalse 4
          else if startsWith (js "null") s then emit TNull 3
          else None
      end
  end.

(** The parser is a pushdown automaton over the tokens. *)
Inductive frame :=
| FArr (done : list json)
| FObj (done : list (jsstring * json)) (key : option jsstring).

Inductive pstate :=
| SValue (closable : bool)   (* a value; [closable]: just after '[' *)
| SKey (closable : bool)     (* a member name; [closable]: just after '{' *)
| SColon
| SAfter                     (* after a value inside a container *)
| SDone (v : json).          (* the top-level value is complete *)

(** A finished value goes to the innermost open container. *)
Definition pushValue (v : json) (stack : list frame) : option (pstate * list frame) :=
  match stack with
  | [] => Some (SDone v, [])
  | FArr done :: up => Some (SAfter, FArr (done ++ [v]) :: up)
  | FObj done (Some k) :: up => Some (SAfter, FObj (done ++ [(k, v)]) None :: up)
  | FObj _ None :: _ => None
  end.

Definition closeArray (stack : list frame) : option (pstate * list frame) :=
  match stack with
  | FArr done :: up => pushValue (JArray done) up
  | _ => None
  end.

Definition closeObject (stack : list frame) : option (pstate * list frame) :=
  match stack with
  | FObj done None :: up => pushValue (JObject done) up
  | _ => None
  end.

Definition step (st : pstate) (stack : list frame) (tok : token)
  : option (pstate * list frame) :=
  match st with
  | SDone _ => None
  | SValue closable =>
      match tok with
      | TLBrack => Some (SValue true, FArr [] :: stack)
      | TLBrace => Some (SKey true, FObj [] None :: stack)
      | TRBrack => if closable then closeArray stack else None
      | TString s => pushValue (JString s) stack
      | TNumber l => pushValue (JNumber l) stack
      | TTrue => pushValue (JBool true) stack
      | TFalse => pushValue (JBool false) stack
      | TNull => pushValue JNull stack
      | _ => None
      end
  | SKey closable =>
      match tok with
      | TString k =>
          match stack with
          | FObj done None :: up => Some (SColon, FObj done (Some k) :: up)
          | _ => None
          end
      | TRBrace => if closable then closeObject stack else None
      | _ => None
      end
  | SColon =>
      match tok with
      | TColon => Some (SValue false, stack)
      | _ => None
      end
  | SAfter =>
      match tok, stack with
      | TComma, FArr _ :: _ => Some (SValue false, stack)
      | TComma, FObj _ _ :: _ => Some (SKey false, stack)
      | TRBrack, _ => closeArray stack
      | TRBrace, _ => closeObject stack
      | _, _ => None
      end
  end.

Fixpoint run (st : pstate) (stack : list frame) (toks : list token) : option json :=
  match toks with
  | [] => match st with SDone v => Some v | _ => None end
  | tok :: rest =>
      match step st stack tok with
      | Some (st', stack') => run st' stack' rest
      | None => None
      end
  end.

(** [JSON.parse]: [None] stands for the SyntaxError it throws. *)
Definition parse (s : jsstring) : option json :=
  match tokenize 0 s with
  | Some toks => run (SValue false) [] toks
  | None => None
  end.

End Json.

(* ===================================================================== *)
(** * The text extractor ([lib/utils/blocknote-to-text.ts]) *)
(* ===================================================================== *)

Module Extractor.
Import Js.

(** [interface InlineContent]: [text] and [content] are optional. *)
#[warnings="-register-all"]
Inductive InlineContent :=
| mkInline (type : jsstring) (text : option jsstring)
           (content : option (list InlineContent)).

(** [interface Block].  A [content] that is absent or not an array (a
    table's content is an object) is [None]; so is such a [children]. *)
#[warnings="-register-all"]
Inductive Block :=
| mkBlock (type : option jsstring) (content : option (list InlineContent))
          (children : option (list Block)).

Fixpoint extractInlineText (inline : InlineContent) : jsstring :=
  match inline with
  | mkInline _ text content =>
      match text with
      | Some (c :: t) => c :: t                      (* if (inline.text) *)
      | _ =>
          match content with
          | Some items => join [] (map extractInlineText items)
          | None => []
          end
      end
  end.

(** The text of a block's own inline content, when it has any. *)
Definition ownLine (content : option (list InlineContent)) : list jsstring :=
  match content with
  | Some items =>
      let lineText := join [] (map extractInlineText items) in
      if truthy (trim lineText) then [lineText] else []
  | None => []
  end.

(** One turn of the loop of [extractTextFromBlocks]: what the block pushes
    on [lines]. *)
Fixpoint pushedLines (block : Block) : list jsstring :=
  match block with
  | mkBlock _ content children =>
      ownLine content ++
      match children with
      | Some kids =>
          let childText := join [LF] (flat_map pushedLines kids) in
          if truthy (trim childText) then [childText] else []
      | None => []
      end
  end.

Definition extractTextFromBlocks (blocks : list Block) : jsstring :=
  match blocks with
  | [] => []
  | _ => join [LF] (flat_map pushedLines blocks)
  end.

End Extractor.

(* ===================================================================== *)
(** * Prompt templates ([lib/ai/prompts.ts]) *)
(* ===================================================================== *)

Module Prompts.
Import Js.
Local Open Scope string_scope.
Local Open Scope list_scope.

Inductive Role := system | user.

Record Message := { role : Role; content : jsstring }.

(** A template literal given line by line. *)
Definition lines (ls : list string) : jsstring := join [LF] (map js ls).

Definition orElse (a b : jsstring) : jsstring := if truthy a then a else b.

Definition getSummarizePrompt (title content : jsstring) : list Message :=
  [ {| role := system;
       content := lines
         [ "You are a concise note summarizer. Your job is to read a note and produce a clear, ";
           "informative summary in 2-3 sentences. Focus on the key points and main ideas. ";
           "Do NOT use markdown formatting. Just return plain text." ] |};
    {| role := user;
       content := js "Note Title: " ++ title ++ [LF; LF] ++ js "Note Content:"
                  ++ [LF] ++ content |} ].

Definition getImprovePrompt (content : jsstring) (selection : option jsstring)
  : list Message :=
  let textToImprove :=
    match selection with
    | Some sel => orElse sel content
    | None => content
    end in
  [ {| role := system;
       content := lines
         [ "You are a professional writing assistant. Your job is to improve the given text by:";
           "- Fixing grammar and spelling errors";
           "- Improving clarity and readability  ";
           "- Better sentence structure and flow";
           "- Keeping the original meaning and tone intact";
           EmptyString;
           "IMPORTANT RULES:";
           "- Return ONLY the improved text, nothing else";
           "- Do NOT add explanations or comments";
           "- Do NOT wrap in quotes or markdown";
           "- Keep the same general length (don't make it significantly longer or shorter)" ] |};
    {| role := user;
       content := js "Please improve this text:" ++ [LF; LF] ++ textToImprove |} ].

Definition getTagsPrompt (title content : jsstring) : list Message :=
  [ {| role := system;
       content :=
         lines
           [ "You are a tag generator for notes. Your job is to read a note and generate ";
             "3 to 5 short, relevant tags that describe the note's topic and content.";
             EmptyString;
             "IMPORTANT RULES:";
             "- Return ONLY a valid JSON array of strings, nothing else";
             "- Each tag should be 1-2 words, lowercase";
             "- Tags should be descriptive and useful for categorization";
             "- Example output: [" ]
         ++ [DQUOTE] ++ js "javascript" ++ [DQUOTE] ++ js ", "
         ++ [DQUOTE] ++ js "web development" ++ [DQUOTE] ++ js ", "
         ++ [DQUOTE] ++ js "react hooks" ++ [DQUOTE] ++ js "]" ++ [LF]
         ++ js "- Do NOT include explanations or any other text" |};
    {| role := user;
       content := js "Note Title: " ++ title ++ [LF; LF] ++ js "Note Content:"
                  ++ [LF] ++ content |} ].

Definition getGeneratePrompt (userPrompt : jsstring)
           (title existingContent : option jsstring) : list Message :=
  let given (o : option jsstring) := match o with Some s => s | None => [] end in
  let systemContent :=
    lines
      [ "You are a creative and helpful writing assistant inside a note-taking app. ";
        "Your job is to generate high-quality text based on the user's request. ";
        "Keep the following in mind:";
        "- Be helpful and provide valuable, well-structured information";
        "- Use clear, professional yet conversational language";
        "- If provided, use the note title and existing content to match the current style/context" ]
    ++ [LF] ++ js "- Do NOT add introductory or concluding remarks like "
    ++ [DQUOTE] ++ js "Here is the content you requested" ++ [DQUOTE] ++ [LF]
    ++ js "- Just return the generated text content directly." in
  let systemContent :=
    if truthy (given title) || truthy (given existingContent) then
      systemContent ++ [LF; LF] ++ js "Context for this note:" ++ [LF]
      ++ (if truthy (given title)
          then js "- Title: " ++ given title ++ [LF] else [])
      ++ (if truthy (given existingContent)
          then js "- Existing Content: " ++ firstn 1000 (given existingContent)
               ++ js "... (truncated)" ++ [LF]
          else [])
    else systemContent in
  [ {| role := system; content := systemContent |};
    {| role := user; content := js "User Request: " ++ userPrompt |} ].

End Prompts.

(* ===================================================================== *)
(** * The document collection *)
(* ===================================================================== *)

Module Store.
Import Js Json.

(** A document of the Page model, whose schema follows [connectDB] in
    the sources: an id, the owner, a title, an icon, a cover image, a
    content, tags, a summary and the favorite and archived flags.  The six
    fields a client may set hold the JSON value last written to them
    ([JNull] when there is none); ids are well-formed and unique in a
    collection.  The casts of the schema and its two timestamps are not
    part of the record. *)
Record Page := {
  _id : jsstring;
  userId : jsstring;
  title : json;
  icon : json;
  coverImage : json;
  content : json;
  tags : json;
  summary : json;
  isFavorite : bool;
  isArchived : bool
}.

Definition Collection := list Page.

(** [{ _id: pageId, userId: user.id }] *)
Definition ownedBy (pageId user : jsstring) (p : Page) : bool :=
  Js.eqb (_id p) pageId && Js.eqb (userId p) user.

(** [{ _id: pageId }] *)
Definition hasId (pageId : jsstring) (p : Page) : bool := Js.eqb (_id p) pageId.

(** [Page.findOne(filter)] *)
Definition findOne (filter : Page -> bool) (db : Collection) : option Page :=
  find filter db.

(** [Page.findOneAndUpdate(filter, update, { new: true })]: the updated
    document and the collection after the write, or [None] when no
    document matches. *)
Fixpoint findOneAndUpdate (filter : Page -> bool) (update : Page -> Page)
         (db : Collection) : option (Page * Collection) :=
  match db with
  | [] => None
  | p :: rest =>
      if filter p then Some (update p, update p :: rest)
      else
        match findOneAndUpdate filter update rest with
        | Some (q, rest') => Some (q, p :: rest')
        | None => None
        end
  end.

(** [Page.findByIdAndUpdate(id, update)], whose result the callers drop. *)
Definition findByIdAndUpdate (pageId : jsstring) (update : Page -> Page)
           (db : Collection) : Collection :=
  match findOneAndUpdate (hasId pageId) update db with
  | Some (_, db') => db'
  | None => db
  end.

(** [Page.findOneAndDelete(filter)] *)
Fixpoint findOneAndDelete (filter : Page -> bool) (db : Collection)
  : option (Page * Collection) :=
  match db with
  | [] => None
  | p :: rest =>
      if filter p then Some (p, rest)
      else
        match findOneAndDelete filter rest with
        | Some (q, rest') => Some (q, p :: rest')
        | None => None
        end
  end.

(** [$set] of one allow-listed field. *)
Definition setField (key : string) (v : json) (p : Page) : Page :=
  if String.eqb key "title" then
    {| _id := _id p; userId := userId p; title := v; icon := icon p;
       coverImage := coverImage p; content := content p; tags := tags p;
       summary := summary p; isFavorite := isFavorite p; isArchived := isArchived p |}
  else if String.eqb key "icon" then
    {| _id := _id p; userId := userId p; title := title p; icon := v;
       coverImage := coverImage p; content := content p; tags := tags p;
       summary := summary p; isFavorite := isFavorite p; isArchived := isArchived p |}
  else if String.eqb key "coverImage" then
    {| _id := _id p; userId := userId p; title := title p; icon := icon p;
       coverImage := v; content := content p; tags := tags p;
       summary := summary p; isFavorite := isFavorite p; isArchived := isArchived p |}
  else if String.eqb key "content" then
    {| _id := _id p; userId := userId p; title := title p; icon := icon p;
       coverImage := coverImage p; content := v; tags := tags p;
       summary := summary p; isFavorite := isFavorite p; isArchived := isArchived p |}
  else if String.eqb key "tags" then
    {| _id := _id p; userId := userId p; title := title p; icon := icon p;
       coverImage := coverImage p; content := content p; tags := v;
       summary := summary p; isFavorite := isFavorite p; isArchived := isArchived p |}
  else if String.eqb key "summary" then
    {| _id := _id p; userId := userId p; title := title p; icon := icon p;
       coverImage := coverImage p; content := content p; tags := tags p;
       summary := v; isFavorite := isFavorite p; isArchived := isArchived p |}
  else p.

Definition setFlags (fav arch : bool) (p : Page) : Page :=
  {| _id := _id p; userId := userId p; title := title p; icon := icon p;
     coverImage := coverImage p; content := content p; tags := tags p;
     summary := summary p; isFavorite := fav; isArchived := arch |}.

(** The document as the driver serialises it. *)
Definition toJson (p : Page) : json :=
  JObject
    [ (js "_id", JString (_id p)); (js "userId", JString (userId p));
      (js "title", title p); (js "icon", icon p);
      (js "coverImage", coverImage p); (js "content", content p);
      (js "tags", tags p); (js "summary", summary p);
      (js "isFavorite", JBool (isFavorite p));
      (js "isArchived", JBool (isArchived p)) ].

End Store.

(* ===================================================================== *)
(** * Requests, responses and the completion provider *)
(* ===================================================================== *)

Module Http.
Import Js Json Prompts Store.

Record Response := { status : nat; body : json }.

(** [c.json({ success: false, error }, status)] *)
Definition failure (code : nat) (message : string) : Response :=
  {| status := code;
     body := JObject [ (js "success", JBool false);
                       (js "error", JString (js message)) ] |}.

(** [c.json({ success: true, data }, status)] *)
Definition successWith (code : nat) (data : json) : Response :=
  {| status := code;
     body := JObject [ (js "success", JBool true); (js "data", data) ] |}.

Definition success (data : json) : Response := successWith 200 data.

(** What a [throw] carries: an [Error] with its message, or anything else. *)
Inductive Thrown :=
| ErrorWith (message : jsstring)
| NotAnError.

(** [await c.req.json()]: the parsed body, or the error it rejects with. *)
Inductive ReqBody :=
| Malformed (e : Thrown)
| Parsed (b : json).

(** Reading a property of [null] throws a TypeError. *)
Definition nullRead : Thrown := ErrorWith (js "Cannot read properties of null").

(** [body.key] on a non-null body: [None] is [undefined]. *)
Definition prop (b : json) (key : string) : option json :=
  match b with
  | JObject members => lookup (js key) members
  | _ => None
  end.

(** [typeof v === "string" ? v : dflt] *)
Definition stringOr (dflt : jsstring) (v : option json) : jsstring :=
  match v with
  | Some (JString s) => s
  | _ => dflt
  end.

(** The argument of [openai.chat.completions.create]; the temperature is
    counted in tenths. *)
Record CompletionRequest := {
  model : jsstring;
  messages : list Message;
  max_tokens : nat;
  temperature : nat
}.

(** The call throws, or resolves with [choices[0]?.message?.content]. *)
Inductive Completion :=
| Failed (e : Thrown)
| Replied (text : option jsstring).

Definition Provider := CompletionRequest -> Completion.

(** What a handler leaves behind: its response, the collection, and the
    completion requests it issued. *)
Record Outcome := {
  response : Response;
  db : Collection;
  calls : list CompletionRequest
}.

Definition theModel : jsstring := js "arcee-ai/trinity-large-preview:free".

(** [content?.trim()], or the empty string. *)
Definition trimmedOrEmpty (text : option jsstring) : jsstring :=
  match text with
  | Some t => trim t
  | None => []
  end.

End Http.

(* ===================================================================== *)
(** * The AI routes ([lib/hono/routes/ai.routes.ts]) *)
(* ===================================================================== *)

Module AiRoutes.
Import Js Regex Json Prompts Store Http.

(** The [catch] block shared by the four handlers. *)
Definition onError (fallback : string) (e : Thrown) : Response :=
  match e with
  | ErrorWith message =>
      if includes (js "rate limit") message
      then failure 429 "AI rate limit reached. Please try again in a moment."
      else failure 500 fallback
  | NotAnError => failure 500 fallback
  end.

(** The four calls of [openai.chat.completions.create]. *)
Definition summarizeRequest (title content : jsstring) : CompletionRequest :=
  {| model := theModel;
     messages := getSummarizePrompt (orElse title (js "Untitled")) content;
     max_tokens := 200; temperature := 3 |}.

Definition improveRequest (content : jsstring) (selection : option jsstring)
  : CompletionRequest :=
  {| model := theModel;
     messages := getImprovePrompt content selection;
     max_tokens := 2000; temperature := 4 |}.

Definition tagsRequest (title content : jsstring) : CompletionRequest :=
  {| model := theModel;
     messages := getTagsPrompt (orElse title (js "Untitled")) content;
     max_tokens := 100; temperature := 3 |}.

Definition generateRequest (userPrompt title content : jsstring)
  : CompletionRequest :=
  {| model := theModel;
     messages := getGeneratePrompt userPrompt (Some title) (Some content);
     max_tokens := 1500; temperature := 7 |}.

(** POST /ai/summarize *)
Definition summarize (openai : Provider) (store : Collection) (req : ReqBody)
  : Outcome :=
  let caught e := {| response := onError "Failed to generate summary" e;
                     db := store; calls := [] |} in
  match req with
  | Malformed e => caught e
  | Parsed JNull => caught nullRead
  | Parsed body =>
      let pageId := stringOr [] (prop body "pageId") in
      let content := stringOr [] (prop body "content") in
      let title := stringOr (js "Untitled") (prop body "title") in
      if negb (truthy pageId) || negb (truthy content) then
        {| response := failure 400 "pageId and content are required";
           db := store; calls := [] |}
      else if List.length (trim content) <? 20 then
        {| response :=
             failure 400 "Note content is too short to summarize. Add more content!";
           db := store; calls := [] |}
      else
        let request := summarizeRequest title content in
        match openai request with
        | Failed e =>
            {| response := onError "Failed to generate summary" e;
               db := store; calls := [request] |}
        | Replied text =>
            let summary := trimmedOrEmpty text in
            if negb (truthy summary) then
              {| response := failure 500 "AI returned an empty response";
                 db := store; calls := [request] |}
            else
              {| response := success (JObject [ (js "result", JString summary) ]);
                 db := findByIdAndUpdate pageId
                         (setField "summary" (JString summary)) store;
                 calls := [request] |}
        end
  end.

(** POST /ai/improve *)
Definition improve (openai : Provider) (store : Collection) (req : ReqBody)
  : Outcome :=
  let caught e := {| response := onError "Failed to improve text" e;
                     db := store; calls := [] |} in
  match req with
  | Malformed e => caught e
  | Parsed JNull => caught nullRead
  | Parsed body =>
      let content := stringOr [] (prop body "content") in
      let selection :=
        match prop body "selection" with
        | Some (JString s) => Some s
        | _ => None
        end in
      let textToImprove :=
        match selection with
        | Some sel => orElse sel content
        | None => content
        end in
      if List.length (trim textToImprove) <? 5 then
        {| response := failure 400 "Please provide more text to improve.";
           db := store; calls := [] |}
      else
        let request := improveRequest content selection in
        match openai request with
        | Failed e =>
            {| response := onError "Failed to improve text" e;
               db := store; calls := [request] |}
        | Replied text =>
            let improved := trimmedOrEmpty text in
            if negb (truthy improved) then
              {| response := failure 500 "AI returned an empty response";
                 db := store; calls := [request] |}
            else
              {| response := success (JObject [ (js "result", JString improved) ]);
                 db := store; calls := [request] |}
        end
  end.

(** POST /ai/generate *)
Definition generate (openai : Provider) (store : Collection) (req : ReqBody)
  : Outcome :=
  let caught e := {| response := onError "Failed to generate content" e;
                     db := store; calls := [] |} in
  match req with
  | Malformed e => caught e
  | Parsed JNull => caught nullRead
  | Parsed body =>
      let userPrompt := stringOr [] (prop body "prompt") in
      let title := stringOr [] (prop body "title") in
      let content := stringOr [] (prop body "content") in
      if negb (truthy (trim userPrompt)) then
        {| response := failure 400 "Prompt is required";
           db := store; calls := [] |}
      else
        let request := generateRequest userPrompt title content in
        match openai request with
        | Failed e =>
            {| response := onError "Failed to generate content" e;
               db := store; calls := [request] |}
        | Replied text =>
            let generated := trimmedOrEmpty text in
            if negb (truthy generated) then
              {| response := failure 500 "AI returned an empty response";
                 db := store; calls := [request] |}
            else
              {| response := success (JObject [ (js "result", JString generated) ]);
                 db := store; calls := [request] |}
        end
  end.

(** ** Recovering tags from the model's output *)

Definition backtick : regex := Chr (ch "`").

(** [/\[[\s\S]*?\]/] *)
Definition jsonArrayPattern : regex :=
  Seq (Chr (ch "[")) (Seq (Star Lazy anyChar) (Chr (ch "]"))).

(** [/```[\s\S]*?```/g] *)
Definition fencePattern : regex :=
  Seq backtick (Seq backtick (Seq backtick
    (Seq (Star Lazy anyChar) (Seq backtick (Seq backtick backtick))))).

(** [[*\-\d.]] *)
Definition isMarker (c : char16) : bool :=
  N.eqb c (ch "*") || N.eqb c (ch "-") || isDigit c || N.eqb c (ch ".").

(** [/[*\-\d.]+\s*/g] *)
Definition markerPattern : regex :=
  Seq (Plus Greedy (Class isMarker)) (Star Greedy (Class isWhiteSpace)).

(** The class of the two brackets and the two quote characters. *)
Definition isQuoteOrBracket (c : char16) : bool :=
  N.eqb c (ch "[") || N.eqb c (ch "]") || N.eqb c DQUOTE || N.eqb c (ch "'").

(** That class as a global pattern. *)
Definition quotePattern : regex := Class isQuoteOrBracket.

(** [[,\n]] *)
Definition isSeparator (c : char16) : bool := N.eqb c (ch ",") || N.eqb c LF.

(** [/[,\n]+/] *)
Definition separatorPattern : regex := Plus Greedy (Class isSeparator).

(** [parsed.filter((t) => typeof t === "string" && t.trim())] *)
Fixpoint nonBlankStrings (items : list json) : list jsstring :=
  match items with
  | [] => []
  | JString s :: rest =>
      if truthy (trim s) then s :: nonBlankStrings rest else nonBlankStrings rest
  | _ :: rest => nonBlankStrings rest
  end.

(** Strategy 1: a JSON array anywhere in the response. *)
Definition structuredTags (rawResponse : jsstring) : list jsstring :=
  match exec jsonArrayPattern rawResponse with
  | Some jsonMatch =>
      match parse jsonMatch with
      | Some (JArray parsed) => slice0 5 (nonBlankStrings parsed)
      | _ => []
      end
  | None => []
  end.

Section Tags.

Variable toLowerCase : jsstring -> jsstring.

(** Strategy 2: split on commas and newlines. *)
Definition heuristicTags (rawResponse : jsstring) : list jsstring :=
  slice0 5
    (filter (fun t => (1 <? List.length t) && (List.length t <? 30))
       (map (fun t => toLowerCase (trim t))
          (split separatorPattern
             (replaceAll quotePattern []
                (replaceAll markerPattern (js " ")
                   (replaceAll fencePattern [] rawResponse)))))).

Definition parseTags (rawResponse : jsstring) : list jsstring :=
  let tags := structuredTags rawResponse in
  if List.length tags =? 0 then heuristicTags rawResponse else tags.

(** POST /ai/tags *)
Definition tags (openai : Provider) (store : Collection) (req : ReqBody)
  : Outcome :=
  let caught e := {| response := onError "Failed to generate tags" e;
                     db := store; calls := [] |} in
  match req with
  | Malformed e => caught e
  | Parsed JNull => caught nullRead
  | Parsed body =>
      let pageId := stringOr [] (prop body "pageId") in
      let content := stringOr [] (prop body "content") in
      let title := stringOr (js "Untitled") (prop body "title") in
      if negb (truthy pageId) || negb (truthy content) then
        {| response := failure 400 "pageId and content are required";
           db := store; calls := [] |}
      else if List.length (trim content) <? 10 then
        {| response := failure 400 "Note content is too short to generate tags.";
           db := store; calls := [] |}
      else
        let request := tagsRequest title content in
        match openai request with
        | Failed e =>
            {| response := onError "Failed to generate tags" e;
               db := store; calls := [request] |}
        | Replied text =>
            let rawResponse := trimmedOrEmpty text in
            if negb (truthy rawResponse) then
              {| response := failure 500 "AI returned empty response";
                 db := store; calls := [request] |}
            else
              let found := parseTags rawResponse in
              if List.length found =? 0 then
                {| response := failure 500 "AI could not generate tags";
                   db := store; calls := [request] |}
              else
                {| response :=
                     success (JObject [ (js "result", JArray (map JString found)) ]);
                   db := findByIdAndUpdate pageId
                           (setField "tags" (JArray (map JString found))) store;
                   calls := [request] |}
        end
  end.

End Tags.

End AiRoutes.

(* ===================================================================== *)
(** * The pages routes ([lib/hono/routes/pages.routes.ts]) *)
(* ===================================================================== *)

Module PagesRoutes.
Import Js Json Store Http.

Definition notFound : Response := failure 404 "Page not found".

Definition quiet (r : Response) (store : Collection) : Outcome :=
  {| response := r; db := store; calls := [] |}.

(** POST /pages.  [newId] is the id the driver gives the new document. *)
Definition createPage (store : Collection) (user : jsstring) (req : ReqBody)
           (newId : jsstring) : Outcome :=
  match req with
  | Malformed _ | Parsed JNull => quiet (failure 500 "Failed to create page") store
  | Parsed body =>
      let page :=
        {| _id := newId; userId := user;
           title := JString (stringOr (js "Untitled") (prop body "title"));
           icon := match prop body "icon" with
                   | Some (JString s) => JString s
                   | _ => JNull
                   end;
           coverImage := JNull; content := JArray []; tags := JArray [];
           summary := JNull; isFavorite := false; isArchived := false |} in
      quiet (successWith 201 (toJson page)) (store ++ [page])
  end.

(** GET /pages/:id *)
Definition getPage (store : Collection) (user pageId : jsstring) : Outcome :=
  match findOne (ownedBy pageId user) store with
  | None => quiet notFound store
  | Some page => quiet (success (toJson page)) store
  end.

Definition allowedFields : list string :=
  ["title"; "icon"; "coverImage"; "content"; "tags"; "summary"]%string.

(** The loop over [allowedFields]: the members of [validatedData]. *)
Definition validatedData (members : list (jsstring * json)) : list (string * json) :=
  flat_map (fun key =>
              match lookup (js key) members with
              | Some v => [(key, v)]
              | None => []
              end) allowedFields.

(** [{ $set: validatedData }] *)
Definition applySet (data : list (string * json)) (p : Page) : Page :=
  fold_left (fun q kv => setField (fst kv) (snd kv) q) data p.

(** PATCH /pages/:id.  The operator [in] throws on a body that is not an
    object; an array has none of the allowed keys. *)
Definition updatePage (store : Collection) (user pageId : jsstring)
           (req : ReqBody) : Outcome :=
  let caught := quiet (failure 500 "Failed to update page") store in
  match req with
  | Malformed _ => caught
  | Parsed (JObject members) =>
      let data := validatedData members in
      if List.length data =? 0 then
        quiet (failure 400 "No valid fields to update") store
      else
        match findOneAndUpdate (ownedBy pageId user) (applySet data) store with
        | None => quiet notFound store
        | Some (page, store') => quiet (success (toJson page)) store'
        end
  | Parsed (JArray _) => quiet (failure 400 "No valid fields to update") store
  | Parsed _ => caught
  end.

(** PATCH /pages/:id/favorite.  [save()] writes the document [findOne]
    returned back in its place. *)
Definition toggleFavorite (store : Collection) (user pageId : jsstring) : Outcome :=
  match findOneAndUpdate (ownedBy pageId user)
          (fun p => setFlags (negb (isFavorite p)) (isArchived p) p) store with
  | None => quiet notFound store
  | Some (existingPage, store') =>
      quiet (success (JObject [ (js "isFavorite", JBool (isFavorite existingPage)) ]))
            store'
  end.

(** PATCH /pages/:id/archive *)
Definition toggleArchive (store : Collection) (user pageId : jsstring) : Outcome :=
  match findOneAndUpdate (ownedBy pageId user)
          (fun p =>
             let archived := negb (isArchived p) in
             if archived then setFlags false archived p
             else setFlags (isFavorite p) archived p) store with
  | None => quiet notFound store
  | Some (existingPage, store') =>
      quiet (success (JObject [ (js "isArchived", JBool (isArchived existingPage)) ]))
            store'
  end.

(** DELETE /pages/:id *)
Definition deletePage (store : Collection) (user pageId : jsstring) : Outcome :=
  match findOneAndDelete (ownedBy pageId user) store with
  | None => quiet notFound store
  | Some (_, store') =>
      quiet {| status := 200;
               body := JObject [ (js "success", JBool true);
                                 (js "message", JString (js "Page deleted permanently")) ] |}
            store'
  end.

End PagesRoutes.

(* ===================================================================== *)
(** * The application ([lib/hono/index.ts]) *)
(* ===================================================================== *)

Module App.
Import Js Json Store Http.

(** The document-scoped requests of the HTTP surface. *)
Inductive Request :=
| PostPage (req : ReqBody) (newId : jsstring)
| GetPage (pageId : jsstring)
| PatchPage (pageId : jsstring) (req : ReqBody)
| PatchFavorite (pageId : jsstring)
| PatchArchive (pageId : jsstring)
| DeletePage (pageId : jsstring)
| PostSummarize (req : ReqBody)
| PostImprove (req : ReqBody)
| PostTags (req : ReqBody)
| PostGenerate (req : ReqBody).

Section Handle.

Variable toLowerCase : jsstring -> jsstring.

(** [authMiddleware], then the route.  [session] is the id of the user
    of the session, when there is one. *)
Definition handle (openai : Provider) (store : Collection)
           (session : option jsstring) (r : Request) : Outcome :=
  match session with
  | None =>
      {| response := failure 401 "Unauthorized. Please log in to continue.";
         db := store; calls := [] |}
  | Some user =>
      match r with
      | PostPage req newId => PagesRoutes.createPage store user req newId
      | GetPage pageId => PagesRoutes.getPage store user pageId
      | PatchPage pageId req => PagesRoutes.updatePage store user pageId req
      | PatchFavorite pageId => PagesRoutes.toggleFavorite store user pageId
      | PatchArchive pageId => PagesRoutes.toggleArchive store user pageId
      | DeletePage pageId => PagesRoutes.deletePage store user pageId
      | PostSummarize req => AiRoutes.summarize openai store req
      | PostImprove req => AiRoutes.improve openai store req
      | PostTags req => AiRoutes.tags toLowerCase openai store req
      | PostGenerate req => AiRoutes.generate openai store req
      end
  end.

End Handle.

End App.

(* ===================================================================== *)
(** * The debounced save ([components/editor/Editor.tsx]) *)
(* ===================================================================== *)

Module Editor.
Import Extractor.

Definition Blocks := list Block.

(** A timer of the runtime: its id, the time it is due (ms), and the
    blocks its callback closed over. *)
Record Timer := { timerId : nat; due : nat; captured : Blocks }.

(** The mounted component in its environment. *)
Record State := {
  now : nat;                      (* the clock, in ms *)
  document : Blocks;              (* editor.document *)
  saveTimerRef : option nat;      (* saveTimerRef.current *)
  timers : list Timer;            (* the pending timers of the runtime *)
  nextId : nat;                   (* the id setTimeout returns next *)
  liveBlocks : Blocks;            (* what onChange handed to the parent *)
  saves : list (nat * Blocks)     (* the calls of onSave, with their time *)
}.

Definition mount (t0 : nat) (initialContent : Blocks) : State :=
  {| now := t0; document := initialContent; saveTimerRef := None;
     timers := []; nextId := 1; liveBlocks := []; saves := [] |}.

Definition clearTimeout (id : nat) (ts : list Timer) : list Timer :=
  filter (fun t => negb (timerId t =? id)) ts.

(** [handleChange] *)
Definition handleChange (st : State) : State :=
  let blocks := document st in
  let pending :=
    match saveTimerRef st with
    | Some id => clearTimeout id (timers st)
    | None => timers st
    end in
  {| now := now st; document := document st;
     saveTimerRef := Some (nextId st);
     timers := pending ++ [ {| timerId := nextId st; due := now st + 1500;
                               captured := blocks |} ];
     nextId := S (nextId st);
     liveBlocks := blocks;
     saves := saves st |}.

(** The clock reaches [t]: the timers due by then run their callback,
    [onSave(blocks)], in the order they were set. *)
Definition advance (t : nat) (st : State) : State :=
  let fired := filter (fun tm => due tm <=? t) (timers st) in
  {| now := Nat.max (now st) t; document := document st;
     saveTimerRef := saveTimerRef st;
     timers := filter (fun tm => negb (due tm <=? t)) (timers st);
     nextId := nextId st; liveBlocks := liveBlocks st;
     saves := saves st ++ map (fun tm => (due tm, captured tm)) fired |}.

(** A local edit at time [t] leaves the editor with [blocks]; the view
    then calls [handleChange]. *)
Definition edit (t : nat) (blocks : Blocks) (st : State) : State :=
  let st := advance t st in
  handleChange
    {| now := now st; document := blocks; saveTimerRef := saveTimerRef st;
       timers := timers st; nextId := nextId st; liveBlocks := liveBlocks st;
       saves := saves st |}.

Definition session (edits : list (nat * Blocks)) (st : State) : State :=
  fold_left (fun s e => edit (fst e) (snd e) s) edits st.

(** Every edit after the first comes less than 1.5 s after the one
    before it. *)
Fixpoint rapid (prev : nat) (edits : list (nat * Blocks)) : Prop :=
  match edits with
  | [] => True
  | (t, _) :: rest => prev <= t /\ t < prev + 1500 /\ rapid t rest
  end.

(** The state between two edits of a burst: the last edit happened at [t]
    and left [blocks]; one timer is pending, due 1.5 s later, and nothing
    has been saved. *)
Definition armed (t : nat) (blocks : Blocks) (st : State) : Prop :=
  now st = t /\ document st = blocks /\ saves st = []
  /\ exists id, saveTimerRef st = Some id
                /\ timers st = [ {| timerId := id; due := t + 1500; captured := blocks |} ].

End Editor.

(* ===================================================================== *)
(** * The contracts in the words of the specification *)
(* ===================================================================== *)

Module Reading.
Import Js Json Extractor Store Http AiRoutes.

(** ** The text extractor, as section 4.1 words it *)

(** Section 3: an inline content item is either literal text or a nested
    inline sequence. *)
Fixpoint eitherTextOrSequence (item : InlineContent) : bool :=
  match item with
  | mkInline _ (Some _) None => true
  | mkInline _ None (Some items) => forallb eitherTextOrSequence items
  | _ => false
  end.

(** A block of section 3: a type tag, a sequence of such items, and child
    blocks; an absent content or an absent list of children is an empty
    sequence. *)
Fixpoint wellFormed (block : Block) : bool :=
  match block with
  | mkBlock _ content children =>
      match content with
      | Some items => forallb eitherTextOrSequence items
      | None => true
      end
      && match children with
         | Some kids => forallb wellFormed kids
         | None => true
         end
  end.

(** The text of an inline item: the literal text, or the texts of the
    nested sequence one after the other. *)
Fixpoint inlineText (item : InlineContent) : jsstring :=
  match item with
  | mkInline _ (Some literal) _ => literal
  | mkInline _ None (Some items) => List.concat (map inlineText items)
  | mkInline _ None None => []
  end.

(** The inline content of a block, as one text. *)
Definition ownText (content : option (list InlineContent)) : jsstring :=
  match content with
  | Some items => List.concat (map inlineText items)
  | None => []
  end.

(** The lines the contract speaks of: the inline content of the block
    when it has a code unit that is not whitespace, then the lines of its
    children. *)
Fixpoint logicalLines (block : Block) : list jsstring :=
  match block with
  | mkBlock _ content children =>
      (if hasNonWhitespace (ownText content) then [ownText content] else [])
      ++
      match children with
      | Some kids => flat_map logicalLines kids
      | None => []
      end
  end.

(** The block or one of its descendants carries non-whitespace text. *)
Fixpoint carriesText (block : Block) : bool :=
  match block with
  | mkBlock _ content children =>
      hasNonWhitespace (ownText content)
      || match children with
         | Some kids => existsb carriesText kids
         | None => false
         end
  end.

(** Lines joined by single newlines. *)
Definition newlineJoined (ls : list jsstring) : jsstring :=
  match ls with
  | [] => []
  | first :: rest => first ++ flat_map (cons LF) rest
  end.

(** Every line with its separator in front. *)
Definition glue (ls : list jsstring) : jsstring := flat_map (cons LF) ls.

(** ** Validation of a summarize request *)

(** The number of non-whitespace characters of a text. *)
Definition nonWhitespaceLength (s : jsstring) : nat :=
  List.length (filter (fun c => negb (isWhiteSpace c)) s).

(** ** Structured parsing of tags, as section 4.4 words it *)

(** The end of a bracketed substring whose brackets balance: the text up
    to the bracket that closes the one already open. *)
Fixpoint balancedRest (depth : nat) (s : jsstring) : option jsstring :=
  match s with
  | [] => None
  | c :: t =>
      if N.eqb c (ch "[") then option_map (cons c) (balancedRest (S depth) t)
      else if N.eqb c (ch "]") then
        match depth with
        | O => Some [c]
        | S d => option_map (cons c) (balancedRest d t)
        end
      else option_map (cons c) (balancedRest depth t)
  end.

(** The first balanced bracketed substring. *)
Fixpoint firstBalanced (s : jsstring) : option jsstring :=
  match s with
  | [] => None
  | c :: t =>
      if N.eqb c (ch "[") then
        match balancedRest 0 t with
        | Some m => Some (c :: m)
        | None => firstBalanced t
        end
      else firstBalanced t
  end.

(** The elements that are non-empty strings. *)
Fixpoint nonEmptyStrings (items : list json) : list jsstring :=
  match items with
  | [] => []
  | JString (c :: s) :: rest => (c :: s) :: nonEmptyStrings rest
  | _ :: rest => nonEmptyStrings rest
  end.

Definition statedStructuredTags (raw : jsstring) : list jsstring :=
  match firstBalanced raw with
  | Some sub =>
      match parse sub with
      | Some (JArray items) => firstn 5 (nonEmptyStrings items)
      | _ => []
      end
  | None => []
  end.

(** ** Structured parsing of tags, as the handler does it *)

(** The text up to the first closing bracket, that bracket included. *)
Fixpoint throughClose (s : jsstring) : option jsstring :=
  match s with
  | [] => None
  | c :: t =>
      if N.eqb c (ch "]") then Some [c]
      else option_map (cons c) (throughClose t)
  end.

(** From the first opening bracket through the first closing bracket
    after it. *)
Fixpoint bracketSpan (s : jsstring) : option jsstring :=
  match s with
  | [] => None
  | c :: t =>
      if N.eqb c (ch "[") then option_map (cons c) (throughClose t)
      else bracketSpan t
  end.

(** The elements that are strings with a code unit that is not
    whitespace. *)
Definition stringsWithText (items : list json) : list jsstring :=
  flat_map (fun v => match v with
                     | JString s => if hasNonWhitespace s then [s] else []
                     | _ => []
                     end) items.

(** ** The heuristic fallback, as section 4.4 words it *)

Definition fenceMarker : jsstring := [ch "`"; ch "`"; ch "`"].

(** Strips the code-fence markers. *)
Fixpoint stripFenceMarkers (s : jsstring) : jsstring :=
  match s with
  | a :: ((b :: c :: t) as t1) =>
      if startsWith fenceMarker s then stripFenceMarkers t
      else a :: stripFenceMarkers t1
  | _ => s
  end.

(** Splits at every code unit that satisfies [sep]. *)
Fixpoint splitAt (sep : char16 -> bool) (cur : jsstring) (s : jsstring)
  : list jsstring :=
  match s with
  | [] => [rev cur]
  | c :: t => if sep c then rev cur :: splitAt sep [] t
              else splitAt sep (c :: cur) t
  end.

Section Fallback.

Variable toLowerCase : jsstring -> jsstring.

Definition keepable (t : jsstring) : bool :=
  (1 <? List.length t) && (List.length t <? 30).

Definition statedHeuristicTags (raw : jsstring) : list jsstring :=
  firstn 5
    (filter keepable
       (map (fun t => toLowerCase (trim t))
          (splitAt isSeparator []
             (filter (fun c => negb (isQuoteOrBracket c))
                (filter (fun c => negb (isMarker c))
                   (stripFenceMarkers raw)))))).

End Fallback.

(** ** The heuristic fallback, as the handler does it *)

(** The text after the first fence marker. *)
Fixpoint afterMarker (s : jsstring) : option jsstring :=
  match s with
  | [] => None
  | _ :: t => if startsWith fenceMarker s then Some (skipn 3 s) else afterMarker t
  end.

(** The text after the fenced block that opens at the start of [s]: a
    marker, then everything up to and including the next marker. *)
Definition afterFencedBlock (s : jsstring) : option jsstring :=
  if startsWith fenceMarker s then afterMarker (skipn 3 s) else None.

(** Deletes every complete fenced block, its contents included; a marker
    that is never closed stays. *)
Equations? dropFencedBlocks (s : jsstring) : jsstring by wf (List.length s) lt :=
  dropFencedBlocks [] := [];
  dropFencedBlocks (c :: t) with Logic.inspect (afterFencedBlock (c :: t)) := {
    | exist _ (Some rest) found => dropFencedBlocks rest;
    | exist _ None _ => c :: dropFencedBlocks t }.
Proof.
  clear dropFencedBlocks.
  assert (H : forall u r, afterMarker u = Some r -> List.length r < List.length u).
  { induction u as [|x u IH]; intros r Hr; [discriminate|].
    cbn [afterMarker] in Hr.
    destruct (startsWith fenceMarker (x :: u)).
    - injection Hr as <-. destruct u as [|y [|z u]]; simpl; lia.
    - apply IH in Hr. simpl List.length. lia. }
  unfold afterFencedBlock in found.
  destruct (startsWith fenceMarker (c :: t)); [|discriminate].
  apply H in found. destruct t as [|y [|z u]]; simpl in *; lia.
Qed.

(** Replaces every run of marker characters, together with the
    whitespace after it, by one space. *)
Equations? squashMarkers (s : jsstring) : jsstring by wf (List.length s) lt :=
  squashMarkers [] := [];
  squashMarkers (c :: t) :=
    if isMarker c
    then SPACE :: squashMarkers (dropWhile isWhiteSpace (dropWhile isMarker t))
    else c :: squashMarkers t.
Proof.
  clear squashMarkers.
  assert (H : forall p u, List.length (dropWhile p u) <= List.length u).
  { intros p u; induction u as [|x u IH]; simpl; [lia|].
    destruct (p x); simpl; lia. }
  pose proof (H isWhiteSpace (dropWhile isMarker t)).
  pose proof (H isMarker t). lia.
Qed.

(** The pieces of [s] between its runs of commas and newlines. *)
Fixpoint piecesFrom (inRun : bool) (cur : jsstring) (s : jsstring)
  : list jsstring :=
  match s with
  | [] => [rev cur]
  | c :: t =>
      if isSeparator c then
        if inRun then piecesFrom true cur t
        else rev cur :: piecesFrom true [] t
      else piecesFrom false (c :: cur) t
  end.

Definition pieces (s : jsstring) : list jsstring := piecesFrom false [] s.

(** ** What a response reports *)

(** The member [key] of the [data] of a response. *)
Definition reported (r : Response) (key : string) : option json :=
  match prop (body r) "data" with
  | Some data => prop data key
  | None => None
  end.

(** ** The flags of a document *)

Definition exclusive (p : Page) : Prop :=
  ~ (isArchived p = true /\ isFavorite p = true).

(** ** The sentences of the specification that the handlers do not meet
    as they are worded *)

(** The [content] of a request body. *)
Definition contentOf (members : list (jsstring * json)) : jsstring :=
  stringOr [] (lookup (js "content") members).

(** The text POST /ai/improve works on: the selection when it is a
    non-empty string, the content otherwise. *)
Definition improvedText (members : list (jsstring * json)) : jsstring :=
  match lookup (js "selection") members with
  | Some (JString (c :: s)) => c :: s
  | _ => contentOf members
  end.

(** Section 8, item 8, with the length counted in non-whitespace
    characters. *)
Definition SummarizeGateAsStated : Prop :=
  forall (openai : Provider) (store : Collection) members,
    nonWhitespaceLength (contentOf members) < 20 ->
    let o := summarize openai store (Parsed (JObject members)) in
    status (response o) = 400 /\ calls o = [] /\ db o = store.

(** Section 4.4, step 1. *)
Definition StructuredTagsAsStated : Prop :=
  forall raw, structuredTags raw = statedStructuredTags raw.

(** Section 4.4, step 2, for a given [toLowerCase]. *)
Definition HeuristicTagsAsStated (toLowerCase : jsstring -> jsstring) : Prop :=
  forall raw,
    structuredTags raw = [] ->
    heuristicTags toLowerCase raw = statedHeuristicTags toLowerCase raw.

End Reading.

(* ===================================================================== *)
(** * Sample data for the worked examples *)
(* ===================================================================== *)

Module Samples.
Import Js Json Store Http.

(** A body read as a JSON object, member by member. *)
Definition object (members : list (string * json)) : json :=
  JObject (map (fun kv => (js (fst kv), snd kv)) members).

(** The provider that answers every request with [text]. *)
Definition answering (text : jsstring) : Provider := fun _ => Replied (Some text).

(** A text in which [|] stands for a line feed and ['] for a double
    quote. *)
Definition text (s : string) : jsstring :=
  map (fun c => if N.eqb c (ch "|") then LF
                else if N.eqb c (ch "'") then DQUOTE else c) (js s).

(** A page of [owner] with nothing in it. *)
Definition blankPage (id owner : string) (favorite archived : bool) : Page :=
  {| _id := js id; userId := js owner; title := JString (js "Untitled");
     icon := JNull; coverImage := JNull; content := JArray [];
     tags := JArray []; summary := JNull;
     isFavorite := favorite; isArchived := archived |}.

(** Ids as the driver prints them: two users and three pages. *)
Definition ann : string := "665f1c0a9d3e4b7a00000a01".
Definition bob : string := "665f1c0a9d3e4b7a00000b02".
Definition page1 : string := "6660aa10c4d2e8f971350001".
Definition page2 : string := "6660aa10c4d2e8f971350002".
Definition page3 : string := "6660aa10c4d2e8f971350003".

End Samples.

(* ===================================================================== *)
(** * The editor component, continued ([components/editor/Editor.tsx]) *)
(* ===================================================================== *)

Module Lifecycle.
Import Js Extractor Editor.

(** The cleanup of the mount effect: the pending timer, if any, is
    cleared. *)
Definition unmount (st : State) : State :=
  {| now := now st; document := document st; saveTimerRef := saveTimerRef st;
     timers := match saveTimerRef st with
               | Some id => clearTimeout id (timers st)
               | None => timers st
               end;
     nextId := nextId st; liveBlocks := liveBlocks st; saves := saves st |}.

(** The edits come in the order of their times. *)
Fixpoint ascending (prev : nat) (edits : list (nat * Blocks)) : Prop :=
  match edits with
  | [] => True
  | (t, _) :: rest => prev <= t /\ ascending t rest
  end.

(** The edits that are followed by 1.5 s without another edit, up to the
    time [horizon], each with the moment its timer fires. *)
Fixpoint quietEdits (horizon : nat) (edits : list (nat * Blocks))
  : list (nat * Blocks) :=
  match edits with
  | [] => []
  | (t, blocks) :: rest =>
      let next := match rest with
                  | [] => horizon
                  | (t', _) :: _ => t'
                  end in
      (if t + 1500 <=? next then [(t + 1500, blocks)] else [])
      ++ quietEdits horizon rest
  end.

(** The state after an edit at [t] that left [blocks], [saved] having been
    saved so far: one timer is pending, the one [saveTimerRef] names. *)
Definition pending (t : nat) (blocks : Blocks) (saved : list (nat * Blocks))
           (st : State) : Prop :=
  now st = t /\ document st = blocks /\ saves st = saved
  /\ exists id, saveTimerRef st = Some id
                /\ timers st = [ {| timerId := id; due := t + 1500; captured := blocks |} ].

(** [String.prototype.split] with a non-empty string as separator.  [skip]
    counts the code units of the separator still to be passed over, [cur]
    is the piece being read, reversed. *)
Fixpoint splitString (sep : jsstring) (skip : nat) (cur : jsstring) (s : jsstring)
  : list jsstring :=
  match s with
  | [] => [rev cur]
  | c :: t =>
      match skip with
      | S k => splitString sep k cur t
      | O =>
          if startsWith sep s
          then rev cur :: splitString sep (List.length sep - 1) [] t
          else splitString sep 0 (c :: cur) t
      end
  end.

(** A block as [insertContent] hands it to the editor. *)
Record PartialBlock := { blockType : jsstring; blockText : jsstring }.

(** The blocks [insertContent] passes to [editor.insertBlocks]. *)
Definition blocksToInsert (content : jsstring) : list PartialBlock :=
  let paragraphs :=
    filter (fun p => truthy (trim p)) (splitString [LF; LF] 0 [] content) in
  map (fun p => {| blockType := js "paragraph"; blockText := p |}) paragraphs.

End Lifecycle.

(* ===================================================================== *)
(** * The page view ([app/(app)/pages/[pageId]/page.tsx]) *)
(* ===================================================================== *)

Module PageView.
Import Js Extractor.

(** [getPlainText].  [liveBlocksRef] is what the editor last handed to
    [onChange]; [pageContent] is [page?.content], [None] when the page or
    its content is missing. *)
Definition getPlainText (liveBlocksRef : list Block)
           (pageContent : option (list Block)) : jsstring :=
  match liveBlocksRef with
  | [] =>
      match pageContent with
      | None => []
      | Some content => extractTextFromBlocks content
      end
  | _ => extractTextFromBlocks liveBlocksRef
  end.

End PageView.

(* ===================================================================== *)
(** * The ids of the driver *)
(* ===================================================================== *)

Module ObjectIds.
Import Js Store.

(** A hexadecimal digit as the driver prints it. *)
Definition isLowerHex (c : char16) : bool :=
  ((48 <=? c) && (c <=? 57) || (97 <=? c) && (c <=? 102))%N.

(** An ObjectId as the driver prints it: 24 hexadecimal digits, the
    letters in lower case.  The ids of a filter are cast to ObjectIds
    before they are compared; on such a string the cast changes nothing,
    so that comparing the strings is comparing the ObjectIds.  (A string
    that is no ObjectId makes the cast throw, and the same digits with
    capital letters are the same ObjectId.) *)
Definition canonicalId (s : jsstring) : bool :=
  (List.length s =? 24) && forallb isLowerHex s.

(** Every document has such an id and such an owner. *)
Definition canonicalStore (store : Collection) : bool :=
  forallb (fun p => canonicalId (_id p) && canonicalId (userId p)) store.

End ObjectIds.

(* ===================================================================== *)
(** * What every handler keeps to *)
(* ===================================================================== *)

Module Envelope.
Import Js Json Store Http.

(** The request succeeded: status 200 or 201. *)
Definition succeeded (r : Response) : bool :=
  (status r =? 200) || (status r =? 201).

Definition failureStatuses : list nat := [400; 401; 404; 429; 500].

(** The response body is the envelope of its status: [success: true] and
    no [error] on success; on failure one of the five failure statuses,
    [success: false] and a non-empty [error] string. *)
Definition uniform (r : Response) : Prop :=
  if succeeded r then
    prop (body r) "success" = Some (JBool true) /\ prop (body r) "error" = None
  else
    In (status r) failureStatuses
    /\ prop (body r) "success" = Some (JBool false)
    /\ exists c s, prop (body r) "error" = Some (JString (c :: s)).

(** A failure writes nothing; at most one completion request is issued,
    and none when the request is refused with 400, 401 or 404. *)
Definition contained (store : Collection) (o : Outcome) : Prop :=
  (succeeded (response o) = false -> db o = store)
  /\ List.length (calls o) <= 1
  /\ (In (status (response o)) [400; 401; 404] -> calls o = []).

(** The two properties of an outcome, together. *)
Definition orderly (store : Collection) (o : Outcome) : Prop :=
  uniform (response o) /\ contained store o.

(** The thrown value is an [Error] whose message has the words
    [rate limit], in these letters, somewhere in it. *)
Definition mentionsRateLimit (e : Thrown) : Prop :=
  match e with
  | ErrorWith message =>
      exists before after, message = before ++ js "rate limit" ++ after
  | NotAnError => False
  end.

(** What a handler leaves behind when its completion request threw [e]:
    nothing written; 429 with the message of the rate limit when [e]
    mentions one, 500 with the message of the handler otherwise. *)
Definition classified (fallback : string) (e : Thrown) (store : Collection)
           (o : Outcome) : Prop :=
  db o = store
  /\ (mentionsRateLimit e ->
      status (response o) = 429
      /\ prop (body (response o)) "success" = Some (JBool false)
      /\ prop (body (response o)) "error"
         = Some (JString (js "AI rate limit reached. Please try again in a moment.")))
  /\ (~ mentionsRateLimit e ->
      status (response o) = 500
      /\ prop (body (response o)) "success" = Some (JBool false)
      /\ prop (body (response o)) "error" = Some (JString (js fallback))).




(** The value [PATCH] leaves in an allowed field: that of the body when
    the body has the key, the old one otherwise. *)
Definition requested (members : list (jsstring * json)) (key : string) (old : json)
  : json :=
  match lookup (js key) members with
  | Some v => v
  | None => old
  end.

Definition patched (members : list (jsstring * json)) (p : Page) : Page :=
  {| _id := _id p; userId := userId p;
     title := requested members "title" (title p);
     icon := requested members "icon" (icon p);
     coverImage := requested members "coverImage" (coverImage p);
     content := requested members "content" (content p);
     tags := requested members "tags" (tags p);
     summary := requested members "summary" (summary p);
     isFavorite := isFavorite p; isArchived := isArchived p |}.

(** Whether a value has the type the schema gives the field ([String] for
    the title, the icon, the cover image and the summary, an array for
    the content, an array of strings for the tags), so that the driver
    stores it as it is. *)
Definition fitsSchema (key : string) (v : json) : bool :=
  if String.eqb key "content" then
    match v with JArray _ => true | _ => false end
  else if String.eqb key "tags" then
    match v with
    | JArray items =>
        forallb (fun item => match item with JString _ => true | _ => false end) items
    | _ => false
    end
  else
    match v with JString _ | JNull => true | _ => false end.

(** The allowed fields of the body have the types of the schema. *)
Definition schemaTyped (req : ReqBody) : bool :=
  match req with
  | Parsed (JObject members) =>
      forallb (fun kv => fitsSchema (fst kv) (snd kv))
              (PagesRoutes.validatedData members)
  | _ => true
  end.

(** The documents of everyone but [user], in order. *)
Definition othersOf (user : jsstring) (store : Collection) : Collection :=
  filter (fun p => negb (Js.eqb (userId p) user)) store.

(** The requests whose handler filters on the owner, or writes nothing. *)
Definition ownerChecked (r : App.Request) : bool :=
  match r with
  | App.PostSummarize _ | App.PostTags _ => false
  | _ => true
  end.

Definition ids (store : Collection) : list jsstring := map _id store.

End Envelope.
(* ===================================================================== *)
(** * The listings of the pages routes *)
(* ===================================================================== *)

Module Listings.
Import Js Json Store.

Section Queries.

(** [updatedAt], the date of the last write, which the schema keeps with
    every document ([timestamps: true]), in ms. *)
Variable updatedAt : Page -> nat.

(** [{ $regex: query, $options: "i" }] as the database evaluates it on a
    title. *)
Variable titleMatches : jsstring -> json -> bool.

(** [.sort({ updatedAt: -1 })].  The order of two documents of the same
    date is the driver's; here it is that of the collection. *)
Fixpoint insertByDate (p : Page) (sorted : list Page) : list Page :=
  match sorted with
  | [] => [p]
  | q :: rest =>
      if updatedAt q <? updatedAt p then p :: q :: rest
      else q :: insertByDate p rest
  end.

Definition sortByUpdatedAt (found : list Page) : list Page :=
  fold_right insertByDate [] found.

(** GET /pages: the documents found, in the order of the response.
    [select] then keeps of each the id and the fields it names. *)
Definition listPages (store : Collection) (user : jsstring) : list Page :=
  sortByUpdatedAt
    (filter (fun p => Js.eqb (userId p) user && negb (isArchived p)) store).

(** GET /pages/trash *)
Definition trashPages (store : Collection) (user : jsstring) : list Page :=
  sortByUpdatedAt
    (filter (fun p => Js.eqb (userId p) user && isArchived p) store).

(** GET /pages/search.  [q] is [c.req.query] of the parameter, [None]
    when the URL has none. *)
Definition searchPages (store : Collection) (user : jsstring) (q : option jsstring)
  : list Page :=
  let query := match q with Some s => s | None => [] end in
  if negb (truthy (trim query)) then []
  else
    firstn 20
      (sortByUpdatedAt
         (filter (fun p => Js.eqb (userId p) user && negb (isArchived p)
                           && titleMatches query (title p)) store)).

(** No document is followed by a more recent one. *)
Fixpoint newestFirst (l : list Page) : Prop :=
  match l with
  | [] => True
  | p :: rest => Forall (fun q => updatedAt q <= updatedAt p) rest /\ newestFirst rest
  end.

End Queries.

End Listings.
(* ===================================================================== *)
(** * The database connection ([lib/db/mongodb.ts]) *)
(* ===================================================================== *)

Module Connection.

(** [cached].  A promise is kept with the way it settles, [true] when it
    fulfils; calls come one after the other, each awaited. *)
Record Cache := { conn : bool; promise : option bool }.

(** The cache and the number of calls of [mongoose.connect] so far. *)
Record World := { cached : Cache; dials : nat }.

Definition fresh : World :=
  {| cached := {| conn := false; promise := None |}; dials := 0 |}.

Section Driver.

(** Whether the [n]-th call of [mongoose.connect] succeeds. *)
Variable connects : nat -> bool.

(** [connectDB]: the world after the call, and whether it returned the
    connection ([true]) or threw ([false]). *)
Definition connectDB (w : World) : World * bool :=
  if conn (cached w) then (w, true)
  else
    let (settles, dialled) :=
      match promise (cached w) with
      | Some settles => (settles, dials w)
      | None => (connects (dials w), S (dials w))
      end in
    if settles
    then ({| cached := {| conn := true; promise := Some true |}; dials := dialled |}, true)
    else ({| cached := {| conn := false; promise := None |}; dials := dialled |}, false).

(** [n] calls in a row, with what each of them did. *)
Fixpoint callsInARow (n : nat) (w : World) : World * list bool :=
  match n with
  | O => (w, [])
  | S n' =>
      let (w1, r) := connectDB w in
      let (w2, rs) := callsInARow n' w1 in
      (w2, r :: rs)
  end.

End Driver.

End Connection.

(* ===================================================================== *)
(** * The client of the routes ([hooks/usePages.ts], [hooks/useAI.ts]) *)
(* ===================================================================== *)

Module Client.
Import Js Json Prompts Store Http.

(** [response.ok] *)
Definition ok (r : Response) : bool := (200 <=? status r) && (status r <=? 299).

(** What the promise of a request settles to. *)
Inductive Settled :=
| Resolved (data : json)
| Rejected (e : Thrown).

(** Whether a value is truthy.  [None]: a number, whose truthiness is
    that of its value, which the embedding does not compute. *)
Definition toBoolean (v : json) : option bool :=
  match v with
  | JNull => Some false
  | JBool b => Some b
  | JString s => Some (truthy s)
  | JArray _ | JObject _ => Some true
  | JNumber _ => None
  end.

(** The message of [new Error(v || fallback)].  [None]: a number, an
    array or an object, whose conversion to a string is left out. *)
Definition messageOr (fallback : string) (v : option json) : option jsstring :=
  match v with
  | None | Some JNull | Some (JBool false) => Some (js fallback)
  | Some (JBool true) => Some (js "true")
  | Some (JString s) => Some (orElse s (js fallback))
  | Some (JNumber _) | Some (JArray _) | Some (JObject _) => None
  end.

(** The body shared by [fetchApi] and [callAI], once [fetch] has the
    response of the server. *)
Definition settle (fallback : string) (r : Response) : option Settled :=
  if ok r then Some (Resolved (body r))
  else
    match body r with
    | JNull => Some (Rejected nullRead)
    | data =>
        match messageOr fallback (prop data "error") with
        | Some message => Some (Rejected (ErrorWith message))
        | None => None
        end
    end.

Definition fetchApi (r : Response) : option Settled := settle "Something went wrong" r.

Definition callAI (r : Response) : option Settled := settle "AI request failed" r.

(** [res.data?.result], or the TypeError of reading [null]. *)
Definition dataResult (res : json) : Thrown + option json :=
  match res with
  | JNull => inl nullRead
  | _ =>
      match prop res "data" with
      | None | Some JNull => inr None
      | Some data => inr (prop data "result")
      end
  end.

(** [v || null] *)
Definition orNull (v : option json) : option (option json) :=
  match v with
  | None => Some None
  | Some x =>
      match toBoolean x with
      | Some true => Some (Some x)
      | Some false => Some None
      | None => None
      end
  end.

End Client.

(* ===================================================================== *)
(** * The AI actions of the page view and of the floating prompt *)
(* ===================================================================== *)

Module Assist.
Import Js Json Extractor Prompts Store Http Lifecycle PageView Client.

Inductive PanelType := SummaryPanel | ImprovePanel | TagsPanel.

(** [AIPanelState]; [result] is [None] for [null]. *)
Record AIPanelState := { type : option PanelType; result : option json }.

(** What the page shows: the panel and the error toasts, oldest first. *)
Record View := { aiPanel : AIPanelState; toasts : list jsstring }.

(** [err instanceof Error ? err.message : fallback] *)
Definition messageOf (fallback : string) (e : Thrown) : jsstring :=
  match e with
  | ErrorWith message => message
  | NotAnError => js fallback
  end.

(** The [try] and [catch] of the three actions, from the moment the
    mutation settles. *)
Definition settled (kind : PanelType) (fallback : string) (v : View) (s : Settled)
  : option View :=
  let caught e :=
    {| aiPanel := {| type := None; result := None |};
       toasts := toasts v ++ [messageOf fallback e] |} in
  match s with
  | Rejected e => Some (caught e)
  | Resolved res =>
      match dataResult res with
      | inl e => Some (caught e)
      | inr r =>
          match orNull r with
          | Some shown =>
              Some {| aiPanel := {| type := Some kind; result := shown |};
                      toasts := toasts v |}
          | None => None
          end
      end
  end.

Section Page.

(** The application, as it answers a request of this browser. *)
Variable server : App.Request -> Outcome.

Variables pageId title : jsstring.

(** What [liveBlocksRef] and [page?.content] hold. *)
Variable liveBlocksRef : list Block.
Variable pageContent : option (list Block).

(** An action: the view it leaves, and the outcome of the request it
    sent, if it sent one. *)
Definition Action := option (View * option Outcome).

Definition refuse (message : string) (v : View) : Action :=
  Some ({| aiPanel := aiPanel v; toasts := toasts v ++ [js message] |}, None).

Definition request (kind : PanelType) (fallback : string) (r : App.Request) (v : View)
  : Action :=
  let o := server r in
  match callAI (response o) with
  | Some s =>
      match settled kind fallback v s with
      | Some v' => Some (v', Some o)
      | None => None
      end
  | None => None
  end.


(** [handleImprove] *)
Definition handleImprove (v : View) : Action :=
  let text := getPlainText liveBlocksRef pageContent in
  if negb (truthy (trim text)) then refuse "Add some content first!" v
  else
    request ImprovePanel "Failed to improve"
      (App.PostImprove
         (Parsed (JObject [ (js "pageId", JString pageId);
                            (js "content", JString text) ]))) v.


(** The floating prompt: its input, whether it is open, its toasts
    (errors and successes alike, oldest first) and the blocks handed to
    [editor.insertBlocks], one list per insertion. *)
Record Floating := {
  prompt : jsstring;
  isOpen : bool;
  notices : list jsstring;
  inserted : list (list PartialBlock)
}.

(** [handleGenerate] of the floating prompt, with [onGenerated] bound to
    [insertContent] of the editor.  [isPending] is
    [generateContent.isPending].  The result is [None] when the response
    holds a number where a flag or a text is read, or a result that is
    not a string. *)
Definition handleGenerate (isPending : bool) (f : Floating)
  : option (Floating * option Outcome) :=
  if negb (truthy (trim (prompt f))) || isPending then Some (f, None)
  else
    let o :=
      server
        (App.PostGenerate
           (Parsed (JObject [ (js "pageId", JString pageId);
                              (js "title", JString title);
                              (js "content",
                               JString (getPlainText liveBlocksRef pageContent));
                              (js "prompt", JString (trim (prompt f))) ]))) in
    let caught e :=
      Some ({| prompt := prompt f; isOpen := isOpen f;
               notices := notices f ++ [messageOf "Failed to generate content" e];
               inserted := inserted f |}, Some o) in
    match callAI (response o) with
    | None => None
    | Some (Rejected e) => caught e
    | Some (Resolved JNull) => caught nullRead
    | Some (Resolved res) =>
        match prop res "success" with
        | None => Some (f, Some o)
        | Some flag =>
            match toBoolean flag with
            | None => None
            | Some false => Some (f, Some o)
            | Some true =>
                match dataResult res with
                | inl e => caught e
                | inr r =>
                    match orNull r with
                    | None => None
                    | Some None => Some (f, Some o)
                    | Some (Some (JString generated)) =>
                        Some ({| prompt := []; isOpen := false;
                                 notices := notices f ++ [js "Content generated!"];
                                 inserted := inserted f ++ [blocksToInsert generated] |},
                              Some o)
                    | Some (Some _) => None
                    end
                end
            end
        end
    end.

End Page.

End Assist.

(* ===================================================================== *)
(** * The forms ([lib/validations/auth.schema.ts]) *)
(* ===================================================================== *)

Module Validations.
Import Js.

Section Schemas.

(** The check of [z.string().email()]. *)
Variable isEmail : jsstring -> bool.

(** [min(n)] and [max(n)] of a string schema. *)
Definition min (n : nat) (s : jsstring) : bool := n <=? List.length s.
Definition max (n : nat) (s : jsstring) : bool := List.length s <=? n.

(** Whether [loginSchema] accepts the data. *)
Definition loginSchema (email password : jsstring) : bool :=
  (min 1 email && isEmail email) && (min 1 password && min 6 password).

(** Whether [registerSchema] accepts the data. *)
Definition registerSchema (name email password confirmPassword : jsstring) : bool :=
  (min 1 name && min 2 name && max 50 name)
  && (min 1 email && isEmail email)
  && (min 6 password && max 128 password)
  && min 1 confirmPassword
  && Js.eqb password confirmPassword.

End Schemas.

End Validations.

(* ===================================================================== *)
(** * Properties *)
(* ===================================================================== *)

Unset Implicit Arguments.

Import Js Regex Json Extractor Prompts Store Http Samples.

(** ** Strings *)

Lemma dropWhile_nil_iff (p : char16 -> bool) (s : jsstring) :
  dropWhile p s = [] <-> forallb p s = true.
Proof.
  induction s as [|c t IH]; simpl.
  - tauto.
  - destruct (p c); simpl; [exact IH | split; discriminate].
Qed.

Lemma dropWhile_length (p : char16 -> bool) (s : jsstring) :
  List.length (dropWhile p s) <= List.length s.
Proof.
  induction s as [|c t IH]; simpl; [lia|].
  destruct (p c); simpl; lia.
Qed.

(** [trim] leaves something exactly when the string has a code unit that
    is not whitespace. *)
Lemma trim_truthy (s : jsstring) : truthy (trim s) = hasNonWhitespace s.
Proof.
  unfold trim, trimEnd, trimStart, hasNonWhitespace.
  destruct (forallb isWhiteSpace s) eqn:All.
  - assert (E : dropWhile isWhiteSpace s = []) by (apply dropWhile_nil_iff; exact All).
    rewrite E. simpl.
    symmetry. apply not_true_is_false. intros Hex.
    apply existsb_exists in Hex. destruct Hex as [c [Hin Hc]].
    rewrite forallb_forall in All. rewrite (All c Hin) in Hc. discriminate.
  - assert (Hex : existsb (fun c => negb (isWhiteSpace c)) s = true).
    { clear -All. induction s as [|c t IH]; simpl in *; [discriminate|].
      destruct (isWhiteSpace c); simpl in *; auto. }
    rewrite Hex.
    destruct (dropWhile isWhiteSpace s) as [|c t] eqn:E.
    + apply dropWhile_nil_iff in E. congruence.
    + assert (Hc : isWhiteSpace c = false).
      { clear -E. induction s as [|x u IH]; simpl in E; [discriminate|].
        destruct (isWhiteSpace x) eqn:Hx; [auto|]. injection E as -> _. exact Hx. }
      destruct (dropWhile isWhiteSpace (rev (c :: t))) as [|y u] eqn:E2.
      * apply dropWhile_nil_iff in E2. rewrite forallb_forall in E2.
        assert (Hin : In c (rev (c :: t))) by (apply in_rev; rewrite rev_involutive; left; reflexivity).
        rewrite (E2 c Hin) in Hc. discriminate.
      * destruct (rev (y :: u)) eqn:E3; [|reflexivity].
        apply (f_equal (@rev _)) in E3. rewrite rev_involutive in E3. discriminate.
Qed.

(** ** The models at work *)

Example trim_example : trim (text "  a b |") = js "a b".
Proof. reflexivity. Qed.

Example parse_array :
  parse (text "[ 'a', 1.5e3, true, null, {'k': []} ]")
  = Some (JArray [ JString (js "a"); JNumber (js "1.5e3"); JBool true; JNull;
                   JObject [ (js "k", JArray []) ] ]).
Proof. reflexivity. Qed.

Example parse_escapes : parse (text "'\u0041\n'") = Some (JString [65%N; LF]).
Proof. reflexivity. Qed.

Example parse_rejects :
  map parse [ text "[1,]"; text "[01]"; text "[[1]"; text "['a' 'b']"; text "[1] x" ]
  = [None; None; None; None; None].
Proof. reflexivity. Qed.

Example exec_lazy :
  exec AiRoutes.jsonArrayPattern (text "see [[x] y] z") = Some (js "[[x]").
Proof. reflexivity. Qed.

Example replaceAll_fenced :
  replaceAll AiRoutes.fencePattern [] (js "ab```cd```ef```gh") = js "abef```gh".
Proof. reflexivity. Qed.

Example split_runs :
  split AiRoutes.separatorPattern (text ",a,|b,") = [ []; js "a"; js "b"; [] ].
Proof. reflexivity. Qed.

(** ** The matcher *)

Lemma suffixOf_refl (s : jsstring) : suffixOf s s.
Proof. exists []. reflexivity. Qed.

Lemma suffixOf_cons (c : char16) (rest s : jsstring) :
  suffixOf rest s -> suffixOf rest (c :: s).
Proof. intros [m ->]. exists (c :: m). reflexivity. Qed.

Lemma suffixOf_skipn (rest s : jsstring) :
  suffixOf rest s -> skipn (List.length s - List.length rest) s = rest.
Proof.
  intros [m ->]. rewrite length_app.
  replace (List.length m + List.length rest - List.length rest) with (List.length m + 0) by lia.
  rewrite skipn_app, Nat.add_0_r, skipn_all. simpl.
  replace (List.length m - List.length m) with 0 by lia. reflexivity.
Qed.

Lemma starLoop_suffix (g : greed)
      (once : jsstring -> (jsstring -> option jsstring) -> option jsstring)
      (k : jsstring -> option jsstring) :
  (forall s k' rest, returnsSuffix k' -> once s k' = Some rest -> suffixOf rest s) ->
  returnsSuffix k ->
  forall fuel, returnsSuffix (starLoop g once k fuel).
Proof.
  intros Honce Hk. induction fuel as [|fuel IH]; intros s rest H.
  - exact (Hk _ _ H).
  - cbn [starLoop] in H. cbv zeta in H.
    assert (Hmore : forall rest',
               once s (fun t => if List.length t <? List.length s
                                then starLoop g once k fuel t else None) = Some rest' ->
               suffixOf rest' s).
    { intros rest'. apply Honce. intros u v Huv.
      destruct (List.length u <? List.length s); [|discriminate].
      exact (IH _ _ Huv). }
    destruct g.
    + destruct (once s _) as [x|] eqn:E.
      * injection H as <-. apply Hmore. reflexivity.
      * exact (Hk _ _ H).
    + destruct (k s) as [x|] eqn:E.
      * injection H as <-. exact (Hk _ _ E).
      * apply Hmore. exact H.
Qed.

Lemma rmatch_suffix (r : regex) :
  forall s k rest, returnsSuffix k -> rmatch r s k = Some rest -> suffixOf rest s.
Proof.
  induction r as [p|a IHa b IHb|g a IHa]; intros s k rest Hk H; cbn [rmatch] in H.
  - destruct s as [|c t]; [discriminate|]. destruct (p c); [|discriminate].
    apply suffixOf_cons. exact (Hk _ _ H).
  - apply (IHa s (fun t => rmatch b t k) rest); [|exact H].
    intros u v Huv. exact (IHb u k v Hk Huv).
  - exact (starLoop_suffix g (rmatch a) k IHa Hk (List.length s) s rest H).
Qed.

Lemma rmatch_Seq (a b : regex) (s : jsstring) (k : jsstring -> option jsstring) :
  rmatch (Seq a b) s k = rmatch a s (fun t => rmatch b t k).
Proof. reflexivity. Qed.

Lemma rmatch_Class (p : char16 -> bool) (c : char16) (t : jsstring)
      (k : jsstring -> option jsstring) :
  rmatch (Class p) (c :: t) k = if p c then k t else None.
Proof. reflexivity. Qed.

Lemma Some_returnsSuffix : returnsSuffix Some.
Proof. intros u v H. injection H as <-. apply suffixOf_refl. Qed.

(** A greedy star over a class, before a continuation that cannot fail,
    takes the longest run. *)
Lemma starLoop_greedy_class (p : char16 -> bool) (k : jsstring -> option jsstring) :
  (forall t, k t <> None) ->
  forall fuel s, List.length s <= fuel ->
    starLoop Greedy (rmatch (Class p)) k fuel s = k (dropWhile p s).
Proof.
  intros Hk. induction fuel as [|fuel IH]; intros s Hlen.
  - destruct s; [reflexivity | simpl in Hlen; lia].
  - cbn [starLoop rmatch]. cbv zeta. destruct s as [|c t]; [reflexivity|].
    cbn [dropWhile]. destruct (p c); [|reflexivity].
    assert (Hlt : (List.length t <? List.length (c :: t)) = true)
      by (apply Nat.ltb_lt; simpl; lia).
    rewrite Hlt. rewrite IH by (simpl in Hlen; lia).
    destruct (k (dropWhile p t)) eqn:E; [reflexivity|]. exfalso. exact (Hk _ E).
Qed.

Lemma rmatch_greedy_class (p : char16 -> bool) (k : jsstring -> option jsstring)
      (s : jsstring) :
  (forall t, k t <> None) ->
  rmatch (Star Greedy (Class p)) s k = k (dropWhile p s).
Proof. intros Hk. cbn [rmatch]. apply starLoop_greedy_class; [exact Hk | lia]. Qed.

Lemma anyChar_true (c : char16) : isWhiteSpace c || negb (isWhiteSpace c) = true.
Proof. apply orb_negb_r. Qed.

(** A lazy star over any code unit tries the continuation on each suffix
    in turn. *)
Lemma starLoop_lazy_any (k : jsstring -> option jsstring) :
  forall fuel s, List.length s <= fuel ->
    starLoop Lazy (rmatch anyChar) k fuel s = firstSuffix k s.
Proof.
  induction fuel as [|fuel IH]; intros s Hlen.
  - destruct s; [|simpl in Hlen; lia]. cbn. destruct (k []); reflexivity.
  - cbn [starLoop]. cbv zeta. destruct s as [|c t].
    + cbn. destruct (k []); reflexivity.
    + cbn [firstSuffix]. destruct (k (c :: t)); [reflexivity|].
      unfold anyChar. cbn [rmatch]. rewrite anyChar_true.
      assert (Hlt : (List.length t <? List.length (c :: t)) = true)
        by (apply Nat.ltb_lt; simpl; lia).
      rewrite Hlt. apply IH. simpl in Hlen. lia.
Qed.

Lemma rmatch_lazy_any (k : jsstring -> option jsstring) (s : jsstring) :
  rmatch (Star Lazy anyChar) s k = firstSuffix k s.
Proof. cbn [rmatch]. apply starLoop_lazy_any. lia. Qed.

(** ** Replacing and splitting, one match at a time *)

Lemma replace_from_skip (r : regex) (repl : jsstring) :
  forall s k, replace_from r repl k s = replace_from r repl 0 (skipn k s).
Proof.
  induction s as [|c t IH]; intros k.
  - destruct k; reflexivity.
  - destruct k as [|k]; [reflexivity|]. cbn [replace_from skipn]. apply IH.
Qed.

Lemma split_from_skip (r : regex) :
  forall s k cur, split_from r k cur s = split_from r 0 cur (skipn k s).
Proof.
  induction s as [|c t IH]; intros k cur.
  - destruct k; reflexivity.
  - destruct k as [|k]; [reflexivity|]. cbn [split_from skipn]. apply IH.
Qed.

Lemma match_at_rest (r : regex) (c : char16) (t rest : jsstring) :
  rmatch r (c :: t) Some = Some rest ->
  List.length rest < List.length (c :: t) ->
  exists n, match_at r (c :: t) = Some (S n) /\ skipn n t = rest.
Proof.
  intros H Hlt. unfold match_at. rewrite H.
  pose proof (rmatch_suffix r _ Some rest Some_returnsSuffix H) as Hsuf.
  pose proof (suffixOf_skipn _ _ Hsuf) as Hskip.
  destruct (List.length (c :: t) - List.length rest) as [|n] eqn:E; [lia|].
  exists n. split; [reflexivity|]. exact Hskip.
Qed.

(** One step of a global replacement, in terms of what the match leaves. *)
Lemma replaceAll_step (r : regex) (repl : jsstring) (c : char16) (t : jsstring) :
  replaceAll r repl (c :: t) =
  match rmatch r (c :: t) Some with
  | Some rest =>
      if List.length rest <? List.length (c :: t)
      then repl ++ replaceAll r repl rest
      else c :: replaceAll r repl t
  | None => c :: replaceAll r repl t
  end.
Proof.
  unfold replaceAll. cbn [replace_from].
  destruct (rmatch r (c :: t) Some) as [rest|] eqn:E.
  - destruct (List.length rest <? List.length (c :: t)) eqn:Hlt.
    + apply Nat.ltb_lt in Hlt. destruct (match_at_rest r c t rest E Hlt) as [n [-> Hn]].
      rewrite replace_from_skip, Hn. reflexivity.
    + apply Nat.ltb_ge in Hlt. unfold match_at. rewrite E.
      replace (List.length (c :: t) - List.length rest) with 0 by lia. reflexivity.
  - unfold match_at. rewrite E. reflexivity.
Qed.

Lemma split_from_step (r : regex) (cur : jsstring) (c : char16) (t : jsstring) :
  split_from r 0 cur (c :: t) =
  match rmatch r (c :: t) Some with
  | Some rest =>
      if List.length rest <? List.length (c :: t)
      then rev cur :: split_from r 0 [] rest
      else split_from r 0 (c :: cur) t
  | None => split_from r 0 (c :: cur) t
  end.
Proof.
  cbn [split_from].
  destruct (rmatch r (c :: t) Some) as [rest|] eqn:E.
  - destruct (List.length rest <? List.length (c :: t)) eqn:Hlt.
    + apply Nat.ltb_lt in Hlt. destruct (match_at_rest r c t rest E Hlt) as [n [-> Hn]].
      rewrite split_from_skip, Hn. reflexivity.
    + apply Nat.ltb_ge in Hlt. unfold match_at. rewrite E.
      replace (List.length (c :: t) - List.length rest) with 0 by lia. reflexivity.
  - unfold match_at. rewrite E. reflexivity.
Qed.

(** ** The AI routes *)

Import AiRoutes Reading Samples.

(** C2, as worded, fails: a content of twelve letters separated by blanks
    has fewer than 20 non-whitespace characters, yet its trimmed length is
    23, the provider is called and the summary is stored. *)
Lemma summarize_gate_as_stated_fails : ~ SummarizeGateAsStated.
Proof.
  intros H.
  specialize (H (answering (js "Twelve letters.")) []
                [ (js "pageId", JString (js "p1"));
                  (js "content", JString (js "a b c d e f g h i j k l")) ]).
  assert (Hlt : nonWhitespaceLength
                  (contentOf [ (js "pageId", JString (js "p1"));
                               (js "content", JString (js "a b c d e f g h i j k l")) ]) < 20)
    by (vm_compute; lia).
  specialize (H Hlt). destruct H as [Hstatus _].
  vm_compute in Hstatus. discriminate.
Qed.

(** C2 (amended): a summarize request whose content, trimmed of leading
    and trailing whitespace, is shorter than 20 code units is answered with
    status 400; no completion request is issued and the collection is left
    as it was. *)
Theorem summarize_rejects_short_content :
  forall (openai : Provider) (store : Collection) members,
    List.length (trim (contentOf members)) < 20 ->
    let o := summarize openai store (Parsed (JObject members)) in
    status (response o) = 400 /\ calls o = [] /\ db o = store.
Proof.
  intros openai store members Hshort. unfold contentOf in Hshort.
  cbv zeta. unfold summarize. cbv zeta. cbn [prop].
  destruct (negb (truthy (stringOr [] (lookup (js "pageId") members)))
            || negb (truthy (stringOr [] (lookup (js "content") members)))).
  - repeat split.
  - apply Nat.ltb_lt in Hshort. rewrite Hshort. repeat split.
Qed.

(** The content of section 8, item 8. *)
Lemma summarize_rejects_short_content_witness :
  let o := summarize (answering (js "never asked")) []
             (Parsed (object [ ("pageId"%string, JString (js "p1"));
                               ("content"%string, JString (js "short")) ])) in
  status (response o) = 400 /\ calls o = [] /\ db o = [].
Proof.
  apply (summarize_rejects_short_content (answering (js "never asked")) []
           [ (js "pageId", JString (js "p1")); (js "content", JString (js "short")) ]).
  vm_compute. lia.
Defined.

Lemma improve_db (openai : Provider) (store : Collection) (req : ReqBody) :
  db (improve openai store req) = store.
Proof.
  unfold improve. destruct req as [e|[]]; try reflexivity; cbv zeta;
    (match goal with |- context [if ?c then _ else _] => destruct c end;
     [reflexivity|];
     match goal with |- context [openai ?r] => destruct (openai r) end;
     [reflexivity|];
     match goal with |- context [if ?c then _ else _] => destruct c end;
     reflexivity).
Qed.

Lemma generate_db (openai : Provider) (store : Collection) (req : ReqBody) :
  db (generate openai store req) = store.
Proof.
  unfold generate. destruct req as [e|[]]; try reflexivity; cbv zeta;
    (match goal with |- context [if ?c then _ else _] => destruct c end;
     [reflexivity|];
     match goal with |- context [openai ?r] => destruct (openai r) end;
     [reflexivity|];
     match goal with |- context [if ?c then _ else _] => destruct c end;
     reflexivity).
Qed.

(** C8: whatever the request and the provider's answer, POST /ai/improve
    and POST /ai/generate leave every stored document as it was; their
    result only travels in the response. *)
Theorem improve_and_generate_do_not_persist :
  forall (toLowerCase : jsstring -> jsstring) (openai : Provider)
         (store : Collection) (session : option jsstring) (req : ReqBody),
    db (App.handle toLowerCase openai store session (App.PostImprove req)) = store
    /\ db (App.handle toLowerCase openai store session (App.PostGenerate req)) = store.
Proof.
  intros lower openai store session req.
  destruct session as [user|]; [|split; reflexivity].
  cbn [App.handle]. split; [apply improve_db | apply generate_db].
Qed.

Lemma failure_inj (code code' : nat) (m m' : string) :
  failure code m = failure code' m' -> code = code' /\ js m = js m'.
Proof. unfold failure. intros H. injection H as H1 H2. split; assumption. Qed.

(** C6: when the model's output is non-empty and neither strategy finds a
    tag in it, POST /ai/tags answers 500 with the message "AI could not
    generate tags"; this is an error response, it is neither of the
    responses given to a provider failure nor the one given to an empty
    completion, and the collection is left as it was. *)
Theorem tags_fail_when_nothing_parses :
  forall (toLowerCase : jsstring -> jsstring) (openai : Provider)
         (store : Collection) members (output : jsstring),
    let pageId := stringOr [] (lookup (js "pageId") members) in
    let title := stringOr (js "Untitled") (lookup (js "title") members) in
    pageId <> [] -> contentOf members <> [] ->
    10 <= List.length (trim (contentOf members)) ->
    openai (tagsRequest title (contentOf members)) = Replied (Some output) ->
    trim output <> [] ->
    structuredTags (trim output) = [] ->
    heuristicTags toLowerCase (trim output) = [] ->
    let o := AiRoutes.tags toLowerCase openai store (Parsed (JObject members)) in
    response o = failure 500 "AI could not generate tags"
    /\ prop (body (response o)) "success" = Some (JBool false)
    /\ (forall e, response o <> onError "Failed to generate tags" e)
    /\ response o <> failure 500 "AI returned empty response"
    /\ db o = store.
Proof.
  intros lower openai store members output pageId title Hid Hcontent Hlen Hreply
         Hnonempty Hstructured Hheuristic.
  assert (R : tags lower openai store (Parsed (JObject members))
              = {| response := failure 500 "AI could not generate tags";
                   db := store;
                   calls := [tagsRequest title (contentOf members)] |}).
  { unfold tags. cbv zeta. cbn [prop].
    fold pageId. fold title. fold (contentOf members).
    destruct pageId as [|c0 p0]; [congruence|].
    destruct (contentOf members) as [|c1 p1] eqn:Ec; [congruence|].
    cbn [truthy negb orb].
    apply Nat.ltb_ge in Hlen. rewrite Hlen.
    rewrite Hreply. cbn [trimmedOrEmpty].
    destruct (trim output) as [|c2 p2] eqn:Et; [congruence|].
    cbn [truthy negb].
    unfold parseTags. rewrite Hstructured. cbn [List.length Nat.eqb].
    rewrite Hheuristic. reflexivity. }
  cbv zeta. rewrite R. cbn [response db].
  split; [reflexivity|]. split; [reflexivity|]. split; [|split; [|reflexivity]].
  - intros e H. unfold onError in H.
    destruct e as [m|]; [destruct (includes (js "rate limit") m)|];
      symmetry in H; apply failure_inj in H; destruct H as [H1 H2];
      vm_compute in H1; vm_compute in H2; discriminate.
  - intros H. apply failure_inj in H. destruct H as [_ H2].
    vm_compute in H2. discriminate.
Qed.

(** A lone question mark is no tag. *)
Lemma tags_fail_when_nothing_parses_witness :
  let o := AiRoutes.tags toLowerCaseLatin1 (answering (js " ? ")) [blankPage "p1" "ann" false false]
             (Parsed (object [ ("pageId"%string, JString (js "p1"));
                               ("content"%string, JString (js "Notes about hooks")) ])) in
  response o = failure 500 "AI could not generate tags"
  /\ prop (body (response o)) "success" = Some (JBool false)
  /\ (forall e, response o <> onError "Failed to generate tags" e)
  /\ response o <> failure 500 "AI returned empty response"
  /\ db o = [blankPage "p1" "ann" false false].
Proof.
  apply (tags_fail_when_nothing_parses toLowerCaseLatin1 (answering (js " ? "))
           [blankPage "p1" "ann" false false]
           [ (js "pageId", JString (js "p1"));
             (js "content", JString (js "Notes about hooks")) ] (js " ? ")).
  - vm_compute. discriminate.
  - vm_compute. discriminate.
  - vm_compute. lia.
  - reflexivity.
  - vm_compute. discriminate.
  - vm_compute. reflexivity.
  - vm_compute. reflexivity.
Defined.

(** C10: POST /ai/improve validates the length of, and sends to the model,
    the selection when the selection is a non-empty string (be it all
    whitespace) and the full content when the selection is absent, not a
    string or empty.  A text shorter than 5 code units after trimming is
    refused without a call; otherwise exactly one request is issued, whose
    user message carries that text. *)
Theorem improve_targets_selection_or_content :
  forall (openai : Provider) (store : Collection) members,
    let o := improve openai store (Parsed (JObject members)) in
    let text := improvedText members in
    (List.length (trim text) < 5 ->
       response o = failure 400 "Please provide more text to improve."
       /\ calls o = [])
    /\
    (5 <= List.length (trim text) ->
       exists instructions request,
         calls o = [request]
         /\ messages request =
              [ {| role := system; Prompts.content := instructions |};
                {| role := user;
                   Prompts.content := js "Please improve this text:" ++ [LF; LF] ++ text |} ]).
Proof.
  intros openai store members. cbv zeta.
  unfold improve, improvedText, contentOf. cbv zeta. cbn [prop].
  set (content := stringOr [] (lookup (js "content") members)).
  set (selection := match lookup (js "selection") members with
                    | Some (JString s) => Some s
                    | _ => None
                    end).
  set (text := match lookup (js "selection") members with
               | Some (JString (c :: s)) => c :: s
               | _ => content
               end).
  assert (Htext : match selection with
                  | Some sel => orElse sel content
                  | None => content
                  end = text).
  { unfold selection, text, orElse.
    destruct (lookup (js "selection") members) as [[| | |[|c s]| |]|]; reflexivity. }
  rewrite Htext. split.
  - intros Hshort. apply Nat.ltb_lt in Hshort. rewrite Hshort. split; reflexivity.
  - intros Hlong. apply Nat.ltb_ge in Hlong. rewrite Hlong.
    assert (Hmsg : exists instructions,
               messages (improveRequest content selection) =
               [ {| role := system; Prompts.content := instructions |};
                 {| role := user;
                    Prompts.content := js "Please improve this text:" ++ [LF; LF] ++ text |} ]).
    { unfold improveRequest, getImprovePrompt. cbn [messages]. rewrite Htext.
      eexists. reflexivity. }
    destruct Hmsg as [instructions Hmsg].
    exists instructions, (improveRequest content selection).
    split; [|exact Hmsg].
    destruct (openai (improveRequest content selection)); [reflexivity|].
    destruct (negb (truthy (trimmedOrEmpty text0))); reflexivity.
Qed.

(** A selection of three blanks is the text that is validated, and refused. *)
Lemma improve_targets_selection_or_content_witness :
  let o := improve (answering (js "never asked")) []
             (Parsed (object [ ("content"%string, JString (js "A note that is long enough."));
                               ("selection"%string, JString (js "   ")) ])) in
  response o = failure 400 "Please provide more text to improve." /\ calls o = [].
Proof.
  apply (improve_targets_selection_or_content (answering (js "never asked")) []
           [ (js "content", JString (js "A note that is long enough."));
             (js "selection", JString (js "   ")) ]).
  vm_compute. lia.
Defined.

(** ** The pages routes and the ownership of documents *)

Import PagesRoutes.

Lemma findOneAndUpdate_none (filter : Page -> bool) (update : Page -> Page)
      (store : Collection) :
  findOne filter store = None -> findOneAndUpdate filter update store = None.
Proof.
  unfold findOne. induction store as [|p rest IH]; simpl; [reflexivity|].
  destruct (filter p); [discriminate|]. intros H. rewrite (IH H). reflexivity.
Qed.

Lemma findOneAndDelete_none (filter : Page -> bool) (store : Collection) :
  findOne filter store = None -> findOneAndDelete filter store = None.
Proof.
  unfold findOne. induction store as [|p rest IH]; simpl; [reflexivity|].
  destruct (filter p); [discriminate|]. intros H. rewrite (IH H). reflexivity.
Qed.

(** A caller who owns no document with the given id, whether the id is
    unknown or belongs to someone else, gets from the pages routes the
    answer given for an unknown id, and the collection is left as it was.
    (PATCH answers 400 or 500 to a body it cannot use, whoever asks.) *)
Lemma pages_routes_hide_foreign_documents (store : Collection) (user pageId : jsstring) :
  findOne (ownedBy pageId user) store = None ->
  getPage store user pageId = quiet notFound store
  /\ toggleFavorite store user pageId = quiet notFound store
  /\ toggleArchive store user pageId = quiet notFound store
  /\ deletePage store user pageId = quiet notFound store
  /\ (forall req,
        db (updatePage store user pageId req) = store
        /\ (response (updatePage store user pageId req) = notFound
            \/ response (updatePage store user pageId req)
               = failure 400 "No valid fields to update"
            \/ response (updatePage store user pageId req)
               = failure 500 "Failed to update page")).
Proof.
  intros Hnone.
  split; [unfold getPage; rewrite Hnone; reflexivity|].
  split; [unfold toggleFavorite; rewrite findOneAndUpdate_none by exact Hnone; reflexivity|].
  split; [unfold toggleArchive; rewrite findOneAndUpdate_none by exact Hnone; reflexivity|].
  split; [unfold deletePage; rewrite findOneAndDelete_none by exact Hnone; reflexivity|].
  intros req. unfold updatePage.
  destruct req as [e|[]]; cbv zeta; cbn [quiet db response]; auto.
  destruct (List.length (validatedData members) =? 0); cbn [quiet db response]; auto.
  rewrite findOneAndUpdate_none by exact Hnone. cbn [quiet db response]. auto.
Qed.

(** C1 (the code departs from it): POST /ai/summarize finds the document
    by id alone.  A signed-in user who does not own page [p1] is told by
    GET /pages/p1 that there is no such page, yet the summarize request
    answers 200 and overwrites the summary of that page. *)
Theorem summarize_overwrites_a_foreign_document :
  let page := blankPage "p1" "ann" false false in
  let store := [page] in
  let intruder := Some (js "bob") in
  let openai := answering (js "Not the owner's words.") in
  let seen := App.handle toLowerCaseLatin1 openai store intruder (App.GetPage (js "p1")) in
  let o := App.handle toLowerCaseLatin1 openai store intruder
             (App.PostSummarize
                (Parsed (object [ ("pageId"%string, JString (js "p1"));
                                  ("content"%string,
                                   JString (js "Some text of more than twenty characters.")) ]))) in
  response seen = notFound
  /\ status (response o) = 200
  /\ db o = [setField "summary" (JString (js "Not the owner's words.")) page]
  /\ db o <> store.
Proof.
  cbv zeta. split; [reflexivity|]. split; [reflexivity|].
  split; [vm_compute; reflexivity|]. vm_compute. discriminate.
Qed.

(** POST /ai/tags does the same with the tags of the page. *)
Lemma tags_overwrite_a_foreign_document :
  let page := blankPage "p1" "ann" false false in
  let o := App.handle toLowerCaseLatin1 (answering (text "['x-files']")) [page]
             (Some (js "bob"))
             (App.PostTags
                (Parsed (object [ ("pageId"%string, JString (js "p1"));
                                  ("content"%string, JString (js "Some text.")) ]))) in
  status (response o) = 200
  /\ db o = [setField "tags" (JArray [JString (js "x-files")]) page].
Proof. cbv zeta. split; vm_compute; reflexivity. Qed.

(** ** The favorite and archived flags *)

Lemma findOneAndUpdate_found (filter : Page -> bool) (update : Page -> Page)
      (store : Collection) (p : Page) :
  findOne filter store = Some p ->
  exists store',
    findOneAndUpdate filter update store = Some (update p, store')
    /\ (filter (update p) = true -> findOne filter store' = Some (update p)).
Proof.
  unfold findOne. induction store as [|q rest IH]; simpl; [discriminate|].
  destruct (filter q) eqn:Hq.
  - intros H. injection H as ->. exists (update p :: rest). split; [reflexivity|].
    intros Hf. simpl. rewrite Hf. reflexivity.
  - intros H. destruct (IH H) as [rest' [E F]]. rewrite E.
    exists (q :: rest'). split; [reflexivity|].
    intros Hf. simpl. rewrite Hq. exact (F Hf).
Qed.

Lemma findOneAndUpdate_Forall (P : Page -> Prop) (filter : Page -> bool)
      (update : Page -> Page) (store store' : Collection) (q : Page) :
  (forall p, P p -> P (update p)) ->
  Forall P store ->
  findOneAndUpdate filter update store = Some (q, store') ->
  Forall P store'.
Proof.
  intros Hupd. revert store' q.
  induction store as [|p rest IH]; simpl; intros store' q Hall H; [discriminate|].
  inversion Hall as [|? ? Hp Hrest]; subst.
  destruct (filter p).
  - injection H as _ <-. constructor; auto.
  - destruct (findOneAndUpdate filter update rest) as [[q' rest']|] eqn:E; [|discriminate].
    injection H as _ <-. constructor; [exact Hp|]. eapply IH; eauto.
Qed.

Lemma findOneAndDelete_Forall (P : Page -> Prop) (filter : Page -> bool)
      (store store' : Collection) (q : Page) :
  Forall P store ->
  findOneAndDelete filter store = Some (q, store') ->
  Forall P store'.
Proof.
  revert store' q.
  induction store as [|p rest IH]; simpl; intros store' q Hall H; [discriminate|].
  inversion Hall as [|? ? Hp Hrest]; subst.
  destruct (filter p).
  - injection H as _ <-. exact Hrest.
  - destruct (findOneAndDelete filter rest) as [[q' rest']|] eqn:E; [|discriminate].
    injection H as _ <-. constructor; [exact Hp|]. eapply IH; eauto.
Qed.

Lemma findByIdAndUpdate_Forall (P : Page -> Prop) (pageId : jsstring)
      (update : Page -> Page) (store : Collection) :
  (forall p, P p -> P (update p)) ->
  Forall P store -> Forall P (findByIdAndUpdate pageId update store).
Proof.
  intros Hupd Hall. unfold findByIdAndUpdate.
  destruct (findOneAndUpdate (hasId pageId) update store) as [[q store']|] eqn:E;
    [|exact Hall].
  eapply findOneAndUpdate_Forall; eauto.
Qed.

(** [$set] of an allow-listed field touches neither flag, nor the id, nor
    the owner. *)
Lemma setField_frame (key : string) (v : json) (p : Page) :
  isFavorite (setField key v p) = isFavorite p
  /\ isArchived (setField key v p) = isArchived p
  /\ _id (setField key v p) = _id p
  /\ userId (setField key v p) = userId p.
Proof.
  unfold setField.
  repeat match goal with |- context [if ?c then _ else _] => destruct c end;
    repeat split; reflexivity.
Qed.

Lemma setField_exclusive (key : string) (v : json) (p : Page) :
  exclusive p -> exclusive (setField key v p).
Proof.
  unfold exclusive. destruct (setField_frame key v p) as [F [A _]].
  rewrite F, A. auto.
Qed.

Lemma applySet_exclusive (data : list (string * json)) (p : Page) :
  exclusive p -> exclusive (applySet data p).
Proof.
  unfold applySet. revert p.
  induction data as [|[k v] rest IH]; simpl; intros p Hp; [exact Hp|].
  apply IH. apply setField_exclusive. exact Hp.
Qed.

Lemma createPage_db (store : Collection) (user : jsstring) (req : ReqBody)
      (newId : jsstring) :
  db (createPage store user req newId) = store
  \/ exists page,
       db (createPage store user req newId) = store ++ [page]
       /\ isFavorite page = false /\ isArchived page = false.
Proof.
  unfold createPage. destruct req as [e|[]]; try (left; reflexivity);
    right; eexists; cbv zeta; cbn [quiet db]; repeat split.
Qed.

Lemma summarize_db (openai : Provider) (store : Collection) (req : ReqBody) :
  db (summarize openai store req) = store
  \/ exists pageId v,
       db (summarize openai store req)
       = findByIdAndUpdate pageId (setField "summary" v) store.
Proof.
  unfold summarize.
  destruct req as [e|[]]; cbv zeta; try (left; reflexivity);
    (match goal with |- context [if ?c then _ else _] => destruct c end;
     [left; reflexivity|];
     match goal with |- context [if ?c then _ else _] => destruct c end;
     [left; reflexivity|];
     match goal with |- context [openai ?r] => destruct (openai r) end;
     [left; reflexivity|];
     match goal with |- context [if ?c then _ else _] => destruct c end;
     [left; reflexivity|];
     right; eexists; eexists; reflexivity).
Qed.

Lemma tags_db (toLowerCase : jsstring -> jsstring) (openai : Provider)
      (store : Collection) (req : ReqBody) :
  db (tags toLowerCase openai store req) = store
  \/ exists pageId v,
       db (tags toLowerCase openai store req)
       = findByIdAndUpdate pageId (setField "tags" v) store.
Proof.
  unfold tags.
  destruct req as [e|[]]; cbv zeta; try (left; reflexivity);
    (match goal with |- context [if ?c then _ else _] => destruct c end;
     [left; reflexivity|];
     match goal with |- context [if ?c then _ else _] => destruct c end;
     [left; reflexivity|];
     match goal with |- context [openai ?r] => destruct (openai r) end;
     [left; reflexivity|];
     match goal with |- context [if ?c then _ else _] => destruct c end;
     [left; reflexivity|];
     match goal with |- context [if ?c then _ else _] => destruct c end;
     [left; reflexivity|];
     right; eexists; eexists; reflexivity).
Qed.

(** The part of the invariant the handlers keep: toggling archive on a
    page that is not archived stores it as archived and not favorite and
    answers [isArchived: true]; toggling it again stores it as neither
    archived nor favorite, so the favorite flag is not restored.  Every
    request other than the favorite toggle keeps a collection free of
    pages that are both archived and favorite. *)
Lemma archive_clears_favorite_and_keeps_exclusion :
  (forall (store : Collection) (user pageId : jsstring) (p : Page),
      findOne (ownedBy pageId user) store = Some p ->
      isArchived p = false ->
      let o1 := toggleArchive store user pageId in
      let o2 := toggleArchive (db o1) user pageId in
      response o1 = success (JObject [ (js "isArchived", JBool true) ])
      /\ findOne (ownedBy pageId user) (db o1) = Some (setFlags false true p)
      /\ response o2 = success (JObject [ (js "isArchived", JBool false) ])
      /\ findOne (ownedBy pageId user) (db o2) = Some (setFlags false false p))
  /\
  (forall (toLowerCase : jsstring -> jsstring) (openai : Provider)
          (store : Collection) (session : option jsstring) (r : App.Request),
      (forall pageId, r <> App.PatchFavorite pageId) ->
      Forall exclusive store ->
      Forall exclusive (db (App.handle toLowerCase openai store session r))).
Proof.
  split.
  - intros store user pageId p Hfind Hnot. cbv zeta.
    assert (Hown : ownedBy pageId user p = true).
    { unfold findOne in Hfind. apply find_some in Hfind. tauto. }
    set (flip := fun q : Page =>
                   let archived := negb (isArchived q) in
                   if archived then setFlags false archived q
                   else setFlags (isFavorite q) archived q).
    assert (E1 : flip p = setFlags false true p)
      by (unfold flip; cbv zeta; rewrite Hnot; reflexivity).
    assert (E2 : flip (setFlags false true p) = setFlags false false p)
      by reflexivity.
    destruct (findOneAndUpdate_found _ flip store p Hfind) as [s1 [U1 F1]].
    rewrite E1 in U1, F1. specialize (F1 Hown).
    destruct (findOneAndUpdate_found _ flip s1 _ F1) as [s2 [U2 F2]].
    rewrite E2 in U2, F2. specialize (F2 Hown).
    unfold toggleArchive. fold flip. rewrite U1. cbn [quiet db response isArchived setFlags].
    rewrite U2. cbn [quiet db response isArchived setFlags].
    repeat split; assumption.
  - intros lower openai store session r Hr Hall.
    destruct session as [user|]; [|exact Hall].
    destruct r; cbn [App.handle].
    + destruct (createPage_db store user req newId) as [-> | [page [-> [F A]]]];
        [exact Hall|].
      apply Forall_app. split; [exact Hall|]. constructor; [|constructor].
      unfold exclusive. rewrite F. intros [_ H]. discriminate.
    + unfold getPage. destruct (findOne _ store); exact Hall.
    + unfold updatePage. destruct req as [e|[]]; try exact Hall.
      cbv zeta. destruct (List.length (validatedData members) =? 0); [exact Hall|].
      destruct (findOneAndUpdate _ _ store) as [[q store']|] eqn:E; [|exact Hall].
      cbn [quiet db]. eapply findOneAndUpdate_Forall; [|exact Hall|exact E].
      intros p0. apply applySet_exclusive.
    + exfalso. exact (Hr pageId eq_refl).
    + unfold toggleArchive.
      destruct (findOneAndUpdate _ _ store) as [[q store']|] eqn:E; [|exact Hall].
      cbn [quiet db]. eapply findOneAndUpdate_Forall; [|exact Hall|exact E].
      intros p0 _. unfold exclusive. cbv zeta.
      destruct (isArchived p0); cbn; intros [H1 H2]; discriminate.
    + unfold deletePage.
      destruct (findOneAndDelete _ store) as [[q store']|] eqn:E; [|exact Hall].
      cbn [quiet db]. eapply findOneAndDelete_Forall; eauto.
    + destruct (summarize_db openai store req) as [-> | [pid [v ->]]]; [exact Hall|].
      apply findByIdAndUpdate_Forall; [|exact Hall]. intros. now apply setField_exclusive.
    + rewrite improve_db. exact Hall.
    + destruct (tags_db lower openai store req) as [-> | [pid [v ->]]]; [exact Hall|].
      apply findByIdAndUpdate_Forall; [|exact Hall]. intros. now apply setField_exclusive.
    + rewrite generate_db. exact Hall.
Qed.

(** A favorite page, archived and restored. *)
Example archive_then_restore :
  let store := [blankPage page1 ann true false] in
  let o1 := toggleArchive store (js ann) (js page1) in
  let o2 := toggleArchive (db o1) (js ann) (js page1) in
  response o1 = success (JObject [ (js "isArchived", JBool true) ])
  /\ db o1 = [blankPage page1 ann false true]
  /\ response o2 = success (JObject [ (js "isArchived", JBool false) ])
  /\ db o2 = [blankPage page1 ann false false].
Proof. cbv zeta. repeat split; vm_compute; reflexivity. Qed.

(** C9: a code bug.  [PATCH /pages/:id/favorite] does not look at the
    archived flag.  From a collection in which no page is both archived
    and favorite, the owner of an archived page toggles favorite: the
    route answers 200, reports [isFavorite: true] and stores the page as
    archived and favorite, so the invariant is lost; and it is the state
    the archive route is written to rule out, since archiving the same
    page when it is favorite stores it as not favorite. *)
Theorem favorite_toggle_breaks_the_exclusion :
  let trashed := blankPage page1 ann false true in
  let store := [trashed; blankPage page2 ann true false] in
  let o := App.handle toLowerCaseLatin1 (answering (js "unused")) store
             (Some (js ann)) (App.PatchFavorite (js page1)) in
  let archived := App.handle toLowerCaseLatin1 (answering (js "unused")) store
                    (Some (js ann)) (App.PatchArchive (js page2)) in
  ObjectIds.canonicalStore store = true
  /\ Forall exclusive store
  /\ status (response o) = 200
  /\ reported (response o) "isFavorite" = Some (JBool true)
  /\ db o = [blankPage page1 ann true true; blankPage page2 ann true false]
  /\ ~ Forall exclusive (db o)
  /\ db archived = [trashed; blankPage page2 ann false true].
Proof.
  cbv zeta.
  split; [reflexivity|].
  split.
  { repeat constructor; unfold exclusive; cbn; intros [H1 H2]; discriminate. }
  split; [reflexivity|].
  split; [vm_compute; reflexivity|].
  split; [vm_compute; reflexivity|].
  split; [|vm_compute; reflexivity].
  intros H.
  assert (E : db (App.handle toLowerCaseLatin1 (answering (js "unused"))
                    [blankPage page1 ann false true; blankPage page2 ann true false]
                    (Some (js ann)) (App.PatchFavorite (js page1)))
              = [blankPage page1 ann true true; blankPage page2 ann true false])
    by (vm_compute; reflexivity).
  rewrite E in H. inversion H as [|? ? Hp _]; subst.
  apply Hp. split; reflexivity.
Qed.

(** ** The debounced save *)

Import Editor.

Lemma first_edit_armed (t0 t : nat) (initial blocks : Blocks) :
  t0 <= t -> armed t blocks (edit t blocks (mount t0 initial)).
Proof.
  intros Hle. unfold armed, edit, handleChange, advance, mount. cbn.
  repeat split; try (apply Nat.max_r; exact Hle).
  exists 1. rewrite (Nat.max_r _ _ Hle). split; reflexivity.
Qed.

Lemma next_edit_armed (t t' : nat) (blocks blocks' : Blocks) (st : State) :
  armed t blocks st -> t <= t' -> t' < t + 1500 ->
  armed t' blocks' (edit t' blocks' st).
Proof.
  intros [Hnow [Hdoc [Hsaves [id [Href Htimers]]]]] Hle Hlt.
  assert (Hdue : (t + 1500 <=? t') = false) by (apply Nat.leb_gt; exact Hlt).
  unfold armed, edit, handleChange, advance.
  cbn [now document saves saveTimerRef timers nextId liveBlocks].
  rewrite Htimers, Href, Hsaves, Hnow. cbn [filter due map]. rewrite Hdue.
  cbn [negb filter app map clearTimeout timerId]. rewrite Nat.eqb_refl. cbn [negb app].
  rewrite (Nat.max_r _ _ Hle).
  repeat split. eexists. split; reflexivity.
Qed.

Lemma last_cons {A : Type} (l : list A) :
  forall a d : A, last (a :: l) d = last l a.
Proof.
  induction l as [|x l IH]; intros a d; [reflexivity|].
  change (last (a :: x :: l) d) with (last (x :: l) d).
  rewrite (IH x d), (IH x a). reflexivity.
Qed.

Lemma burst_armed (rest : list (nat * Blocks)) :
  forall (t : nat) (blocks : Blocks) (st : State),
    armed t blocks st -> rapid t rest ->
    armed (fst (last rest (t, blocks))) (snd (last rest (t, blocks)))
          (session rest st).
Proof.
  induction rest as [|[t' b'] rest IH]; intros t blocks st Harmed Hrapid.
  - exact Harmed.
  - destruct Hrapid as [Hle [Hlt Hrest]].
    pose proof (next_edit_armed t t' blocks b' st Harmed Hle Hlt) as Hnext.
    specialize (IH t' b' _ Hnext Hrest).
    change (session ((t', b') :: rest) st) with (session rest (edit t' b' st)).
    replace (last ((t', b') :: rest) (t, blocks)) with (last rest (t', b')).
    + exact IH.
    + symmetry. apply last_cons.
Qed.

(** C7: in a burst of edits, each less than 1.5 s after the one before it,
    nothing is saved until 1.5 s have passed since the last edit; then
    [onSave] is called exactly once, at that moment, with the blocks of the
    last edit, which are the blocks the editor holds when the timer fires. *)
Theorem debounce_saves_last_edit_once :
  forall (t0 : nat) (initial : Blocks) (t1 : nat) (b1 : Blocks)
         (rest : list (nat * Blocks)) (T : nat),
    t0 <= t1 -> rapid t1 rest ->
    let st := session ((t1, b1) :: rest) (mount t0 initial) in
    let tN := fst (last rest (t1, b1)) in
    let bN := snd (last rest (t1, b1)) in
    (T < tN + 1500 -> saves (advance T st) = [])
    /\ (tN + 1500 <= T ->
        saves (advance T st) = [(tN + 1500, bN)]
        /\ document (advance T st) = bN
        /\ timers (advance T st) = []).
Proof.
  intros t0 initial t1 b1 rest T Hle Hrapid. cbv zeta.
  change (session ((t1, b1) :: rest) (mount t0 initial))
    with (session rest (edit t1 b1 (mount t0 initial))).
  pose proof (burst_armed rest t1 b1 _ (first_edit_armed t0 t1 initial b1 Hle) Hrapid)
    as [Hnow [Hdoc [Hsaves [id [Href Htimers]]]]].
  set (tN := fst (last rest (t1, b1))) in *.
  set (bN := snd (last rest (t1, b1))) in *.
  set (st := session rest (edit t1 b1 (mount t0 initial))) in *.
  unfold advance. cbn [saves document timers]. rewrite Htimers, Hsaves, Hdoc.
  cbn [filter due]. split.
  - intros Hlt. apply Nat.leb_gt in Hlt. rewrite Hlt. reflexivity.
  - intros Hge. apply Nat.leb_le in Hge. rewrite Hge. repeat split.
Qed.

(** Three edits at 1.0 s, 1.2 s and 2.6 s: one save at 4.1 s. *)
Lemma debounce_saves_last_edit_once_witness :
  let typed (s : string) : Blocks :=
    [mkBlock None (Some [mkInline (js "text") (Some (js s)) None]) None] in
  let st := session [(1000, typed "H"%string); (1200, typed "He"%string); (2600, typed "Hey"%string)]
                    (mount 0 []) in
  saves (advance 4100 st) = [(4100, typed "Hey"%string)]
  /\ document (advance 4100 st) = typed "Hey"%string
  /\ timers (advance 4100 st) = [].
Proof.
  cbv zeta.
  apply (debounce_saves_last_edit_once 0 [] 1000
           [mkBlock None (Some [mkInline (js "text") (Some (js "H")) None]) None]
           [ (1200, [mkBlock None (Some [mkInline (js "text") (Some (js "He")) None]) None]);
             (2600, [mkBlock None (Some [mkInline (js "text") (Some (js "Hey")) None]) None]) ]
           4100).
  - lia.
  - simpl. lia.
  - simpl. lia.
Defined.

(** ** The text extractor *)

(** The loop body as the source has it: the text of the children is the
    extractor's result on them. *)
Lemma pushedLines_unfold (type : option jsstring)
      (content : option (list InlineContent)) (kids : list Block) :
  pushedLines (mkBlock type content (Some kids)) =
  ownLine content ++
  (let childText := extractTextFromBlocks kids in
   if truthy (trim childText) then [childText] else []).
Proof. destruct kids; reflexivity. Qed.

(** Induction on a block with the hypothesis for each of its children. *)
Lemma Block_nested_ind (P : Block -> Prop) :
  (forall type content children,
      match children with
      | Some kids => Forall P kids
      | None => True
      end -> P (mkBlock type content children)) ->
  forall b, P b.
Proof.
  intros step.
  fix self 1. intros [type content children]. apply step.
  destruct children as [kids|]; [|exact I].
  induction kids as [|k kids IH]; constructor; [apply self | exact IH].
Qed.

Lemma join_glue (ls : list jsstring) : join [LF] ls = tl (glue ls).
Proof.
  induction ls as [|p [|q rest] IH].
  - reflexivity.
  - simpl. rewrite app_nil_r. reflexivity.
  - change (join [LF] (p :: q :: rest)) with (p ++ [LF] ++ join [LF] (q :: rest)).
    rewrite IH. reflexivity.
Qed.

Lemma glue_app (a b : list jsstring) : glue (a ++ b) = glue a ++ glue b.
Proof. unfold glue. apply flat_map_app. Qed.

Lemma glue_flat_map {A : Type} (f : A -> list jsstring) (l : list A) :
  glue (flat_map f l) = flat_map (fun x => glue (f x)) l.
Proof.
  induction l as [|x l IH]; simpl; [reflexivity|].
  rewrite glue_app, IH. reflexivity.
Qed.

Lemma glue_join (ls : list jsstring) : ls <> [] -> glue [join [LF] ls] = glue ls.
Proof.
  intros Hne. rewrite join_glue. destruct ls as [|p rest]; [congruence|].
  simpl. rewrite app_nil_r. reflexivity.
Qed.

Lemma hasNonWhitespace_app (a b : jsstring) :
  hasNonWhitespace (a ++ b) = hasNonWhitespace a || hasNonWhitespace b.
Proof. unfold hasNonWhitespace. apply existsb_app. Qed.

Lemma hasNonWhitespace_join (ls : list jsstring) :
  ls <> [] -> Forall (fun l => hasNonWhitespace l = true) ls ->
  hasNonWhitespace (join [LF] ls) = true.
Proof.
  intros Hne Hall. destruct ls as [|p rest]; [congruence|].
  inversion Hall as [|? ? Hp _]; subst.
  destruct rest as [|q rest]; [exact Hp|].
  change (join [LF] (p :: q :: rest)) with (p ++ [LF] ++ join [LF] (q :: rest)).
  rewrite hasNonWhitespace_app, Hp. reflexivity.
Qed.

(** Induction on an inline item with the hypothesis for each item of its
    nested sequence. *)
Lemma InlineContent_nested_ind (P : InlineContent -> Prop) :
  (forall type text content,
      match content with
      | Some items => Forall P items
      | None => True
      end -> P (mkInline type text content)) ->
  forall item, P item.
Proof.
  intros step.
  fix self 1. intros [type text content]. apply step.
  destruct content as [items|]; [|exact I].
  induction items as [|i items IH]; constructor; [apply self | exact IH].
Qed.

Lemma join_nil_concat (parts : list jsstring) : join [] parts = List.concat parts.
Proof.
  induction parts as [|p [|q rest] IH].
  - reflexivity.
  - cbn. rewrite app_nil_r. reflexivity.
  - change (join [] (p :: q :: rest)) with (p ++ [] ++ join [] (q :: rest)).
    rewrite IH. reflexivity.
Qed.

Lemma join_newlineJoined (ls : list jsstring) : join [LF] ls = newlineJoined ls.
Proof.
  rewrite join_glue. destruct ls as [|l rest]; reflexivity.
Qed.

(** On an item of section 3 the code reads the text the section gives it. *)
Lemma extractInlineText_inlineText (item : InlineContent) :
  eitherTextOrSequence item = true -> extractInlineText item = inlineText item.
Proof.
  induction item as [type text content IH] using InlineContent_nested_ind.
  destruct text as [literal|], content as [items|]; cbn [eitherTextOrSequence];
    try discriminate.
  - intros _. destruct literal; reflexivity.
  - intros Hall. cbn [extractInlineText inlineText]. rewrite join_nil_concat. f_equal.
    induction IH as [|i items Hi _ IHitems]; [reflexivity|].
    cbn [forallb] in Hall. apply andb_prop in Hall. destruct Hall as [H1 H2].
    cbn [map]. rewrite (Hi H1), (IHitems H2). reflexivity.
Qed.

Lemma ownLine_spec (content : option (list InlineContent)) :
  match content with
  | Some items => forallb eitherTextOrSequence items
  | None => true
  end = true ->
  ownLine content =
  if hasNonWhitespace (ownText content) then [ownText content] else [].
Proof.
  unfold ownLine, ownText. destruct content as [items|]; [|reflexivity].
  intros Hall. cbv zeta. rewrite trim_truthy, join_nil_concat.
  replace (map extractInlineText items) with (map inlineText items); [reflexivity|].
  induction items as [|i items IH]; [reflexivity|].
  cbn [forallb] in Hall. apply andb_prop in Hall. destruct Hall as [H1 H2].
  cbn [map]. rewrite (extractInlineText_inlineText i H1), (IH H2). reflexivity.
Qed.

Lemma flat_map_ext_Forall {A B : Type} (P : A -> Prop) (f g : A -> list B) (l : list A) :
  (forall x, P x -> f x = g x) -> Forall P l -> flat_map f l = flat_map g l.
Proof.
  intros Hfg Hall. induction Hall as [|x l Hx _ IH]; simpl; [reflexivity|].
  rewrite (Hfg x Hx), IH. reflexivity.
Qed.

(** What one block of section 3 pushes glues to its logical lines, and
    those all carry text. *)
Lemma pushedLines_logical (b : Block) :
  wellFormed b = true ->
  glue (pushedLines b) = glue (logicalLines b)
  /\ Forall (fun l => hasNonWhitespace l = true) (logicalLines b).
Proof.
  induction b as [type content children IH] using Block_nested_ind.
  cbn [wellFormed]. intros Hwf. apply andb_prop in Hwf. destruct Hwf as [Hc Hk].
  cbn [pushedLines logicalLines]. rewrite (ownLine_spec content Hc).
  set (own := if hasNonWhitespace (ownText content) then [ownText content] else []).
  assert (Hown : Forall (fun l => hasNonWhitespace l = true) own).
  { unfold own. destruct (hasNonWhitespace (ownText content)) eqn:E;
      constructor; [exact E | constructor]. }
  destruct children as [kids|].
  - assert (IH' : Forall (fun k => glue (pushedLines k) = glue (logicalLines k)
                                   /\ Forall (fun l => hasNonWhitespace l = true)
                                             (logicalLines k)) kids).
    { clear -IH Hk. induction IH as [|k kids Hkk _ IHk]; [constructor|].
      cbn [forallb] in Hk. apply andb_prop in Hk. destruct Hk as [H1 H2].
      constructor; [exact (Hkk H1) | exact (IHk H2)]. }
    assert (Hglue : glue (flat_map pushedLines kids) = glue (flat_map logicalLines kids)).
    { rewrite !glue_flat_map.
      apply (flat_map_ext_Forall _ _ _ kids (fun k H => proj1 H) IH'). }
    assert (Hkids : Forall (fun l => hasNonWhitespace l = true) (flat_map logicalLines kids)).
    { clear -IH'. induction IH' as [|k kids [_ Hk] _ IHk]; simpl; [constructor|].
      apply Forall_app. split; assumption. }
    assert (Hjoin : join [LF] (flat_map pushedLines kids)
                    = join [LF] (flat_map logicalLines kids))
      by (rewrite !join_glue, Hglue; reflexivity).
    cbv zeta. rewrite trim_truthy, Hjoin. split.
    + rewrite !glue_app. f_equal.
      destruct (flat_map logicalLines kids) as [|l ls] eqn:E.
      * reflexivity.
      * rewrite hasNonWhitespace_join by (congruence || exact Hkids).
        apply glue_join. congruence.
    + apply Forall_app. split; assumption.
  - split; [reflexivity|]. rewrite app_nil_r. exact Hown.
Qed.

Lemma carriesText_false (b : Block) : carriesText b = false -> logicalLines b = [].
Proof.
  induction b as [type content children IH] using Block_nested_ind.
  cbn [carriesText logicalLines]. intros H.
  apply orb_false_elim in H. destruct H as [Hown Hkids].
  rewrite Hown. cbn [app].
  destruct children as [kids|]; [|reflexivity].
  induction IH as [|k kids Hk _ IHk]; [reflexivity|].
  cbn [existsb] in Hkids. apply orb_false_elim in Hkids. destruct Hkids as [H1 H2].
  cbn [flat_map]. rewrite (Hk H1), (IHk H2). reflexivity.
Qed.

Lemma extractor_glues_logical_lines (blocks : list Block) :
  forallb wellFormed blocks = true ->
  extractTextFromBlocks blocks = newlineJoined (flat_map logicalLines blocks)
  /\ Forall (fun l => hasNonWhitespace l = true) (flat_map logicalLines blocks).
Proof.
  intros Hwf.
  assert (Hall : Forall (fun b => glue (pushedLines b) = glue (logicalLines b)
                                  /\ Forall (fun l => hasNonWhitespace l = true)
                                            (logicalLines b)) blocks).
  { induction blocks as [|b rest IH]; [constructor|].
    cbn [forallb] in Hwf. apply andb_prop in Hwf. destruct Hwf as [H1 H2].
    constructor; [exact (pushedLines_logical b H1) | exact (IH H2)]. }
  split.
  - rewrite <- join_newlineJoined.
    unfold extractTextFromBlocks. destruct blocks as [|b rest]; [reflexivity|].
    rewrite !join_glue, !glue_flat_map. f_equal.
    apply (flat_map_ext_Forall _ _ _ _ (fun k H => proj1 H) Hall).
  - clear Hwf. induction Hall as [|b rest [_ Hb] _ IH]; simpl; [constructor|].
    apply Forall_app. split; assumption.
Qed.

(** C3: on every sequence of blocks of the data model (section 3: each
    inline item either literal text or a nested inline sequence; content
    and children possibly absent or empty; any depth) the extractor is a
    total function whose result is the logical lines of the blocks, in
    order, joined by single newlines, where a block contributes its inline
    content when that has a code unit that is not whitespace, followed by
    the lines of its children; every such line carries text; and when no
    block carries text the result is the empty string. *)
Theorem extractor_joins_logical_lines :
  forall blocks : list Block,
    forallb wellFormed blocks = true ->
    extractTextFromBlocks blocks = newlineJoined (flat_map logicalLines blocks)
    /\ Forall (fun l => hasNonWhitespace l = true) (flat_map logicalLines blocks)
    /\ (existsb carriesText blocks = false -> extractTextFromBlocks blocks = []).
Proof.
  intros blocks Hwf.
  destruct (extractor_glues_logical_lines blocks Hwf) as [E Hlines].
  split; [exact E|]. split; [exact Hlines|].
  intros Hnone. rewrite E.
  replace (flat_map logicalLines blocks) with (@nil jsstring); [reflexivity|].
  symmetry. clear E Hwf Hlines. induction blocks as [|b rest IH]; [reflexivity|].
  cbn [existsb] in Hnone. apply orb_false_elim in Hnone. destruct Hnone as [H1 H2].
  cbn [flat_map]. rewrite (carriesText_false b H1), (IH H2). reflexivity.
Qed.

(** A heading; a paragraph of a literal and a nested sequence, with two
    children of which one is blank; a block without content. *)
Lemma extractor_joins_logical_lines_witness :
  let literal (s : jsstring) := mkInline (js "text") (Some s) None in
  let document :=
    [ mkBlock (Some (js "heading")) (Some [literal (js "Plan")]) None;
      mkBlock (Some (js "paragraph"))
              (Some [literal (js "see "); mkInline (js "link") None (Some [literal (js "the "); literal (js "notes")])])
              (Some [ mkBlock None (Some [literal (js "   ")]) (Some []);
                      mkBlock None (Some [literal (js "first")])
                              (Some [mkBlock None (Some [literal (js "inner")]) None]) ]);
      mkBlock None None None ] in
  extractTextFromBlocks document = text "Plan|see the notes|first|inner".
Proof.
  cbv zeta.
  transitivity
    (newlineJoined
       (flat_map logicalLines
          [ mkBlock (Some (js "heading")) (Some [mkInline (js "text") (Some (js "Plan")) None]) None;
            mkBlock (Some (js "paragraph"))
                    (Some [mkInline (js "text") (Some (js "see ")) None;
                           mkInline (js "link") None
                                    (Some [mkInline (js "text") (Some (js "the ")) None;
                                           mkInline (js "text") (Some (js "notes")) None])])
                    (Some [ mkBlock None (Some [mkInline (js "text") (Some (js "   ")) None])
                                    (Some []);
                            mkBlock None (Some [mkInline (js "text") (Some (js "first")) None])
                                    (Some [mkBlock None
                                             (Some [mkInline (js "text") (Some (js "inner")) None])
                                             None]) ]);
            mkBlock None None None ])).
  - apply (extractor_joins_logical_lines
          [ mkBlock (Some (js "heading")) (Some [mkInline (js "text") (Some (js "Plan")) None]) None;
            mkBlock (Some (js "paragraph"))
                    (Some [mkInline (js "text") (Some (js "see ")) None;
                           mkInline (js "link") None
                                    (Some [mkInline (js "text") (Some (js "the ")) None;
                                           mkInline (js "text") (Some (js "notes")) None])])
                    (Some [ mkBlock None (Some [mkInline (js "text") (Some (js "   ")) None])
                                    (Some []);
                            mkBlock None (Some [mkInline (js "text") (Some (js "first")) None])
                                    (Some [mkBlock None
                                             (Some [mkInline (js "text") (Some (js "inner")) None])
                                             None]) ]);
            mkBlock None None None ]).
    reflexivity.
  - reflexivity.
Defined.

(** The examples of section 8, item 2. *)
Example extract_two_paragraphs :
  extractTextFromBlocks
    [ mkBlock None (Some [mkInline (js "text") (Some (js "Hello")) None]) None;
      mkBlock None (Some [mkInline (js "text") (Some (js "World")) None]) None ]
  = text "Hello|World".
Proof. reflexivity. Qed.

Example extract_nested_child :
  extractTextFromBlocks
    [ mkBlock None (Some [mkInline (js "text") (Some (js "A")) None])
              (Some [mkBlock None (Some [mkInline (js "text") (Some (js "B")) None]) None]) ]
  = text "A|B".
Proof. reflexivity. Qed.

(** ** Structured parsing of tags *)

Lemma throughClose_firstn (t m : jsstring) :
  throughClose t = Some m -> firstn (List.length m) t = m /\ List.length m <= List.length t.
Proof.
  revert m. induction t as [|c t IH]; intros m H; [discriminate|].
  cbn [throughClose] in H. destruct (N.eqb c (ch "]")).
  - injection H as <-. split; [reflexivity | simpl; lia].
  - destruct (throughClose t) as [m'|]; [|discriminate].
    injection H as <-. destruct (IH m' eq_refl) as [E L].
    split; [simpl; rewrite E; reflexivity | simpl; lia].
Qed.

(** After a lazy run of any code units, the closing bracket matched is the
    first one. *)
Lemma firstSuffix_close (t : jsstring) :
  firstSuffix (fun u => rmatch (Chr (ch "]")) u Some) t =
  match throughClose t with
  | Some m => Some (skipn (List.length m) t)
  | None => None
  end.
Proof.
  induction t as [|c t IH]; [reflexivity|].
  cbn [firstSuffix throughClose]. unfold Chr at 1. cbn [rmatch].
  rewrite (N.eqb_sym (ch "]") c). destruct (N.eqb c (ch "]")); [reflexivity|].
  rewrite IH. destruct (throughClose t) as [m|]; reflexivity.
Qed.

Lemma rmatch_jsonArray (s : jsstring) :
  rmatch jsonArrayPattern s Some =
  match s with
  | c :: t =>
      if N.eqb c (ch "[") then
        match throughClose t with
        | Some m => Some (skipn (List.length m) t)
        | None => None
        end
      else None
  | [] => None
  end.
Proof.
  unfold jsonArrayPattern. unfold Chr at 1.
  destruct s as [|c t]; [reflexivity|]. cbn [rmatch].
  rewrite (N.eqb_sym (ch "[") c). destruct (N.eqb c (ch "[")); [|reflexivity].
  change (starLoop Lazy (rmatch anyChar) (fun t0 => rmatch (Chr (ch "]")) t0 Some)
                   (List.length t) t)
    with (rmatch (Star Lazy anyChar) t (fun t0 => rmatch (Chr (ch "]")) t0 Some)).
  rewrite rmatch_lazy_any. apply firstSuffix_close.
Qed.

Lemma exec_without_close (t : jsstring) :
  throughClose t = None -> exec jsonArrayPattern t = None.
Proof.
  induction t as [|c t IH]; intros H.
  - reflexivity.
  - cbn [throughClose] in H. destruct (N.eqb c (ch "]")); [discriminate|].
    destruct (throughClose t) as [m|] eqn:E; [discriminate|].
    cbn [exec]. unfold match_at. rewrite rmatch_jsonArray, E.
    destruct (N.eqb c (ch "[")); apply IH; reflexivity.
Qed.

(** The leftmost match of the pattern runs from the first opening bracket
    through the first closing bracket after it. *)
Lemma exec_jsonArray (s : jsstring) : exec jsonArrayPattern s = bracketSpan s.
Proof.
  induction s as [|c t IH]; [reflexivity|].
  cbn [exec bracketSpan]. unfold match_at. rewrite rmatch_jsonArray.
  destruct (N.eqb c (ch "[")); [|exact IH].
  destruct (throughClose t) as [m|] eqn:E.
  - destruct (throughClose_firstn t m E) as [F L].
    rewrite length_skipn.
    replace (List.length (c :: t) - (List.length t - List.length m))
      with (S (List.length m)) by (cbn [List.length]; lia).
    cbn [firstn option_map]. rewrite F. reflexivity.
  - cbn [option_map]. apply exec_without_close. exact E.
Qed.

Lemma nonBlankStrings_spec (items : list json) :
  nonBlankStrings items = stringsWithText items.
Proof.
  unfold stringsWithText.
  induction items as [|v rest IH]; [reflexivity|].
  cbn [nonBlankStrings flat_map]. destruct v; try exact IH.
  rewrite trim_truthy. destruct (hasNonWhitespace s); cbn [app]; rewrite IH; reflexivity.
Qed.

(** C4, as worded, fails: in [[1],"react"] the first balanced bracketed
    substring is the whole text, a list whose one string is "react"; the
    handler's pattern stops at the first closing bracket, and what it
    matched does not parse. *)
Lemma structured_tags_as_stated_fail : ~ StructuredTagsAsStated.
Proof.
  intros H. specialize (H (text "[[1],'react']")).
  vm_compute in H. discriminate.
Qed.

(** A string of blanks is a non-empty string, and the handler drops it. *)
Lemma structured_tags_drop_blank_strings :
  structuredTags (text "['  ','ab']") = [js "ab"]
  /\ statedStructuredTags (text "['  ','ab']") = [js "  "; js "ab"].
Proof. split; vm_compute; reflexivity. Qed.

(** C4 (amended): the structured strategy takes the text from the first
    opening bracket through the first closing bracket after it and parses
    it as JSON; when that gives an array it keeps, in order, the elements
    that are strings with a code unit that is not whitespace, at most five
    of them; otherwise it yields nothing.  The output of section 8, item 5,
    yields exactly its three tags. *)
Theorem structured_tags_take_first_bracket_span :
  (forall raw : jsstring,
      structuredTags raw =
      match bracketSpan raw with
      | Some span =>
          match parse span with
          | Some (JArray items) => firstn 5 (stringsWithText items)
          | _ => []
          end
      | None => []
      end)
  /\ structuredTags (text "Here are tags: ['react', 'hooks', 'nextjs']")
     = [js "react"; js "hooks"; js "nextjs"].
Proof.
  split.
  - intros raw. unfold structuredTags. rewrite exec_jsonArray.
    destruct (bracketSpan raw) as [span|]; [|reflexivity].
    destruct (parse span) as [[]|]; try reflexivity.
    unfold slice0. rewrite nonBlankStrings_spec. reflexivity.
  - vm_compute. reflexivity.
Qed.

(** ** The heuristic fallback *)

Lemma rmatch_fence_open (r : regex) (s : jsstring) (k : jsstring -> option jsstring) :
  rmatch (Seq backtick (Seq backtick (Seq backtick r))) s k =
  if startsWith fenceMarker s then rmatch r (skipn 3 s) k else None.
Proof.
  unfold backtick, Chr, fenceMarker.
  destruct s as [|c1 [|c2 [|c3 t]]]; cbn [rmatch startsWith skipn];
    repeat match goal with
           | |- context [N.eqb (ch "`") ?c] => destruct (N.eqb (ch "`") c)
           end; reflexivity.
Qed.

Lemma rmatch_fence_close (s : jsstring) (k : jsstring -> option jsstring) :
  rmatch (Seq backtick (Seq backtick backtick)) s k =
  if startsWith fenceMarker s then k (skipn 3 s) else None.
Proof.
  unfold backtick, Chr, fenceMarker.
  destruct s as [|c1 [|c2 [|c3 t]]]; cbn [rmatch startsWith skipn];
    repeat match goal with
           | |- context [N.eqb (ch "`") ?c] => destruct (N.eqb (ch "`") c)
           end; reflexivity.
Qed.

Lemma firstSuffix_marker (s : jsstring) :
  firstSuffix (fun u => rmatch (Seq backtick (Seq backtick backtick)) u Some) s
  = afterMarker s.
Proof.
  induction s as [|c t IH]; [reflexivity|].
  cbn [firstSuffix afterMarker]. rewrite rmatch_fence_close.
  destruct (startsWith fenceMarker (c :: t)); [reflexivity | exact IH].
Qed.

(** A match of the fence pattern is a complete fenced block. *)
Lemma rmatch_fence (s : jsstring) : rmatch fencePattern s Some = afterFencedBlock s.
Proof.
  unfold fencePattern, afterFencedBlock. rewrite rmatch_fence_open.
  destruct (startsWith fenceMarker s); [|reflexivity].
  change (rmatch (Seq (Star Lazy anyChar) (Seq backtick (Seq backtick backtick)))
                 (skipn 3 s) Some)
    with (rmatch (Star Lazy anyChar) (skipn 3 s)
                 (fun u => rmatch (Seq backtick (Seq backtick backtick)) u Some)).
  rewrite rmatch_lazy_any. apply firstSuffix_marker.
Qed.

Lemma afterMarker_shorter (s rest : jsstring) :
  afterMarker s = Some rest -> List.length rest < List.length s.
Proof.
  revert rest. induction s as [|c t IH]; intros rest H; [discriminate|].
  cbn [afterMarker] in H. destruct (startsWith fenceMarker (c :: t)).
  - assert (L : List.length (skipn 3 (c :: t)) < List.length (c :: t))
      by (rewrite length_skipn; cbn [List.length]; lia).
    injection H as <-. exact L.
  - apply IH in H. cbn [List.length]. lia.
Qed.

Lemma afterFencedBlock_shorter (s rest : jsstring) :
  afterFencedBlock s = Some rest -> List.length rest < List.length s.
Proof.
  unfold afterFencedBlock. destruct (startsWith fenceMarker s); [|discriminate].
  intros H. apply afterMarker_shorter in H. rewrite length_skipn in H. lia.
Qed.

Lemma dropFencedBlocks_clause (c : char16) (t : jsstring) (y : option jsstring)
      (e : afterFencedBlock (c :: t) = y) :
  dropFencedBlocks_unfold_clause_2 c t (exist _ y e) =
  match y with
  | Some rest => dropFencedBlocks rest
  | None => c :: dropFencedBlocks t
  end.
Proof. destruct y; reflexivity. Qed.

Lemma dropFencedBlocks_cons (c : char16) (t : jsstring) :
  dropFencedBlocks (c :: t) =
  match afterFencedBlock (c :: t) with
  | Some rest => dropFencedBlocks rest
  | None => c :: dropFencedBlocks t
  end.
Proof.
  rewrite dropFencedBlocks_equation_2. unfold Logic.inspect.
  apply dropFencedBlocks_clause.
Qed.

Lemma replaceAll_fence (s : jsstring) :
  replaceAll fencePattern [] s = dropFencedBlocks s.
Proof.
  remember (List.length s) as n eqn:Hn.
  assert (Hle : List.length s <= n) by lia. clear Hn.
  revert s Hle. induction n as [|n IH]; intros s Hle.
  - destruct s; [reflexivity | simpl in Hle; lia].
  - destruct s as [|c t]; [reflexivity|].
    rewrite replaceAll_step, dropFencedBlocks_cons, rmatch_fence.
    destruct (afterFencedBlock (c :: t)) as [rest|] eqn:E.
    + pose proof (afterFencedBlock_shorter _ _ E) as Hlt.
      assert (Hb : (List.length rest <? List.length (c :: t)) = true)
        by (apply Nat.ltb_lt; exact Hlt).
      rewrite Hb. cbn [app]. apply IH. cbn [List.length] in *. lia.
    + f_equal. apply IH. cbn [List.length] in Hle. lia.
Qed.

Lemma rmatch_whitespace_run (s : jsstring) :
  rmatch (Star Greedy (Class isWhiteSpace)) s Some = Some (dropWhile isWhiteSpace s).
Proof. apply rmatch_greedy_class. intros t H. discriminate. Qed.

(** A match of the marker pattern is a run of marker characters and the
    whitespace after it. *)
Lemma rmatch_marker (c : char16) (t : jsstring) :
  rmatch markerPattern (c :: t) Some =
  if isMarker c then Some (dropWhile isWhiteSpace (dropWhile isMarker t)) else None.
Proof.
  unfold markerPattern, Plus. rewrite !rmatch_Seq, rmatch_Class.
  destruct (isMarker c); [|reflexivity].
  rewrite rmatch_greedy_class.
  - apply rmatch_whitespace_run.
  - intros u. rewrite rmatch_whitespace_run. discriminate.
Qed.

Lemma replaceAll_marker (s : jsstring) :
  replaceAll markerPattern (js " ") s = squashMarkers s.
Proof.
  remember (List.length s) as n eqn:Hn.
  assert (Hle : List.length s <= n) by lia. clear Hn.
  revert s Hle. induction n as [|n IH]; intros s Hle.
  - destruct s; [reflexivity | simpl in Hle; lia].
  - destruct s as [|c t]; [reflexivity|].
    rewrite replaceAll_step, squashMarkers_equation_2, rmatch_marker.
    destruct (isMarker c).
    + pose proof (dropWhile_length isWhiteSpace (dropWhile isMarker t)) as H1.
      pose proof (dropWhile_length isMarker t) as H2.
      assert (Hb : (List.length (dropWhile isWhiteSpace (dropWhile isMarker t))
                    <? List.length (c :: t)) = true)
        by (apply Nat.ltb_lt; cbn [List.length]; lia).
      rewrite Hb. change (js " ") with [SPACE]. cbn [app]. f_equal.
      apply IH. cbn [List.length] in Hle. lia.
    + f_equal. apply IH. cbn [List.length] in Hle. lia.
Qed.

Lemma replaceAll_quote (s : jsstring) :
  replaceAll quotePattern [] s = filter (fun c => negb (isQuoteOrBracket c)) s.
Proof.
  induction s as [|c t IH]; [reflexivity|].
  rewrite replaceAll_step. unfold quotePattern at 1. cbn [rmatch filter].
  destruct (isQuoteOrBracket c); cbn [negb].
  - assert (Hb : (List.length t <? List.length (c :: t)) = true)
      by (apply Nat.ltb_lt; cbn [List.length]; lia).
    rewrite Hb. exact IH.
  - f_equal. exact IH.
Qed.

Lemma rmatch_separator (c : char16) (t : jsstring) :
  rmatch separatorPattern (c :: t) Some =
  if isSeparator c then Some (dropWhile isSeparator t) else None.
Proof.
  unfold separatorPattern, Plus. rewrite rmatch_Seq, rmatch_Class.
  destruct (isSeparator c); [|reflexivity].
  apply rmatch_greedy_class. intros u H. discriminate.
Qed.

Lemma piecesFrom_in_run (cur s : jsstring) :
  piecesFrom true cur s = piecesFrom false cur (dropWhile isSeparator s).
Proof.
  induction s as [|c t IH]; [reflexivity|].
  cbn [piecesFrom dropWhile]. destruct (isSeparator c) eqn:E.
  - exact IH.
  - cbn [piecesFrom]. rewrite E. reflexivity.
Qed.

Lemma split_separator (s : jsstring) : split separatorPattern s = pieces s.
Proof.
  unfold split, pieces. generalize (@nil char16) as cur.
  remember (List.length s) as n eqn:Hn.
  assert (Hle : List.length s <= n) by lia. clear Hn.
  revert s Hle. induction n as [|n IH]; intros s Hle cur.
  - destruct s; [reflexivity | simpl in Hle; lia].
  - destruct s as [|c t]; [reflexivity|].
    rewrite split_from_step, rmatch_separator. cbn [piecesFrom].
    destruct (isSeparator c).
    + pose proof (dropWhile_length isSeparator t) as H1.
      assert (Hb : (List.length (dropWhile isSeparator t) <? List.length (c :: t)) = true)
        by (apply Nat.ltb_lt; cbn [List.length]; lia).
      rewrite Hb, piecesFrom_in_run. f_equal.
      apply IH. cbn [List.length] in Hle. lia.
    + apply IH. cbn [List.length] in Hle. lia.
Qed.

(** C5, as worded, fails: on a fenced list the handler deletes the fenced
    block with the candidates inside it, where stripping the fence markers
    would leave "react" and "hooks".  (The text is ASCII, on which
    [toLowerCase] is its Latin-1 restriction.) *)
Lemma heuristic_tags_as_stated_fail : ~ HeuristicTagsAsStated toLowerCaseLatin1.
Proof.
  intros H. specialize (H (text "```|react, hooks|```") eq_refl).
  vm_compute in H. discriminate.
Qed.

(** Marker characters are not only stripped: a run of them, with the
    whitespace after it, newlines included, becomes one space. *)
Lemma heuristic_tags_squash_markers :
  heuristicTags toLowerCaseLatin1 (text "React.|Hooks") = [js "react hooks"]
  /\ statedHeuristicTags toLowerCaseLatin1 (text "React.|Hooks") = [js "react"; js "hooks"].
Proof. split; vm_compute; reflexivity. Qed.

(** C5 (amended): the heuristic fallback deletes every complete fenced
    block, contents included; replaces every run of the characters
    [* - .] and digits, together with the whitespace after it, by one
    space; deletes quote and bracket characters; cuts the text at its runs
    of commas and newlines; trims and lowercases each piece; keeps exactly
    the pieces whose length is strictly between 1 and 30; and keeps the
    first five of these.  The numbered list of section 8, item 6, yields
    "react", "hooks" and "next js". *)
Theorem heuristic_tags_pipeline :
  (forall (toLowerCase : jsstring -> jsstring) (raw : jsstring),
      heuristicTags toLowerCase raw =
      firstn 5
        (filter keepable
           (map (fun t => toLowerCase (trim t))
              (pieces
                 (filter (fun c => negb (isQuoteOrBracket c))
                    (squashMarkers (dropFencedBlocks raw))))))
      /\ List.length (heuristicTags toLowerCase raw) <= 5
      /\ Forall (fun t => 1 < List.length t < 30) (heuristicTags toLowerCase raw))
  /\ heuristicTags toLowerCaseLatin1 (text "1. React|2. Hooks|3. Next.js")
     = [js "react"; js "hooks"; js "next js"].
Proof.
  split; [|vm_compute; reflexivity].
  intros lower raw.
  assert (E : heuristicTags lower raw =
              firstn 5
                (filter keepable
                   (map (fun t => lower (trim t))
                      (pieces
                         (filter (fun c => negb (isQuoteOrBracket c))
                            (squashMarkers (dropFencedBlocks raw))))))).
  { unfold heuristicTags, slice0.
    rewrite replaceAll_fence, replaceAll_marker, replaceAll_quote, split_separator.
    reflexivity. }
  split; [exact E|]. rewrite E. split.
  - apply firstn_le_length.
  - apply Forall_forall. intros t Hin.
    assert (Hin' : In t (filter keepable
                     (map (fun t => lower (trim t))
                        (pieces
                           (filter (fun c => negb (isQuoteOrBracket c))
                              (squashMarkers (dropFencedBlocks raw)))))))
      by (rewrite <- (firstn_skipn 5); apply in_or_app; left; exact Hin).
    apply filter_In in Hin'. destruct Hin' as [_ Hk].
    unfold keepable in Hk. apply andb_prop in Hk. destruct Hk as [H1 H2].
    apply Nat.ltb_lt in H1. apply Nat.ltb_lt in H2. split; assumption.
Qed.

(* ===================================================================== *)
(** * Further properties *)
(* ===================================================================== *)

(** ** The debounced save over any sequence of edits *)

Import Lifecycle PageView.

Lemma first_edit_pending (t0 t : nat) (initial blocks : Blocks) :
  t0 <= t -> pending t blocks [] (edit t blocks (mount t0 initial)).
Proof.
  intros Hle. unfold pending, edit, handleChange, advance, mount. cbn.
  rewrite (Nat.max_r _ _ Hle). repeat split. exists 1. split; reflexivity.
Qed.

Lemma next_edit_pending (t t' : nat) (blocks blocks' : Blocks)
      (saved : list (nat * Blocks)) (st : State) :
  pending t blocks saved st -> t <= t' ->
  pending t' blocks'
          (saved ++ if t + 1500 <=? t' then [(t + 1500, blocks)] else [])
          (edit t' blocks' st).
Proof.
  intros [Hnow [Hdoc [Hsaves [id [Href Htimers]]]]] Hle.
  unfold pending, edit, handleChange, advance.
  cbn [now document saves saveTimerRef timers nextId liveBlocks].
  rewrite Htimers, Href, Hsaves, Hnow. cbn [filter due map].
  rewrite (Nat.max_r _ _ Hle).
  destruct (t + 1500 <=? t'); cbn [negb filter app map clearTimeout timerId captured due].
  - repeat split. eexists. split; reflexivity.
  - rewrite Nat.eqb_refl. cbn [negb app]. rewrite app_nil_r.
    repeat split. eexists. split; reflexivity.
Qed.

Lemma pending_run (rest : list (nat * Blocks)) :
  forall (t : nat) (blocks : Blocks) (saved : list (nat * Blocks)) (st : State) (T : nat),
    pending t blocks saved st -> ascending t rest ->
    let st' := advance T (session rest st) in
    saves st' = saved ++ quietEdits T ((t, blocks) :: rest)
    /\ (timers st' = []
        \/ exists id tm, saveTimerRef st' = Some id /\ timerId tm = id
                         /\ timers st' = [tm]).
Proof.
  induction rest as [|[t' b'] rest IH]; intros t blocks saved st T Hp Hasc.
  - destruct Hp as [Hnow [Hdoc [Hsaves [id [Href Htimers]]]]].
    cbv zeta. cbn [session fold_left quietEdits]. unfold advance.
    cbn [saves timers saveTimerRef]. rewrite Htimers, Hsaves. cbn [filter due].
    destruct (t + 1500 <=? T); cbn [negb map due captured app].
    + split; [reflexivity|]. left. reflexivity.
    + split; [reflexivity|]. right. eexists. eexists.
      split; [exact Href|]. split; [|reflexivity]. reflexivity.
  - destruct Hasc as [Hle Hrest].
    pose proof (next_edit_pending t t' blocks b' saved st Hp Hle) as Hnext.
    specialize (IH t' b' _ _ T Hnext Hrest). cbv zeta in IH.
    change (session ((t', b') :: rest) st) with (session rest (edit t' b' st)).
    cbv zeta. destruct IH as [IHs IHt]. split; [|exact IHt].
    rewrite IHs. rewrite <- app_assoc. reflexivity.
Qed.

(** X1: whatever the rhythm of the edits, the saves made by time [T] are
    exactly the edits that were followed by 1.5 s without another edit, in
    order, each made once, 1.5 s after its edit, with the blocks of that
    edit.  (An edit at the very instant a timer is due comes after the
    timer.) *)
Theorem debounce_saves_exactly_the_quiet_edits :
  forall (t0 : nat) (initial : Blocks) (edits : list (nat * Blocks)) (T : nat),
    ascending t0 edits ->
    saves (advance T (session edits (mount t0 initial))) = quietEdits T edits.
Proof.
  intros t0 initial edits T Hasc.
  destruct edits as [|[t1 b1] rest]; [reflexivity|].
  destruct Hasc as [Hle Hrest].
  change (session ((t1, b1) :: rest) (mount t0 initial))
    with (session rest (edit t1 b1 (mount t0 initial))).
  pose proof (pending_run rest t1 b1 [] _ T (first_edit_pending t0 t1 initial b1 Hle) Hrest)
    as [H _].
  exact H.
Qed.

(** Two bursts: the last edit of each is saved, nothing else. *)
Lemma debounce_saves_exactly_the_quiet_edits_witness :
  let typed (s : string) : Blocks :=
    [mkBlock None (Some [mkInline (js "text") (Some (js s)) None]) None] in
  saves (advance 4900
           (session [ (1000, typed "a"%string); (1100, typed "ab"%string);
                      (3000, typed "abc"%string); (3200, typed "abcd"%string) ]
                    (mount 0 [])))
  = [ (2600, typed "ab"%string); (4700, typed "abcd"%string) ].
Proof.
  cbv zeta.
  apply (debounce_saves_exactly_the_quiet_edits 0 []
           [ (1000, [mkBlock None (Some [mkInline (js "text") (Some (js "a")) None]) None]);
             (1100, [mkBlock None (Some [mkInline (js "text") (Some (js "ab")) None]) None]);
             (3000, [mkBlock None (Some [mkInline (js "text") (Some (js "abc")) None]) None]);
             (3200, [mkBlock None (Some [mkInline (js "text") (Some (js "abcd")) None]) None]) ]
           4900).
  simpl. lia.
Defined.

(** X2: once the component is unmounted nothing more is saved: the saves
    are those made before the unmount, so an edit made less than 1.5 s
    before it is never persisted. *)
Theorem unmount_cancels_the_pending_save :
  forall (t0 : nat) (initial : Blocks) (edits : list (nat * Blocks)) (U T : nat),
    ascending t0 edits ->
    saves (advance T (unmount (advance U (session edits (mount t0 initial)))))
    = quietEdits U edits.
Proof.
  intros t0 initial edits U T Hasc.
  assert (H : saves (advance U (session edits (mount t0 initial))) = quietEdits U edits
              /\ timers (unmount (advance U (session edits (mount t0 initial)))) = []).
  { destruct edits as [|[t1 b1] rest]; [split; reflexivity|].
    destruct Hasc as [Hle Hrest].
    change (session ((t1, b1) :: rest) (mount t0 initial))
      with (session rest (edit t1 b1 (mount t0 initial))).
    pose proof (pending_run rest t1 b1 [] _ U (first_edit_pending t0 t1 initial b1 Hle) Hrest)
      as [Hs Ht].
    cbv zeta in Hs, Ht. split; [exact Hs|].
    unfold unmount. cbn [timers].
    destruct Ht as [Ht | [id [tm [Href [Hid Ht]]]]].
    - rewrite Ht. destruct (saveTimerRef _); reflexivity.
    - rewrite Href, Ht. cbn [clearTimeout filter]. rewrite Hid, Nat.eqb_refl.
      reflexivity. }
  destruct H as [Hs Ht].
  unfold advance at 1. cbn [saves]. rewrite Ht. cbn [filter map].
  rewrite app_nil_r. exact Hs.
Qed.

(** An edit at 1.0 s, unmount at 2.0 s: never saved. *)
Lemma unmount_cancels_the_pending_save_witness :
  saves (advance 4900
           (unmount (advance 2000
              (session [ (1000, [mkBlock None None None]) ] (mount 0 [])))))
  = [].
Proof.
  apply (unmount_cancels_the_pending_save 0 [] [ (1000, [mkBlock None None None]) ]
                                          2000 4900).
  simpl. lia.
Defined.

Lemma session_snoc (edits : list (nat * Blocks)) (t : nat) (blocks : Blocks)
      (st : State) :
  session (edits ++ [(t, blocks)]) st = edit t blocks (session edits st).
Proof. unfold session. rewrite fold_left_app. reflexivity. Qed.

(** X3: after any edits, what [getPlainText] gives the AI features is the
    text of the blocks of the last edit, whether or not its save has been
    made yet; only when the editor handed over no block at all does it
    fall back on the content loaded from the server. *)
Theorem plain_text_follows_the_last_edit :
  forall (st : State) (edits : list (nat * Blocks)) (t : nat) (blocks : Blocks)
         (T : nat) (pageContent : option (list Block)),
    let st' := advance T (session (edits ++ [(t, blocks)]) st) in
    liveBlocks st' = blocks
    /\ document st' = blocks
    /\ getPlainText (liveBlocks st') pageContent =
       match blocks with
       | [] => match pageContent with
               | None => []
               | Some content => extractTextFromBlocks content
               end
       | _ => extractTextFromBlocks blocks
       end.
Proof.
  intros st edits t blocks T pageContent. cbv zeta. rewrite session_snoc.
  assert (L : liveBlocks (advance T (edit t blocks (session edits st))) = blocks)
    by reflexivity.
  rewrite L. repeat split.
Qed.

(** ** Inserting generated text *)

Lemma splitString_skip (sep : jsstring) :
  forall s k cur, splitString sep k cur s = splitString sep 0 cur (skipn k s).
Proof.
  induction s as [|c t IH]; intros k cur.
  - destruct k; reflexivity.
  - destruct k as [|k]; [reflexivity|]. cbn [splitString skipn]. apply IH.
Qed.

Lemma splitString_not_nil (sep : jsstring) :
  forall s k cur, splitString sep k cur s <> [].
Proof.
  induction s as [|c t IH]; intros k cur; cbn [splitString]; [discriminate|].
  destruct k as [|k]; [|apply IH].
  destruct (startsWith sep (c :: t)); [discriminate | apply IH].
Qed.

Lemma startsWith_split (sep s : jsstring) :
  startsWith sep s = true -> s = sep ++ skipn (List.length sep) s.
Proof.
  revert s. induction sep as [|p sep IH]; intros s H; [reflexivity|].
  destruct s as [|c t]; [discriminate|].
  cbn [startsWith] in H. apply andb_prop in H. destruct H as [H1 H2].
  apply N.eqb_eq in H1. subst c. cbn [List.length skipn app]. f_equal.
  apply IH. exact H2.
Qed.

Lemma join_cons (sep p : jsstring) (rest : list jsstring) :
  rest <> [] -> join sep (p :: rest) = p ++ sep ++ join sep rest.
Proof. destruct rest; [congruence | reflexivity]. Qed.

(** Joining the pieces with the separator gives the text back. *)
Lemma join_splitString (sep : jsstring) :
  sep <> [] ->
  forall s cur, join sep (splitString sep 0 cur s) = rev cur ++ s.
Proof.
  intros Hsep s.
  remember (List.length s) as n eqn:Hn.
  assert (Hle : List.length s <= n) by lia. clear Hn.
  revert s Hle. induction n as [|n IH]; intros s Hle cur.
  - destruct s; [|simpl in Hle; lia]. cbn. rewrite app_nil_r. reflexivity.
  - destruct s as [|c t]; [cbn; rewrite app_nil_r; reflexivity|].
    cbn [splitString]. destruct (startsWith sep (c :: t)) eqn:E.
    + rewrite join_cons by apply splitString_not_nil.
      rewrite splitString_skip, IH
        by (rewrite length_skipn; cbn [List.length] in Hle; lia).
      cbn [rev app].
      transitivity (rev cur ++ sep ++ skipn (List.length sep) (c :: t)).
      * destruct sep as [|p sep]; [congruence|].
        cbn [List.length].
        replace (S (List.length sep) - 1) with (List.length sep) by lia. reflexivity.
      * rewrite <- (startsWith_split sep (c :: t) E). reflexivity.
    + rewrite IH by (cbn [List.length] in Hle; lia).
      cbn [rev]. rewrite <- app_assoc. reflexivity.
Qed.

Lemma visible_join (sep : jsstring) (parts : list jsstring) :
  hasNonWhitespace sep = false ->
  filter (fun c => negb (isWhiteSpace c)) (join sep parts)
  = List.concat (map (filter (fun c => negb (isWhiteSpace c))) parts).
Proof.
  intros Hsep.
  assert (Hs : filter (fun c => negb (isWhiteSpace c)) sep = []).
  { unfold hasNonWhitespace in Hsep. clear -Hsep.
    induction sep as [|c t IH]; [reflexivity|].
    cbn [existsb] in Hsep. apply orb_false_elim in Hsep. destruct Hsep as [H1 H2].
    cbn [filter]. rewrite H1. exact (IH H2). }
  induction parts as [|p [|q rest] IH].
  - reflexivity.
  - cbn. rewrite app_nil_r. reflexivity.
  - change (join sep (p :: q :: rest)) with (p ++ sep ++ join sep (q :: rest)).
    rewrite !filter_app, Hs, IH. reflexivity.
Qed.

Lemma blank_has_nothing_visible (p : jsstring) :
  hasNonWhitespace p = false -> filter (fun c => negb (isWhiteSpace c)) p = [].
Proof.
  unfold hasNonWhitespace. induction p as [|c t IH]; [reflexivity|].
  cbn [existsb]. intros H. apply orb_false_elim in H. destruct H as [H1 H2].
  cbn [filter]. rewrite H1. exact (IH H2).
Qed.

(** X4: the blocks [insertContent] hands to the editor are paragraphs
    that each carry text, and together they carry every non-whitespace code
    unit of the content, in order: only blank paragraphs and the blank
    lines between paragraphs are dropped. *)
Theorem inserted_paragraphs_keep_the_text :
  forall content : jsstring,
    Forall (fun b => blockType b = js "paragraph"
                     /\ hasNonWhitespace (blockText b) = true)
           (blocksToInsert content)
    /\ filter (fun c => negb (isWhiteSpace c))
              (List.concat (map blockText (blocksToInsert content)))
       = filter (fun c => negb (isWhiteSpace c)) content.
Proof.
  intros content. unfold blocksToInsert. cbv zeta.
  set (pieces := splitString [LF; LF] 0 [] content).
  split.
  - apply Forall_forall. intros b Hb. apply in_map_iff in Hb.
    destruct Hb as [p [<- Hp]]. apply filter_In in Hp. destruct Hp as [_ Hp].
    rewrite trim_truthy in Hp. split; [reflexivity | exact Hp].
  - rewrite map_map. cbn [blockText]. rewrite map_id.
    assert (Hjoin : join [LF; LF] pieces = content).
    { unfold pieces. rewrite join_splitString by discriminate. reflexivity. }
    clearbody pieces. rewrite <- Hjoin. rewrite visible_join by reflexivity.
    clear Hjoin. induction pieces as [|p rest IH]; [reflexivity|].
    cbn [filter map List.concat]. rewrite trim_truthy.
    destruct (hasNonWhitespace p) eqn:E.
    + cbn [List.concat]. rewrite filter_app, IH. reflexivity.
    + rewrite IH, (blank_has_nothing_visible p E). reflexivity.
Qed.

Example insert_three_paragraphs :
  map blockText (blocksToInsert (text "Intro.||  ||First point.|Still first.|||Last."))
  = [ js "Intro."; text "First point.|Still first."; text "|Last." ].
Proof. reflexivity. Qed.

(** ** The handlers, one and all *)

Import Envelope.

Lemma jseqb_refl (s : jsstring) : Js.eqb s s = true.
Proof. induction s as [|c t IH]; simpl; [reflexivity|]. rewrite N.eqb_refl. exact IH. Qed.

Lemma jseqb_eq (a b : jsstring) : Js.eqb a b = true <-> a = b.
Proof.
  revert b. induction a as [|x a IH]; destruct b as [|y b]; simpl; split;
    try congruence; try discriminate.
  - intros H. apply andb_prop in H. destruct H as [H1 H2].
    apply N.eqb_eq in H1. apply IH in H2. congruence.
  - intros H. injection H as -> ->. rewrite N.eqb_refl. apply jseqb_refl.
Qed.

Lemma jseqb_neq (a b : jsstring) : Js.eqb a b = false <-> a <> b.
Proof.
  split.
  - intros H E. apply jseqb_eq in E. congruence.
  - intros H. destruct (Js.eqb a b) eqn:E; [|reflexivity].
    apply jseqb_eq in E. contradiction.
Qed.

Lemma orderly_refusal (store : Collection) (code : nat) (m : string) :
  In code [400; 401; 404] -> js m <> [] ->
  orderly store {| response := failure code m; db := store; calls := [] |}.
Proof.
  intros Hcode Hm. unfold orderly, uniform, contained. cbn [response db calls].
  assert (S : succeeded (failure code m) = false)
    by (cbn in Hcode; intuition (subst; reflexivity)).
  rewrite S. repeat split; try reflexivity.
  - cbn in Hcode. cbn. intuition.
  - cbn. destruct (js m) as [|c s]; [congruence|]. eexists. eexists. reflexivity.
  - cbn. lia.
Qed.

Lemma orderly_error (store : Collection) (code : nat) (m : string)
      (cs : list CompletionRequest) :
  In code [429; 500] -> js m <> [] -> List.length cs <= 1 ->
  orderly store {| response := failure code m; db := store; calls := cs |}.
Proof.
  intros Hcode Hm Hcs. unfold orderly, uniform, contained. cbn [response db calls].
  assert (S : succeeded (failure code m) = false)
    by (cbn in Hcode; intuition (subst; reflexivity)).
  rewrite S. repeat split; try reflexivity; try exact Hcs.
  - cbn in Hcode. cbn. intuition.
  - cbn. destruct (js m) as [|c s]; [congruence|]. eexists. eexists. reflexivity.
  - cbn [failure status]. cbn in Hcode. cbn. intros H. exfalso.
    intuition (subst; discriminate).
Qed.

Lemma orderly_success (store store' : Collection) (code : nat) (data : json)
      (cs : list CompletionRequest) :
  code = 200 \/ code = 201 -> List.length cs <= 1 ->
  orderly store {| response := successWith code data; db := store'; calls := cs |}.
Proof.
  intros Hcode Hcs. unfold orderly, uniform, contained. cbn [response db calls].
  assert (S : succeeded (successWith code data) = true)
    by (destruct Hcode; subst; reflexivity).
  rewrite S. repeat split; try reflexivity; try exact Hcs.
  - intros H. discriminate.
  - cbn. intros H. exfalso. intuition (subst; discriminate).
Qed.

Lemma orderly_onError (store : Collection) (m : string) (e : Thrown)
      (cs : list CompletionRequest) :
  js m <> [] -> List.length cs <= 1 ->
  orderly store {| response := AiRoutes.onError m e; db := store; calls := cs |}.
Proof.
  intros Hm Hcs. unfold onError.
  destruct e as [message|]; [destruct (includes (js "rate limit") message)|];
    apply orderly_error; try assumption; try (cbn; tauto).
  vm_compute. discriminate.
Qed.

Ltac settle :=
  first [ apply orderly_refusal; [cbn; tauto | vm_compute; discriminate]
        | apply orderly_onError; [vm_compute; discriminate | cbn; lia]
        | apply orderly_error; [cbn; tauto | vm_compute; discriminate | cbn; lia]
        | apply orderly_success; [tauto | cbn; lia] ].

Ltac walk openai :=
  repeat first
    [ settle
    | match goal with
      | |- context [match openai ?r with _ => _ end] => destruct (openai r)
      end
    | match goal with
      | |- orderly _ (if ?c then _ else _) => destruct c
      end ].

Lemma summarize_orderly (openai : Provider) (store : Collection) (req : ReqBody) :
  orderly store (summarize openai store req).
Proof.
  unfold summarize, success. destruct req as [e|[]]; cbv zeta; walk openai.
Qed.

Lemma improve_orderly (openai : Provider) (store : Collection) (req : ReqBody) :
  orderly store (improve openai store req).
Proof.
  unfold improve, success. destruct req as [e|[]]; cbv zeta; walk openai.
Qed.

Lemma generate_orderly (openai : Provider) (store : Collection) (req : ReqBody) :
  orderly store (generate openai store req).
Proof.
  unfold generate, success. destruct req as [e|[]]; cbv zeta; walk openai.
Qed.

Lemma tags_orderly (toLowerCase : jsstring -> jsstring) (openai : Provider)
      (store : Collection) (req : ReqBody) :
  orderly store (AiRoutes.tags toLowerCase openai store req).
Proof.
  unfold AiRoutes.tags, success. destruct req as [e|[]]; cbv zeta; walk openai.
Qed.

Lemma pages_orderly (store : Collection) (user : jsstring) :
  (forall req newId, orderly store (createPage store user req newId))
  /\ (forall pageId, orderly store (getPage store user pageId))
  /\ (forall pageId req, orderly store (updatePage store user pageId req))
  /\ (forall pageId, orderly store (toggleFavorite store user pageId))
  /\ (forall pageId, orderly store (toggleArchive store user pageId))
  /\ (forall pageId, orderly store (deletePage store user pageId)).
Proof.
  split; [|split; [|split; [|split; [|split]]]].
  - intros req newId. unfold createPage, quiet.
    destruct req as [e|[]]; cbv zeta; settle.
  - intros pageId. unfold getPage, quiet, notFound, success.
    destruct (findOne _ store); settle.
  - intros pageId req. unfold updatePage, quiet, notFound, success.
    destruct req as [e|[]]; cbv zeta; try settle.
    destruct (List.length (validatedData members) =? 0); [settle|].
    destruct (findOneAndUpdate _ _ store) as [[q store']|]; settle.
  - intros pageId. unfold toggleFavorite, quiet, notFound, success.
    destruct (findOneAndUpdate _ _ store) as [[q store']|]; settle.
  - intros pageId. unfold toggleArchive, quiet, notFound, success.
    destruct (findOneAndUpdate _ _ store) as [[q store']|]; settle.
  - intros pageId. unfold deletePage, quiet, notFound.
    destruct (findOneAndDelete _ store) as [[q store']|]; [|settle].
    unfold orderly, uniform, contained. cbn.
    repeat split; try lia; intros H; try discriminate; exfalso; intuition discriminate.
Qed.

Lemma handle_orderly (toLowerCase : jsstring -> jsstring) (openai : Provider)
      (store : Collection) (session : option jsstring) (r : App.Request) :
  orderly store (App.handle toLowerCase openai store session r).
Proof.
  destruct session as [user|]; cbn [App.handle]; [|settle].
  pose proof (pages_orderly store user) as [H1 [H2 [H3 [H4 [H5 H6]]]]].
  destruct r; auto using summarize_orderly, improve_orderly, generate_orderly,
                tags_orderly.
Qed.

(** X5: every response is the envelope of its status.  With status 200
    or 201 the body has [success: true] and no [error]; otherwise the
    status is 400, 401, 404, 429 or 500 and the body has [success: false]
    and a non-empty [error] string. *)
Theorem every_response_is_uniform :
  forall (toLowerCase : jsstring -> jsstring) (openai : Provider)
         (store : Collection) (session : option jsstring) (r : App.Request),
    uniform (response (App.handle toLowerCase openai store session r)).
Proof. intros. apply handle_orderly. Qed.

(** X6: a request that fails writes nothing; any request issues at most
    one completion request, and none at all when it is refused with 400,
    401 or 404 or when it goes to a pages route. *)
Theorem a_failure_writes_nothing :
  forall (toLowerCase : jsstring -> jsstring) (openai : Provider)
         (store : Collection) (session : option jsstring) (r : App.Request),
    let o := App.handle toLowerCase openai store session r in
    contained store o
    /\ match r with
       | App.PostSummarize _ | App.PostImprove _
       | App.PostTags _ | App.PostGenerate _ => True
       | _ => calls o = []
       end.
Proof.
  intros lower openai store session r. cbv zeta. split; [apply handle_orderly|].
  destruct session as [user|]; [|destruct r; exact I || reflexivity].
  destruct r; try exact I; cbn [App.handle].
  - unfold createPage. destruct req as [e|[]]; reflexivity.
  - unfold getPage. destruct (findOne _ store); reflexivity.
  - unfold updatePage. destruct req as [e|[]]; try reflexivity.
    cbv zeta. destruct (_ =? 0); [reflexivity|].
    destruct (findOneAndUpdate _ _ store) as [[q s]|]; reflexivity.
  - unfold toggleFavorite.
    destruct (findOneAndUpdate _ _ store) as [[q s]|]; reflexivity.
  - unfold toggleArchive.
    destruct (findOneAndUpdate _ _ store) as [[q s]|]; reflexivity.
  - unfold deletePage.
    destruct (findOneAndDelete _ store) as [[q s]|]; reflexivity.
Qed.

(** ** The AI routes: failures and what is stored *)

Ltac same_request :=
  cbn [calls]; intros Hc; congruence.

(** When the completion request a handler issued throws, the handler
    answers from its [catch] block and writes nothing. *)
Lemma provider_failure_outcome :
  forall (toLowerCase : jsstring -> jsstring) (openai : Provider)
         (store : Collection) (req : ReqBody) (request : CompletionRequest)
         (e : Thrown),
    openai request = Failed e ->
    (calls (summarize openai store req) = [request] ->
       summarize openai store req
       = {| response := onError "Failed to generate summary" e;
            db := store; calls := [request] |})
    /\ (calls (improve openai store req) = [request] ->
          improve openai store req
          = {| response := onError "Failed to improve text" e;
               db := store; calls := [request] |})
    /\ (calls (AiRoutes.tags toLowerCase openai store req) = [request] ->
          AiRoutes.tags toLowerCase openai store req
          = {| response := onError "Failed to generate tags" e;
               db := store; calls := [request] |})
    /\ (calls (generate openai store req) = [request] ->
          generate openai store req
          = {| response := onError "Failed to generate content" e;
               db := store; calls := [request] |}).
Proof.
  intros lower openai store req request e Hfail.
  split; [|split; [|split]].
  - unfold summarize. destruct req as [e0|[]]; cbv zeta; try discriminate;
      repeat match goal with
             | |- context [if ?c then _ else _] => destruct c; try discriminate
             end;
      match goal with |- context [openai ?r] => destruct (openai r) as [e1|reply] eqn:E end;
      try same_request;
      destruct (negb (truthy (trimmedOrEmpty reply)));
      same_request.
  - unfold improve. destruct req as [e0|[]]; cbv zeta; try discriminate;
      repeat match goal with
             | |- context [if ?c then _ else _] => destruct c; try discriminate
             end;
      match goal with |- context [openai ?r] => destruct (openai r) as [e1|reply] eqn:E end;
      try same_request;
      destruct (negb (truthy (trimmedOrEmpty reply)));
      same_request.
  - unfold AiRoutes.tags. destruct req as [e0|[]]; cbv zeta; try discriminate;
      repeat match goal with
             | |- context [if ?c then _ else _] => destruct c; try discriminate
             end;
      match goal with |- context [openai ?r] => destruct (openai r) as [e1|reply] eqn:E end;
      try same_request;
      destruct (negb (truthy (trimmedOrEmpty reply))); [|destruct (_ =? 0)];
      same_request.
  - unfold generate. destruct req as [e0|[]]; cbv zeta; try discriminate;
      repeat match goal with
             | |- context [if ?c then _ else _] => destruct c; try discriminate
             end;
      match goal with |- context [openai ?r] => destruct (openai r) as [e1|reply] eqn:E end;
      try same_request;
      destruct (negb (truthy (trimmedOrEmpty reply)));
      same_request.
Qed.

Lemma startsWith_app (pat post : jsstring) : startsWith pat (pat ++ post) = true.
Proof.
  induction pat as [|p pat IH]; [reflexivity|].
  cbn [app startsWith]. rewrite N.eqb_refl. exact IH.
Qed.

(** [includes] finds the pattern exactly when the text is some text, the
    pattern, and some text. *)
Lemma includes_iff (pat s : jsstring) :
  includes pat s = true <-> exists before after, s = before ++ pat ++ after.
Proof.
  split.
  - induction s as [|c t IH]; cbn [includes]; intros H.
    + rewrite orb_false_r in H. apply startsWith_split in H.
      exists [], (skipn (List.length pat) []). exact H.
    + apply orb_prop in H. destruct H as [H|H].
      * apply startsWith_split in H. exists [], (skipn (List.length pat) (c :: t)).
        exact H.
      * destruct (IH H) as [before [after E]]. exists (c :: before), after.
        rewrite E. reflexivity.
  - intros [before [after E]]. subst s.
    induction before as [|c before IH].
    + cbn [app]. destruct (pat ++ after) as [|x u] eqn:E; cbn [includes];
        rewrite <- E, startsWith_app; reflexivity.
    + cbn [app includes]. rewrite IH. apply orb_true_r.
Qed.

Lemma onError_classified (fallback : string) (e : Thrown) (store : Collection)
      (cs : list CompletionRequest) :
  classified fallback e store {| response := onError fallback e; db := store; calls := cs |}.
Proof.
  unfold classified, mentionsRateLimit, onError. cbn [db response].
  split; [reflexivity|].
  destruct e as [message|].
  - destruct (includes (js "rate limit") message) eqn:I.
    + split; [intros _; repeat split|].
      intros H. exfalso. apply H. apply includes_iff. exact I.
    + split; [|intros _; repeat split].
      intros H. apply includes_iff in H. congruence.
  - split; [intros []|]. intros _. repeat split.
Qed.

(** X7: when the completion request a handler issued throws, nothing is
    written, and the response depends on the thrown value alone: status
    429 with the message of the rate limit exactly when it is an [Error]
    whose message has the words [rate limit] in it (in these letters,
    anywhere), and otherwise status 500 with the message of the route. *)
Theorem provider_failures_are_classified :
  forall (toLowerCase : jsstring -> jsstring) (openai : Provider)
         (store : Collection) (req : ReqBody) (request : CompletionRequest)
         (e : Thrown),
    openai request = Failed e ->
    (calls (summarize openai store req) = [request] ->
       classified "Failed to generate summary" e store (summarize openai store req))
    /\ (calls (improve openai store req) = [request] ->
          classified "Failed to improve text" e store (improve openai store req))
    /\ (calls (AiRoutes.tags toLowerCase openai store req) = [request] ->
          classified "Failed to generate tags" e store
                     (AiRoutes.tags toLowerCase openai store req))
    /\ (calls (generate openai store req) = [request] ->
          classified "Failed to generate content" e store (generate openai store req)).
Proof.
  intros lower openai store req request e Hfail.
  destruct (provider_failure_outcome lower openai store req request e Hfail)
    as [H1 [H2 [H3 H4]]].
  split; [|split; [|split]]; intros Hc.
  - rewrite (H1 Hc). apply onError_classified.
  - rewrite (H2 Hc). apply onError_classified.
  - rewrite (H3 Hc). apply onError_classified.
  - rewrite (H4 Hc). apply onError_classified.
Qed.

(** A message with the words apart, or in capitals, is no rate limit; a
    message with the words in it is one. *)
Lemma provider_failures_are_classified_witness :
  let req := Parsed (object [ ("pageId"%string, JString (js page1));
                              ("content"%string,
                               JString (js "Some text of more than twenty characters.")) ]) in
  let store := [blankPage page1 ann false false] in
  let apart : Provider :=
    fun _ => Failed (ErrorWith (js "Rate Limit: the limit of the rate is 3 per minute")) in
  let within : Provider :=
    fun _ => Failed (ErrorWith (js "Provider returned error: rate limit exceeded")) in
  status (response (summarize apart store req)) = 500
  /\ status (response (summarize within store req)) = 429.
Proof.
  cbv zeta.
  pose proof (provider_failures_are_classified toLowerCaseLatin1
                (fun _ => Failed (ErrorWith (js "Rate Limit: the limit of the rate is 3 per minute")))
                [blankPage page1 ann false false]
                (Parsed (object [ ("pageId"%string, JString (js page1));
                                  ("content"%string,
                                   JString (js "Some text of more than twenty characters.")) ]))
                (summarizeRequest (js "Untitled")
                                  (js "Some text of more than twenty characters."))
                (ErrorWith (js "Rate Limit: the limit of the rate is 3 per minute"))
                eq_refl) as [Hapart _].
  pose proof (provider_failures_are_classified toLowerCaseLatin1
                (fun _ => Failed (ErrorWith (js "Provider returned error: rate limit exceeded")))
                [blankPage page1 ann false false]
                (Parsed (object [ ("pageId"%string, JString (js page1));
                                  ("content"%string,
                                   JString (js "Some text of more than twenty characters.")) ]))
                (summarizeRequest (js "Untitled")
                                  (js "Some text of more than twenty characters."))
                (ErrorWith (js "Provider returned error: rate limit exceeded"))
                eq_refl) as [Hwithin _].
  destruct (Hapart eq_refl) as [_ [_ Hno]].
  destruct (Hwithin eq_refl) as [_ [Hyes _]].
  split.
  - apply Hno. intros H. apply (proj2 (includes_iff _ _)) in H.
    vm_compute in H. discriminate H.
  - apply Hyes. exists (js "Provider returned error: "), (js " exceeded"). reflexivity.
Defined.

Lemma dropWhile_idempotent (p : char16 -> bool) (s : jsstring) :
  dropWhile p (dropWhile p s) = dropWhile p s.
Proof.
  induction s as [|c t IH]; [reflexivity|].
  cbn [dropWhile]. destruct (p c) eqn:E; [exact IH|].
  cbn [dropWhile]. rewrite E. reflexivity.
Qed.

Lemma dropWhile_fixed_head (p : char16 -> bool) (c : char16) (t : jsstring) :
  dropWhile p (c :: t) = c :: t -> p c = false.
Proof.
  cbn [dropWhile]. destruct (p c); [|reflexivity].
  intros H. pose proof (dropWhile_length p t) as L. rewrite H in L.
  cbn [List.length] in L. lia.
Qed.

Lemma dropWhile_is_suffix (p : char16 -> bool) (s : jsstring) :
  exists pre, s = pre ++ dropWhile p s.
Proof.
  induction s as [|c t [pre E]].
  - exists []. reflexivity.
  - cbn [dropWhile]. destruct (p c).
    + exists (c :: pre). cbn [app]. f_equal. exact E.
    + exists []. reflexivity.
Qed.

(** What [trim] returns has no whitespace at either end. *)
Lemma trim_idempotent (s : jsstring) : trim (trim s) = trim s.
Proof.
  unfold trim, trimEnd, trimStart.
  set (d := dropWhile isWhiteSpace s).
  set (r := dropWhile isWhiteSpace (rev d)).
  assert (Hd : dropWhile isWhiteSpace d = d) by apply dropWhile_idempotent.
  assert (Hr : dropWhile isWhiteSpace r = r) by apply dropWhile_idempotent.
  assert (Hfront : dropWhile isWhiteSpace (rev r) = rev r).
  { destruct (dropWhile_is_suffix isWhiteSpace (rev d)) as [pre E]. fold r in E.
    apply (f_equal (@rev _)) in E. rewrite rev_involutive, rev_app_distr in E.
    destruct (rev r) as [|c x] eqn:Er; [reflexivity|].
    rewrite E in Hd. cbn [app] in Hd.
    apply dropWhile_fixed_head in Hd. cbn [dropWhile]. rewrite Hd. reflexivity. }
  rewrite Hfront, rev_involutive, Hr. reflexivity.
Qed.


(** The shape of a [findOneAndUpdate]: the first match, and only it, is
    rewritten. *)
Lemma findOneAndUpdate_shape (filter : Page -> bool) (update : Page -> Page)
      (store : Collection) :
  match findOneAndUpdate filter update store with
  | None => Forall (fun q => filter q = false) store
  | Some (q, store') =>
      exists pre p post,
        store = pre ++ p :: post
        /\ filter p = true
        /\ Forall (fun q => filter q = false) pre
        /\ q = update p
        /\ store' = pre ++ update p :: post
  end.
Proof.
  induction store as [|p rest IH]; cbn [findOneAndUpdate].
  - constructor.
  - destruct (filter p) eqn:E.
    + exists [], p, rest. repeat split; [exact E | constructor].
    + destruct (findOneAndUpdate filter update rest) as [[q rest']|].
      * destruct IH as [pre [p0 [post [H1 [H2 [H3 [H4 H5]]]]]]].
        exists (p :: pre), p0, post. subst rest rest' q.
        repeat split; [exact H2 | constructor; assumption].
      * constructor; assumption.
Qed.





Lemma onError_fails (fallback : string) (e : Thrown) :
  succeeded (onError fallback e) = false.
Proof.
  unfold onError. destruct e as [message|]; [destruct (includes _ message)|]; reflexivity.
Qed.

Ltac refused :=
  match goal with
  | H : succeeded _ = true |- _ =>
      cbn [response trimmedOrEmpty truthy negb] in H;
      first [ discriminate H | rewrite onError_fails in H; discriminate H ]
  end.










(** ** The pages routes: what a write leaves behind *)

Import ObjectIds.

Lemma findOne_first (filter : Page -> bool) (pre post : Collection) (p : Page) :
  Forall (fun q => filter q = false) pre -> filter p = true ->
  findOne filter (pre ++ p :: post) = Some p.
Proof.
  unfold findOne. intros Hpre Hp.
  induction Hpre as [|q pre Hq _ IH]; cbn [app find].
  - rewrite Hp. reflexivity.
  - rewrite Hq. exact IH.
Qed.

Lemma findOne_none (filter : Page -> bool) (store : Collection) :
  Forall (fun q => filter q = false) store -> findOne filter store = None.
Proof.
  unfold findOne. intros H. induction H as [|q l Hq _ IH]; cbn [find]; [reflexivity|].
  rewrite Hq. exact IH.
Qed.

Lemma findOneAndDelete_shape (filter : Page -> bool) (store : Collection) :
  match findOneAndDelete filter store with
  | None => Forall (fun q => filter q = false) store
  | Some (q, store') =>
      exists pre post,
        store = pre ++ q :: post
        /\ filter q = true
        /\ Forall (fun x => filter x = false) pre
        /\ store' = pre ++ post
  end.
Proof.
  induction store as [|p rest IH]; cbn [findOneAndDelete].
  - constructor.
  - destruct (filter p) eqn:E.
    + exists [], rest. repeat split; [exact E | constructor].
    + destruct (findOneAndDelete filter rest) as [[q rest']|].
      * destruct IH as [pre [post [H1 [H2 [H3 H4]]]]].
        exists (p :: pre), post. subst rest rest'.
        repeat split; [exact H2 | constructor; assumption].
      * constructor; assumption.
Qed.

Lemma ownedBy_iff (pageId user : jsstring) (p : Page) :
  ownedBy pageId user p = true <-> _id p = pageId /\ userId p = user.
Proof.
  unfold ownedBy. rewrite andb_true_iff, !jseqb_eq. tauto.
Qed.

(** [$set] of the validated data, field by field. *)
Lemma applySet_validatedData (members : list (jsstring * json)) (p : Page) :
  applySet (validatedData members) p = patched members p.
Proof.
  unfold validatedData, allowedFields, patched, requested.
  cbn [flat_map].
  destruct (lookup (js "title") members), (lookup (js "icon") members),
           (lookup (js "coverImage") members), (lookup (js "content") members),
           (lookup (js "tags") members), (lookup (js "summary") members);
    destruct p; reflexivity.
Qed.

Lemma validatedData_key (members : list (jsstring * json)) :
  validatedData members <> [] ->
  exists key v, In key allowedFields /\ lookup (js key) members = Some v.
Proof.
  intros H. destruct (validatedData members) as [|[k v] rest] eqn:E; [congruence|].
  assert (Hin : In (k, v) (validatedData members)) by (rewrite E; left; reflexivity).
  unfold validatedData in Hin. apply in_flat_map in Hin.
  destruct Hin as [key [Hkey Hkv]].
  destruct (lookup (js key) members) as [w|] eqn:L; [|contradiction].
  exists key, w. split; [exact Hkey | exact L].
Qed.

(** X10: when [PATCH /pages/:id] answers 200 to a body whose allowed
    fields have the types of the schema, the body is an object with at
    least one of the six allowed keys; the first document with that id
    and owner is the only one rewritten; each allowed field takes the
    value of the body when the body has the key and keeps its own
    otherwise; the id, the owner and the two flags are kept; the response
    is the document as stored.  (A value of another type is cast by the
    driver before it is stored, which the embedding leaves out.) *)
Theorem patch_sets_the_allowed_fields_only :
  forall (store : Collection) (user pageId : jsstring) (req : ReqBody),
    schemaTyped req = true ->
    status (response (updatePage store user pageId req)) = 200 ->
    exists (members : list (jsstring * json)) (pre : Collection) (p : Page)
           (post : Collection),
      req = Parsed (JObject members)
      /\ (exists key v, In key allowedFields /\ lookup (js key) members = Some v)
      /\ store = pre ++ p :: post
      /\ _id p = pageId /\ userId p = user
      /\ Forall (fun q => ownedBy pageId user q = false) pre
      /\ db (updatePage store user pageId req) = pre ++ patched members p :: post
      /\ response (updatePage store user pageId req) = success (toJson (patched members p)).
Proof.
  intros store user pageId req _ H. unfold updatePage in *.
  destruct req as [e|[]]; cbv zeta in *; try (cbn in H; discriminate H).
  match type of H with context [validatedData ?m] => rename m into members end.
  destruct (List.length (validatedData members) =? 0) eqn:L; [cbn in H; discriminate H|].
  pose proof (findOneAndUpdate_shape (ownedBy pageId user)
                (applySet (validatedData members)) store) as S.
  destruct (findOneAndUpdate (ownedBy pageId user) (applySet (validatedData members)) store)
    as [[q store']|]; [|cbn in H; discriminate H].
  destruct S as [pre [p [post [H1 [H2 [H3 [H4 H5]]]]]]].
  rewrite applySet_validatedData in H4, H5. subst q store'.
  apply ownedBy_iff in H2. destruct H2 as [Hid Huser].
  exists members, pre, p, post. cbn [quiet response db].
  split; [reflexivity|]. split.
  { apply validatedData_key. intros Z. rewrite Z in L. discriminate L. }
  auto 10.
Qed.

Lemma patch_sets_the_allowed_fields_only_witness :
  let store := [blankPage "p0" "bob" false false; blankPage "p1" "ann" true false] in
  let req := Parsed (object [ ("title"%string, JString (js "Plan"));
                              ("isFavorite"%string, JBool false);
                              ("userId"%string, JString (js "bob")) ]) in
  status (response (updatePage store (js "ann") (js "p1") req)) = 200
  /\ exists p',
       db (updatePage store (js "ann") (js "p1") req)
       = [blankPage "p0" "bob" false false; p']
       /\ title p' = JString (js "Plan")
       /\ userId p' = js "ann" /\ isFavorite p' = true.
Proof.
  cbv zeta. split; [reflexivity|].
  destruct (patch_sets_the_allowed_fields_only
              [blankPage "p0" "bob" false false; blankPage "p1" "ann" true false]
              (js "ann") (js "p1")
              (Parsed (object [ ("title"%string, JString (js "Plan"));
                                ("isFavorite"%string, JBool false);
                                ("userId"%string, JString (js "bob")) ]))
              eq_refl eq_refl)
    as [members [pre [p [post [_ [_ [_ [_ [_ [_ [Hdb _]]]]]]]]]]].
  eexists. split; [reflexivity|]. repeat split.
Defined.

(** X11: a document read back after a successful [PATCH], by the same
    user under the same id, is the document the [PATCH] returned. *)
Theorem patch_then_get_returns_the_patched_document :
  forall (store : Collection) (user pageId : jsstring) (req : ReqBody),
    status (response (updatePage store user pageId req)) = 200 ->
    getPage (db (updatePage store user pageId req)) user pageId
    = quiet (response (updatePage store user pageId req))
            (db (updatePage store user pageId req)).
Proof.
  intros store user pageId req H.
  unfold updatePage in *.
  destruct req as [e|[]]; cbv zeta in *; try (cbn in H; discriminate H).
  match type of H with context [validatedData ?m] => rename m into members end.
  destruct (List.length (validatedData members) =? 0); [cbn in H; discriminate H|].
  pose proof (findOneAndUpdate_shape (ownedBy pageId user)
                (applySet (validatedData members)) store) as S.
  destruct (findOneAndUpdate (ownedBy pageId user) (applySet (validatedData members)) store)
    as [[q store']|]; [|cbn in H; discriminate H].
  destruct S as [pre [p [post [H1 [H2 [H3 [H4 H5]]]]]]].
  cbn [quiet response db]. unfold getPage. subst q store'.
  rewrite findOne_first; [reflexivity | exact H3 |].
  rewrite applySet_validatedData. apply ownedBy_iff. apply ownedBy_iff in H2. exact H2.
Qed.

Lemma patch_then_get_returns_the_patched_document_witness :
  let store := [blankPage "p1" "ann" false false] in
  let req := Parsed (object [ ("tags"%string, JArray [JString (js "todo")]) ]) in
  getPage (db (updatePage store (js "ann") (js "p1") req)) (js "ann") (js "p1")
  = quiet (response (updatePage store (js "ann") (js "p1") req))
          (db (updatePage store (js "ann") (js "p1") req)).
Proof.
  cbv zeta.
  apply (patch_then_get_returns_the_patched_document
           [blankPage "p1" "ann" false false] (js "ann") (js "p1")
           (Parsed (object [ ("tags"%string, JArray [JString (js "todo")]) ]))).
  reflexivity.
Defined.

Lemma setFlags_back (p : Page) :
  setFlags (negb (isFavorite (setFlags (negb (isFavorite p)) (isArchived p) p)))
           (isArchived (setFlags (negb (isFavorite p)) (isArchived p) p))
           (setFlags (negb (isFavorite p)) (isArchived p) p) = p.
Proof. destruct p as [? ? ? ? ? ? ? ? f a]. cbn. rewrite negb_involutive. reflexivity. Qed.

(** X12: with the ids of the driver (of the documents, of the caller and
    of the request), toggling favorite twice restores the collection; the
    two responses are both 404, or report a flag and then its opposite. *)
Theorem favorite_toggled_twice_is_restored :
  forall (store : Collection) (user pageId : jsstring),
    canonicalStore store = true ->
    canonicalId user = true ->
    canonicalId pageId = true ->
    let o1 := toggleFavorite store user pageId in
    let o2 := toggleFavorite (db o1) user pageId in
    db o2 = store
    /\ ((response o1 = notFound /\ response o2 = notFound)
        \/ exists b,
             response o1 = success (JObject [ (js "isFavorite", JBool (negb b)) ])
             /\ response o2 = success (JObject [ (js "isFavorite", JBool b) ])).
Proof.
  intros store user pageId _ _ _. cbv zeta. unfold toggleFavorite.
  set (flip := fun p => setFlags (negb (isFavorite p)) (isArchived p) p).
  pose proof (findOneAndUpdate_shape (ownedBy pageId user) flip store) as S.
  destruct (findOneAndUpdate (ownedBy pageId user) flip store) as [[q store']|] eqn:E.
  - destruct S as [pre [p [post [H1 [H2 [H3 [H4 H5]]]]]]].
    cbn [quiet db response].
    pose proof (findOneAndUpdate_shape (ownedBy pageId user) flip store') as S2.
    assert (F : findOne (ownedBy pageId user) store' = Some (flip p)).
    { subst store'. apply findOne_first; [exact H3|].
      apply ownedBy_iff. apply ownedBy_iff in H2. exact H2. }
    destruct (findOneAndUpdate (ownedBy pageId user) flip store') as [[q2 store2]|] eqn:E2.
    + destruct S2 as [pre2 [p2 [post2 [G1 [G2 [G3 [G4 G5]]]]]]].
      assert (F2 : findOne (ownedBy pageId user) store' = Some p2).
      { rewrite G1. apply findOne_first; assumption. }
      rewrite F in F2. injection F2 as <-.
      assert (Hpre : pre2 = pre /\ post2 = post).
      { subst store'. clear -G1 G3 H3 H2.
        assert (O : ownedBy pageId user (flip p) = true).
        { apply ownedBy_iff. apply ownedBy_iff in H2. exact H2. }
        revert pre2 G1 G3. induction H3 as [|x pre Hx _ IH]; intros pre2 G1 G3.
        - destruct pre2 as [|y pre2]; cbn [app] in G1.
          + injection G1 as <-. auto.
          + injection G1 as <- _. inversion G3; subst. congruence.
        - destruct pre2 as [|y pre2]; cbn [app] in G1.
          + injection G1 as -> _. congruence.
          + injection G1 as <- G1. inversion G3; subst.
            destruct (IH pre2 G1) as [-> ->]; auto. }
      destruct Hpre as [-> ->].
      cbn [quiet db response]. split.
      * subst store2 store. unfold flip. rewrite setFlags_back. reflexivity.
      * right. exists (isFavorite p). subst q q2. unfold flip.
        destruct p as [? ? ? ? ? ? ? ? f a]. cbn. rewrite negb_involutive. auto.
    + exfalso. rewrite (findOne_none _ _ S2) in F. discriminate F.
  - cbn [quiet db response]. rewrite E. cbn [quiet db response]. auto.
Qed.

(** Bob marks his page, then unmarks it. *)
Lemma favorite_toggled_twice_is_restored_witness :
  let store := [blankPage page1 ann false true; blankPage page2 bob false false] in
  let o1 := toggleFavorite store (js bob) (js page2) in
  let o2 := toggleFavorite (db o1) (js bob) (js page2) in
  db o1 = [blankPage page1 ann false true; blankPage page2 bob true false]
  /\ db o2 = store.
Proof.
  cbv zeta. split; [reflexivity|].
  apply (favorite_toggled_twice_is_restored
           [blankPage page1 ann false true; blankPage page2 bob false false]
           (js bob) (js page2)); reflexivity.
Defined.

Lemma find_app_miss {A} (f : A -> bool) (l : list A) (x : A) (r : list A) :
  f x = false -> find f (l ++ x :: r) = find f (l ++ r).
Proof.
  intros Hx. induction l as [|y l IH]; cbn [app find].
  - rewrite Hx. reflexivity.
  - destruct (f y); [reflexivity | exact IH].
Qed.

Lemma ownedBy_other (pageId user id u : jsstring) (p : Page) :
  _id p = pageId -> userId p = user -> id <> pageId \/ u <> user ->
  ownedBy id u p = false.
Proof.
  intros Hid Hu Hne. destruct (ownedBy id u p) eqn:E; [|reflexivity].
  apply ownedBy_iff in E. destruct E as [E1 E2]. exfalso.
  destruct Hne as [Hne|Hne]; apply Hne; congruence.
Qed.

(** X13: with the ids of the driver, a page created under a fresh id is
    read back by its creator as it was returned, is not found by anyone
    else, and changes the answer to no other read made with such ids. *)
Theorem created_page_is_read_back :
  forall (store : Collection) (user : jsstring) (req : ReqBody) (newId : jsstring),
    canonicalStore store = true ->
    canonicalId user = true ->
    canonicalId newId = true ->
    ~ In newId (ids store) ->
    status (response (createPage store user req newId)) = 201 ->
    let o := createPage store user req newId in
    status (response (getPage (db o) user newId)) = 200
    /\ body (response (getPage (db o) user newId)) = body (response o)
    /\ (forall id u,
          canonicalId id = true -> canonicalId u = true ->
          id <> newId \/ u <> user ->
          response (getPage (db o) u id) = response (getPage store u id))
    /\ ids (db o) = ids store ++ [newId].
Proof.
  intros store user req newId _ _ _ Hfresh H. cbv zeta. unfold createPage in *.
  destruct req as [e|body0]; [cbn in H; discriminate H|].
  assert (Hpre : Forall (fun q => ownedBy newId user q = false) store).
  { apply Forall_forall. intros q Hq.
    destruct (ownedBy newId user q) eqn:E; [|reflexivity].
    apply ownedBy_iff in E. destruct E as [E _]. exfalso. apply Hfresh.
    unfold ids. rewrite <- E. apply in_map. exact Hq. }
  destruct body0; cbv zeta in *; try (cbn in H; discriminate H);
    cbn [quiet db response];
    (match goal with
     | |- context [store ++ [?pg]] => set (page := pg)
     end;
     assert (Hown : ownedBy newId user page = true)
       by (apply ownedBy_iff; split; reflexivity);
     unfold getPage;
     rewrite (findOne_first _ store [] page Hpre Hown);
     cbn [quiet response];
     split; [reflexivity|]; split; [reflexivity|]; split;
     [ intros id u _ _ Hne; unfold findOne;
       rewrite (find_app_miss _ store page []);
       [ rewrite app_nil_r; destruct (find (ownedBy id u) store); reflexivity
       | apply (ownedBy_other newId user); [reflexivity | reflexivity | exact Hne] ]
     | unfold ids; rewrite map_app; reflexivity ]).
Qed.

Lemma created_page_is_read_back_witness :
  let store := [blankPage page1 ann false false] in
  let o := createPage store (js bob) (Parsed (object [ ("title"%string, JString (js "Ideas")) ]))
             (js page2) in
  status (response (getPage (db o) (js bob) (js page2))) = 200
  /\ body (response (getPage (db o) (js bob) (js page2))) = body (response o)
  /\ (forall id u,
        canonicalId id = true -> canonicalId u = true ->
        id <> js page2 \/ u <> js bob ->
        response (getPage (db o) u id) = response (getPage store u id))
  /\ ids (db o) = ids store ++ [js page2].
Proof.
  cbv zeta.
  apply (created_page_is_read_back [blankPage page1 ann false false] (js bob)
           (Parsed (object [ ("title"%string, JString (js "Ideas")) ])) (js page2)).
  - reflexivity.
  - reflexivity.
  - reflexivity.
  - vm_compute. intros [H|[]]. discriminate H.
  - reflexivity.
Defined.

Lemma NoDup_ids_split (pre post : Collection) (q : Page) :
  NoDup (ids (pre ++ q :: post)) ->
  Forall (fun x => _id x <> _id q) (pre ++ post).
Proof.
  unfold ids. rewrite map_app. cbn [map]. intros H.
  apply NoDup_remove_2 in H. rewrite <- map_app in H.
  apply Forall_forall. intros x Hx E. apply H. rewrite <- E. apply in_map. exact Hx.
Qed.

(** X14: with the ids of the driver, in a collection of unique ids, a
    page deleted with status 200 is not found afterwards, the collection
    is one document shorter, and no other read made with such ids changes
    its answer. *)
Theorem deleted_page_is_gone :
  forall (store : Collection) (user pageId : jsstring),
    canonicalStore store = true ->
    canonicalId user = true ->
    canonicalId pageId = true ->
    NoDup (ids store) ->
    status (response (deletePage store user pageId)) = 200 ->
    let o := deletePage store user pageId in
    response (getPage (db o) user pageId) = notFound
    /\ (forall id u,
          canonicalId id = true -> canonicalId u = true ->
          id <> pageId \/ u <> user ->
          response (getPage (db o) u id) = response (getPage store u id))
    /\ S (List.length (db o)) = List.length store
    /\ NoDup (ids (db o)).
Proof.
  intros store user pageId _ _ _ Hnd H. cbv zeta. unfold deletePage in *.
  pose proof (findOneAndDelete_shape (ownedBy pageId user) store) as S.
  destruct (findOneAndDelete (ownedBy pageId user) store) as [[q store']|];
    [|cbn in H; discriminate H].
  destruct S as [pre [post [H1 [H2 [H3 H4]]]]]. subst store store'.
  apply ownedBy_iff in H2. destruct H2 as [Hid Huser].
  cbn [quiet db response]. unfold getPage.
  split; [|split; [|split]].
  - rewrite findOne_none; [reflexivity|].
    apply NoDup_ids_split in Hnd. revert Hnd. apply Forall_impl.
    intros x Hx. destruct (ownedBy pageId user x) eqn:E; [|reflexivity].
    apply ownedBy_iff in E. destruct E as [E _]. congruence.
  - intros id u _ _ Hne. unfold findOne.
    rewrite (find_app_miss _ pre q post);
      [ destruct (find (ownedBy id u) (pre ++ post)); reflexivity
      | apply (ownedBy_other pageId user); assumption ].
  - rewrite !length_app. cbn [List.length]. lia.
  - unfold ids in *. rewrite map_app in *. cbn [map] in Hnd.
    apply NoDup_remove_1 in Hnd. exact Hnd.
Qed.

Lemma deleted_page_is_gone_witness :
  let store := [blankPage page1 ann false true; blankPage page2 ann false false] in
  let o := deletePage store (js ann) (js page1) in
  response (getPage (db o) (js ann) (js page1)) = notFound
  /\ (forall id u,
        canonicalId id = true -> canonicalId u = true ->
        id <> js page1 \/ u <> js ann ->
        response (getPage (db o) u id) = response (getPage store u id))
  /\ S (List.length (db o)) = List.length store
  /\ NoDup (ids (db o)).
Proof.
  cbv zeta.
  apply (deleted_page_is_gone
           [blankPage page1 ann false true; blankPage page2 ann false false]
           (js ann) (js page1)).
  - reflexivity.
  - reflexivity.
  - reflexivity.
  - vm_compute. constructor.
    + intros [H|[]]. discriminate H.
    + constructor; [intros [] | constructor].
  - reflexivity.
Defined.

Lemma othersOf_app (user : jsstring) (a b : Collection) :
  othersOf user (a ++ b) = othersOf user a ++ othersOf user b.
Proof. unfold othersOf. apply filter_app. Qed.

Lemma othersOf_own (user : jsstring) (p : Page) (rest : Collection) :
  userId p = user -> othersOf user (p :: rest) = othersOf user rest.
Proof.
  intros H. unfold othersOf. cbn [filter]. rewrite <- H, jseqb_refl. reflexivity.
Qed.

Lemma update_leaves_others (user pageId : jsstring) (update : Page -> Page)
      (store store' : Collection) (q : Page) :
  (forall p, userId (update p) = userId p) ->
  findOneAndUpdate (ownedBy pageId user) update store = Some (q, store') ->
  othersOf user store' = othersOf user store.
Proof.
  intros Hupd E.
  pose proof (findOneAndUpdate_shape (ownedBy pageId user) update store) as S.
  rewrite E in S. destruct S as [pre [p [post [H1 [H2 [_ [_ H5]]]]]]].
  apply ownedBy_iff in H2. destruct H2 as [_ Hu]. subst store store'.
  rewrite !othersOf_app, !othersOf_own; [reflexivity | exact Hu |].
  rewrite Hupd. exact Hu.
Qed.

Lemma delete_leaves_others (user pageId : jsstring) (store store' : Collection) (q : Page) :
  findOneAndDelete (ownedBy pageId user) store = Some (q, store') ->
  othersOf user store' = othersOf user store.
Proof.
  intros E.
  pose proof (findOneAndDelete_shape (ownedBy pageId user) store) as S.
  rewrite E in S. destruct S as [pre [post [H1 [H2 [_ H4]]]]].
  apply ownedBy_iff in H2. destruct H2 as [_ Hu]. subst store store'.
  rewrite !othersOf_app, othersOf_own; [reflexivity | exact Hu].
Qed.

Lemma applySet_userId (data : list (string * json)) (p : Page) :
  userId (applySet data p) = userId p.
Proof.
  unfold applySet. revert p.
  induction data as [|[k v] rest IH]; intros p; cbn [fold_left fst snd]; [reflexivity|].
  rewrite IH. apply setField_frame.
Qed.

Lemma applySet_id (data : list (string * json)) (p : Page) :
  _id (applySet data p) = _id p.
Proof.
  unfold applySet. revert p.
  induction data as [|[k v] rest IH]; intros p; cbn [fold_left fst snd]; [reflexivity|].
  rewrite IH. apply setField_frame.
Qed.

(** X15: the pages routes, [POST /ai/improve] and [POST /ai/generate]
    leave the documents of every other user as they were, in content and
    in order. *)
Theorem owner_checked_routes_leave_others_alone :
  forall (toLowerCase : jsstring -> jsstring) (openai : Provider)
         (store : Collection) (user : jsstring) (r : App.Request),
    ownerChecked r = true ->
    othersOf user (db (App.handle toLowerCase openai store (Some user) r))
    = othersOf user store.
Proof.
  intros lower openai store user r Hr.
  destruct r as [req newId|pageId|pageId req|pageId|pageId|pageId|req|req|req|req];
    try discriminate Hr; cbn [App.handle].
  - unfold createPage. destruct req as [e|[]]; try reflexivity;
      cbv zeta; cbn [quiet db]; rewrite othersOf_app, othersOf_own;
      try reflexivity; apply app_nil_r.
  - unfold getPage. destruct (findOne _ store); reflexivity.
  - unfold updatePage. destruct req as [e|[]]; try reflexivity. cbv zeta.
    destruct (_ =? 0); [reflexivity|].
    destruct (findOneAndUpdate _ _ store) as [[q store']|] eqn:E; [|reflexivity].
    cbn [quiet db]. eapply update_leaves_others; [|exact E].
    intros p. apply applySet_userId.
  - unfold toggleFavorite.
    destruct (findOneAndUpdate _ _ store) as [[q store']|] eqn:E; [|reflexivity].
    cbn [quiet db]. eapply update_leaves_others; [|exact E]. reflexivity.
  - unfold toggleArchive.
    destruct (findOneAndUpdate _ _ store) as [[q store']|] eqn:E; [|reflexivity].
    cbn [quiet db]. eapply update_leaves_others; [|exact E].
    intros p. cbv beta zeta. destruct (negb (isArchived p)); reflexivity.
  - unfold deletePage.
    destruct (findOneAndDelete _ store) as [[q store']|] eqn:E; [|reflexivity].
    cbn [quiet db]. eapply delete_leaves_others. exact E.
  - rewrite improve_db. reflexivity.
  - rewrite generate_db. reflexivity.
Qed.

Lemma owner_checked_routes_leave_others_alone_witness :
  let store := [blankPage "p1" "ann" false false; blankPage "p2" "bob" true false] in
  othersOf (js "bob")
    (db (App.handle toLowerCaseLatin1 (answering (js "unused")) store (Some (js "bob"))
           (App.DeletePage (js "p1"))))
  = othersOf (js "bob") store.
Proof.
  cbv zeta.
  apply (owner_checked_routes_leave_others_alone toLowerCaseLatin1
           (answering (js "unused"))
           [blankPage "p1" "ann" false false; blankPage "p2" "bob" true false]
           (js "bob") (App.DeletePage (js "p1"))).
  reflexivity.
Defined.

Lemma update_keeps_ids (filter : Page -> bool) (update : Page -> Page)
      (store store' : Collection) (q : Page) :
  (forall p, _id (update p) = _id p) ->
  findOneAndUpdate filter update store = Some (q, store') ->
  ids store' = ids store.
Proof.
  intros Hupd E.
  pose proof (findOneAndUpdate_shape filter update store) as S.
  rewrite E in S. destruct S as [pre [p [post [H1 [_ [_ [_ H5]]]]]]].
  subst store store'. unfold ids. rewrite !map_app. cbn [map]. rewrite Hupd. reflexivity.
Qed.

Lemma findByIdAndUpdate_keeps_ids (pageId : jsstring) (update : Page -> Page)
      (store : Collection) :
  (forall p, _id (update p) = _id p) ->
  ids (findByIdAndUpdate pageId update store) = ids store.
Proof.
  intros Hupd. unfold findByIdAndUpdate.
  destruct (findOneAndUpdate (hasId pageId) update store) as [[q store']|] eqn:E;
    [|reflexivity].
  eapply update_keeps_ids; eauto.
Qed.

Lemma NoDup_snoc {A} (l : list A) (x : A) : NoDup l -> ~ In x l -> NoDup (l ++ [x]).
Proof.
  intros Hnd Hx. induction Hnd as [|y l Hy _ IH]; cbn [app].
  - constructor; [intros [] | constructor].
  - constructor.
    + rewrite in_app_iff. intros [H|[H|[]]]; [exact (Hy H)|].
      apply Hx. left. symmetry. exact H.
    + apply IH. intros H. apply Hx. right. exact H.
Qed.

(** X16: ids stay unique.  From a collection of unique ids, every request
    leaves a collection of unique ids, provided the driver gives a new
    document an id that is not in use; and only [POST /pages] and
    [DELETE /pages/:id] change which ids there are. *)
Theorem ids_stay_unique :
  forall (toLowerCase : jsstring -> jsstring) (openai : Provider)
         (store : Collection) (session : option jsstring) (r : App.Request),
    NoDup (ids store) ->
    (forall req newId, r = App.PostPage req newId -> ~ In newId (ids store)) ->
    NoDup (ids (db (App.handle toLowerCase openai store session r)))
    /\ ((forall req newId, r <> App.PostPage req newId) ->
        (forall pageId, r <> App.DeletePage pageId) ->
        ids (db (App.handle toLowerCase openai store session r)) = ids store).
Proof.
  intros lower openai store session r Hnd Hfresh.
  assert (K : forall o, ids (db o) = ids store ->
                        NoDup (ids (db o)) /\ (ids (db o) = ids store)).
  { intros o E. rewrite E. auto. }
  destruct session as [user|]; cbn [App.handle];
    [|split; [exact Hnd | reflexivity]].
  destruct r as [req newId|pageId|pageId req|pageId|pageId|pageId|req|req|req|req].
  - split; [|intros C; exfalso; exact (C req newId eq_refl)].
    specialize (Hfresh req newId eq_refl).
    unfold createPage. destruct req as [e|[]]; try exact Hnd;
      cbv zeta; cbn [quiet db]; unfold ids in *; rewrite map_app; cbn [map];
      apply NoDup_snoc; assumption.
  - split; [|intros _ _]; apply K; unfold getPage; destruct (findOne _ store); reflexivity.
  - assert (E : ids (db (updatePage store user pageId req)) = ids store).
    { unfold updatePage. destruct req as [e|[]]; try reflexivity. cbv zeta.
      destruct (_ =? 0); [reflexivity|].
      destruct (findOneAndUpdate _ _ store) as [[q store']|] eqn:E; [|reflexivity].
      cbn [quiet db]. eapply update_keeps_ids; [|exact E].
      intros p. apply applySet_id. }
    rewrite E. auto.
  - assert (E : ids (db (toggleFavorite store user pageId)) = ids store).
    { unfold toggleFavorite.
      destruct (findOneAndUpdate _ _ store) as [[q store']|] eqn:E; [|reflexivity].
      cbn [quiet db]. eapply update_keeps_ids; [|exact E]. reflexivity. }
    rewrite E. auto.
  - assert (E : ids (db (toggleArchive store user pageId)) = ids store).
    { unfold toggleArchive.
      destruct (findOneAndUpdate _ _ store) as [[q store']|] eqn:E; [|reflexivity].
      cbn [quiet db]. eapply update_keeps_ids; [|exact E].
      intros p. cbv beta zeta. destruct (negb (isArchived p)); reflexivity. }
    rewrite E. auto.
  - split; [|intros _ C; exfalso; exact (C pageId eq_refl)].
    unfold deletePage.
    pose proof (findOneAndDelete_shape (ownedBy pageId user) store) as S.
    destruct (findOneAndDelete _ store) as [[q store']|]; [|exact Hnd].
    destruct S as [pre [post [H1 [_ [_ H4]]]]]. subst store store'.
    cbn [quiet db]. unfold ids in *. rewrite map_app in *. cbn [map] in Hnd.
    apply NoDup_remove_1 in Hnd. exact Hnd.
  - assert (E : ids (db (summarize openai store req)) = ids store).
    { destruct (summarize_db openai store req) as [E|[pageId [v E]]]; rewrite E;
        [reflexivity|].
      apply findByIdAndUpdate_keeps_ids. intros p. apply setField_frame. }
    rewrite E. auto.
  - rewrite improve_db. auto.
  - assert (E : ids (db (AiRoutes.tags lower openai store req)) = ids store).
    { destruct (tags_db lower openai store req) as [E|[pageId [v E]]]; rewrite E;
        [reflexivity|].
      apply findByIdAndUpdate_keeps_ids. intros p. apply setField_frame. }
    rewrite E. auto.
  - rewrite generate_db. auto.
Qed.

Lemma ids_stay_unique_witness :
  let store := [blankPage "p1" "ann" false false; blankPage "p2" "bob" true false] in
  NoDup (ids (db (App.handle toLowerCaseLatin1 (answering (js "unused")) store
                    (Some (js "bob")) (App.PostPage (Parsed (object [])) (js "p3"))))).
Proof.
  cbv zeta.
  apply (ids_stay_unique toLowerCaseLatin1 (answering (js "unused"))
           [blankPage "p1" "ann" false false; blankPage "p2" "bob" true false]
           (Some (js "bob")) (App.PostPage (Parsed (object [])) (js "p3"))).
  - vm_compute. constructor.
    + intros [H|[]]. discriminate H.
    + constructor; [intros [] | constructor].
  - intros req newId E. injection E as _ <-. vm_compute.
    intros [H|[H|[]]]; discriminate H.
Defined.

Lemma findOneAndUpdate_first (filter : Page -> bool) (update : Page -> Page)
      (pre post : Collection) (p : Page) :
  Forall (fun q => filter q = false) pre -> filter p = true ->
  findOneAndUpdate filter update (pre ++ p :: post)
  = Some (update p, pre ++ update p :: post).
Proof.
  intros Hpre Hp. induction Hpre as [|q pre Hq _ IH]; cbn [app findOneAndUpdate].
  - rewrite Hp. reflexivity.
  - rewrite Hq, IH. reflexivity.
Qed.

Lemma findOneAndDelete_first (filter : Page -> bool) (pre post : Collection) (p : Page) :
  Forall (fun q => filter q = false) pre -> filter p = true ->
  findOneAndDelete filter (pre ++ p :: post) = Some (p, pre ++ post).
Proof.
  intros Hpre Hp. induction Hpre as [|q pre Hq _ IH]; cbn [app findOneAndDelete].
  - rewrite Hp. reflexivity.
  - rewrite Hq, IH. reflexivity.
Qed.

Lemma patched_twice (members : list (jsstring * json)) (p : Page) :
  patched members (patched members p) = patched members p.
Proof.
  unfold patched, requested. cbn [_id userId title icon coverImage content tags summary
                                   isFavorite isArchived].
  destruct (lookup (js "title") members), (lookup (js "icon") members),
           (lookup (js "coverImage") members), (lookup (js "content") members),
           (lookup (js "tags") members), (lookup (js "summary") members);
    reflexivity.
Qed.

(** X28: [PATCH /pages/:id] is idempotent: the same request sent again
    gets the same response and leaves the collection as the first one
    left it. *)
Theorem patch_twice_is_patch_once :
  forall (store : Collection) (user pageId : jsstring) (req : ReqBody),
    let o1 := updatePage store user pageId req in
    let o2 := updatePage (db o1) user pageId req in
    db o2 = db o1 /\ response o2 = response o1.
Proof.
  intros store user pageId req. cbv zeta. unfold updatePage.
  destruct req as [e|[]]; cbv zeta; cbn [quiet db response]; auto.
  match goal with |- context [validatedData ?m] => rename m into members end.
  destruct (List.length (validatedData members) =? 0); cbn [quiet db response]; auto.
  pose proof (findOneAndUpdate_shape (ownedBy pageId user)
                (applySet (validatedData members)) store) as S.
  destruct (findOneAndUpdate (ownedBy pageId user) (applySet (validatedData members)) store)
    as [[q store']|] eqn:E; cbn [quiet db response].
  - destruct S as [pre [p [post [H1 [H2 [H3 [H4 H5]]]]]]]. subst q store'.
    rewrite findOneAndUpdate_first; [| exact H3 |].
    + rewrite !applySet_validatedData, patched_twice. cbn [quiet db response]. auto.
    + rewrite applySet_validatedData. apply ownedBy_iff. apply ownedBy_iff in H2.
      exact H2.
  - rewrite E. cbn [quiet db response]. auto.
Qed.

(** X29: a page created under a fresh id and then deleted by its creator
    leaves the collection as it was before the two requests; the delete
    answers 200. *)
Theorem create_then_delete_restores_the_collection :
  forall (store : Collection) (user : jsstring) (req : ReqBody) (newId : jsstring),
    ~ In newId (ids store) ->
    status (response (createPage store user req newId)) = 201 ->
    let o := createPage store user req newId in
    db (deletePage (db o) user newId) = store
    /\ status (response (deletePage (db o) user newId)) = 200.
Proof.
  intros store user req newId Hfresh H. cbv zeta. unfold createPage in *.
  destruct req as [e|body0]; [cbn in H; discriminate H|].
  assert (Hpre : Forall (fun q => ownedBy newId user q = false) store).
  { apply Forall_forall. intros q Hq.
    destruct (ownedBy newId user q) eqn:E; [|reflexivity].
    apply ownedBy_iff in E. destruct E as [E _]. exfalso. apply Hfresh.
    unfold ids. rewrite <- E. apply in_map. exact Hq. }
  destruct body0; cbv zeta in *; try (cbn in H; discriminate H);
    cbn [quiet db response]; unfold deletePage;
    (rewrite findOneAndDelete_first;
     [ cbn [quiet db response status]; rewrite app_nil_r; split; reflexivity
     | exact Hpre
     | apply ownedBy_iff; split; reflexivity ]).
Qed.

Lemma create_then_delete_restores_the_collection_witness :
  let store := [blankPage "p1" "ann" false false] in
  let o := createPage store (js "ann") (Parsed (object [])) (js "p2") in
  db (deletePage (db o) (js "ann") (js "p2")) = store
  /\ status (response (deletePage (db o) (js "ann") (js "p2"))) = 200.
Proof.
  cbv zeta.
  apply (create_then_delete_restores_the_collection
           [blankPage "p1" "ann" false false] (js "ann") (Parsed (object [])) (js "p2")).
  - vm_compute. intros [H|[]]. discriminate H.
  - reflexivity.
Defined.

(** ** The listings *)

Import Listings.

Section ListingFacts.

Variable updatedAt : Page -> nat.

Lemma insertByDate_perm (p : Page) (l : list Page) :
  Permutation (insertByDate updatedAt p l) (p :: l).
Proof.
  induction l as [|q rest IH]; cbn [insertByDate]; [apply Permutation_refl|].
  destruct (updatedAt q <? updatedAt p); [apply Permutation_refl|].
  eapply perm_trans; [apply perm_skip; exact IH | apply perm_swap].
Qed.

Lemma sortByUpdatedAt_perm (l : list Page) :
  Permutation (sortByUpdatedAt updatedAt l) l.
Proof.
  induction l as [|p rest IH]; cbn [sortByUpdatedAt fold_right]; [constructor|].
  eapply perm_trans; [apply insertByDate_perm | apply perm_skip; exact IH].
Qed.

Lemma insertByDate_newestFirst (p : Page) (l : list Page) :
  newestFirst updatedAt l -> newestFirst updatedAt (insertByDate updatedAt p l).
Proof.
  induction l as [|q rest IH]; cbn [insertByDate newestFirst].
  - intros _. split; [constructor | exact I].
  - intros [Hq Hrest]. destruct (updatedAt q <? updatedAt p) eqn:E.
    + apply Nat.ltb_lt in E. cbn [newestFirst]. split; [|split; assumption].
      constructor; [lia|]. revert Hq. apply Forall_impl. intros x Hx. lia.
    + apply Nat.ltb_ge in E. cbn [newestFirst]. split; [|apply IH; exact Hrest].
      apply Forall_forall. intros x Hx.
      apply (Permutation_in _ (insertByDate_perm p rest)) in Hx.
      destruct Hx as [<-|Hx]; [exact E|].
      rewrite Forall_forall in Hq. apply Hq. exact Hx.
Qed.

Lemma sortByUpdatedAt_newestFirst (l : list Page) :
  newestFirst updatedAt (sortByUpdatedAt updatedAt l).
Proof.
  induction l as [|p rest IH]; cbn [sortByUpdatedAt fold_right]; [exact I|].
  apply insertByDate_newestFirst. exact IH.
Qed.

Lemma in_firstn (n : nat) (l : list Page) (x : Page) : In x (firstn n l) -> In x l.
Proof.
  revert n. induction l as [|y rest IH]; intros [|n]; cbn [firstn In]; try tauto.
  intros [H|H]; [left; exact H | right; exact (IH n H)].
Qed.

Lemma newestFirst_firstn (n : nat) (l : list Page) :
  newestFirst updatedAt l -> newestFirst updatedAt (firstn n l).
Proof.
  revert n. induction l as [|p rest IH]; intros [|n]; cbn [firstn newestFirst]; auto.
  intros [Hp Hrest]. split; [|apply IH; exact Hrest].
  apply Forall_forall. intros x Hx. rewrite Forall_forall in Hp. apply Hp.
  exact (in_firstn _ _ _ Hx).
Qed.

Lemma filter_split (g a : Page -> bool) (l : list Page) :
  Permutation (filter (fun p => g p && negb (a p)) l ++ filter (fun p => g p && a p) l)
              (filter g l).
Proof.
  induction l as [|p rest IH]; cbn [filter app]; [constructor|].
  destruct (g p), (a p); cbn [andb negb app].
  - apply Permutation_sym. eapply perm_trans;
      [apply perm_skip; apply Permutation_sym; exact IH | apply Permutation_middle].
  - apply perm_skip. exact IH.
  - exact IH.
  - exact IH.
Qed.

Lemma in_sorted (f : Page -> bool) (store : Collection) (p : Page) :
  In p (sortByUpdatedAt updatedAt (filter f store)) <-> In p store /\ f p = true.
Proof.
  rewrite <- filter_In. split; apply Permutation_in;
    [|apply Permutation_sym]; apply sortByUpdatedAt_perm.
Qed.

(** X17: the sidebar list and the trash divide the documents of the user
    between them: together they are a rearrangement of these documents,
    the first holds those not archived and the second those archived,
    and each runs from the most recently updated to the least. *)
Theorem list_and_trash_divide_the_pages :
  forall (store : Collection) (user : jsstring),
    Permutation (listPages updatedAt store user ++ trashPages updatedAt store user)
                (filter (fun p => Js.eqb (userId p) user) store)
    /\ Forall (fun p => isArchived p = false) (listPages updatedAt store user)
    /\ Forall (fun p => isArchived p = true) (trashPages updatedAt store user)
    /\ newestFirst updatedAt (listPages updatedAt store user)
    /\ newestFirst updatedAt (trashPages updatedAt store user).
Proof.
  intros store user. unfold listPages, trashPages.
  split; [|split; [|split; [|split]]].
  - eapply perm_trans; [|apply filter_split].
    apply Permutation_app; apply sortByUpdatedAt_perm.
  - apply Forall_forall. intros p Hp. apply in_sorted in Hp. destruct Hp as [_ Hp].
    apply andb_prop in Hp. destruct Hp as [_ Hp]. destruct (isArchived p); [discriminate|].
    reflexivity.
  - apply Forall_forall. intros p Hp. apply in_sorted in Hp. destruct Hp as [_ Hp].
    apply andb_prop in Hp. tauto.
  - apply sortByUpdatedAt_newestFirst.
  - apply sortByUpdatedAt_newestFirst.
Qed.

(** X18: a search returns nothing for a query that is absent or blank;
    otherwise at most twenty documents, each of them in the sidebar list
    of the user with a title the query matches, from the most recently
    updated to the least. *)
Theorem search_stays_within_the_list :
  forall (titleMatches : jsstring -> json -> bool)
         (store : Collection) (user : jsstring) (q : option jsstring),
    let found := searchPages updatedAt titleMatches store user q in
    List.length found <= 20
    /\ newestFirst updatedAt found
    /\ (forall p, In p found ->
          In p (listPages updatedAt store user)
          /\ exists query, q = Some query /\ trim query <> []
                           /\ titleMatches query (title p) = true)
    /\ (q = None \/ (exists query, q = Some query /\ trim query = []) -> found = []).
Proof.
  intros titleMatches store user q. cbv zeta. unfold searchPages.
  set (query := match q with Some s => s | None => [] end).
  destruct (negb (truthy (trim query))) eqn:B.
  - split; [cbn; lia|]. split; [exact I|]. split; [intros p []|]. reflexivity.
  - split; [apply firstn_le_length|].
    split; [apply newestFirst_firstn; apply sortByUpdatedAt_newestFirst|].
    assert (T : trim query <> []).
    { intros Z. rewrite Z in B. discriminate B. }
    split.
    + intros p Hp. apply in_firstn in Hp. apply in_sorted in Hp.
      destruct Hp as [Hin Hf]. apply andb_prop in Hf. destruct Hf as [Hf Hm].
      split; [unfold listPages; apply in_sorted; auto|].
      destruct q as [s|]; [exists s; auto|].
      exfalso. apply T. reflexivity.
    + intros [->|[s [-> Hs]]]; exfalso; apply T; [reflexivity | exact Hs].
Qed.

Lemma in_ids_sorted (f : Page -> bool) (store : Collection) (id : jsstring) :
  In id (ids (sortByUpdatedAt updatedAt (filter f store)))
  <-> exists x, In x store /\ f x = true /\ _id x = id.
Proof.
  unfold ids. rewrite in_map_iff. split.
  - intros [x [Hid Hx]]. apply in_sorted in Hx. exists x. tauto.
  - intros [x [Hx [Hf Hid]]]. exists x. split; [exact Hid|]. apply in_sorted. tauto.
Qed.

Lemma in_ids_replaced (f : Page -> bool) (pre post : Collection) (p p' : Page)
      (id : jsstring) :
  _id p' = _id p ->
  Forall (fun x => _id x <> _id p) (pre ++ post) ->
  (In id (ids (sortByUpdatedAt updatedAt (filter f (pre ++ p' :: post))))
   <-> (id = _id p /\ f p' = true)
       \/ (id <> _id p
           /\ In id (ids (sortByUpdatedAt updatedAt (filter f (pre ++ p :: post)))))).
Proof.
  intros Hid Hothers. rewrite !in_ids_sorted. rewrite Forall_forall in Hothers.
  split.
  - intros [x [Hx [Hf Hxid]]]. apply in_app_iff in Hx. cbn [In] in Hx.
    destruct Hx as [Hx|[<-|Hx]].
    + right. split.
      * rewrite <- Hxid. apply Hothers. apply in_app_iff. auto.
      * exists x. rewrite in_app_iff. cbn [In]. auto.
    + left. split; [congruence | exact Hf].
    + right. split.
      * rewrite <- Hxid. apply Hothers. apply in_app_iff. auto.
      * exists x. rewrite in_app_iff. cbn [In]. auto.
  - intros [[-> Hf] | [Hne [x [Hx [Hf Hxid]]]]].
    + exists p'. rewrite in_app_iff. cbn [In]. auto.
    + exists x. apply in_app_iff in Hx. cbn [In] in Hx.
      rewrite in_app_iff. cbn [In].
      destruct Hx as [Hx|[<-|Hx]]; auto. congruence.
Qed.

(** X19: in a collection of unique ids, toggling archive on a page of the
    user moves it from the sidebar list to the trash, or back, and moves
    no other page: afterwards the toggled page is in the list exactly
    when it was archived before, in the trash exactly when it was not,
    and every other id is where it was. *)
Theorem archive_moves_the_page_between_list_and_trash :
  forall (store : Collection) (user pageId : jsstring) (p : Page),
    NoDup (ids store) ->
    findOne (ownedBy pageId user) store = Some p ->
    let o := toggleArchive store user pageId in
    forall id,
      (In id (ids (listPages updatedAt (db o) user))
       <-> (id = pageId /\ isArchived p = true)
           \/ (id <> pageId /\ In id (ids (listPages updatedAt store user))))
      /\ (In id (ids (trashPages updatedAt (db o) user))
          <-> (id = pageId /\ isArchived p = false)
              \/ (id <> pageId /\ In id (ids (trashPages updatedAt store user)))).
Proof.
  intros store user pageId p Hnd Hfind. cbv zeta. intros id.
  unfold toggleArchive.
  set (flip := fun p : Page =>
                 let archived := negb (isArchived p) in
                 if archived then setFlags false archived p
                 else setFlags (isFavorite p) archived p).
  pose proof (findOneAndUpdate_shape (ownedBy pageId user) flip store) as S.
  destruct (findOneAndUpdate (ownedBy pageId user) flip store) as [[q store']|].
  - destruct S as [pre [p0 [post [H1 [H2 [H3 [H4 H5]]]]]]].
    assert (p0 = p).
    { rewrite H1 in Hfind. rewrite (findOne_first _ pre post p0 H3 H2) in Hfind.
      congruence. }
    subst p0 q store' store. cbn [quiet db].
    apply ownedBy_iff in H2. destruct H2 as [Hid Huser].
    assert (Fid : _id (flip p) = _id p)
      by (unfold flip; cbv zeta; destruct (negb (isArchived p)); reflexivity).
    assert (Fuser : userId (flip p) = user)
      by (unfold flip; cbv zeta; destruct (negb (isArchived p)); exact Huser).
    assert (Farch : isArchived (flip p) = negb (isArchived p))
      by (unfold flip; cbv zeta; destruct (isArchived p); reflexivity).
    pose proof (NoDup_ids_split pre post p Hnd) as Hothers.
    unfold listPages, trashPages.
    rewrite !(in_ids_replaced _ pre post p (flip p) id Fid Hothers).
    rewrite Fuser, Farch, jseqb_refl, Hid. cbn [andb].
    rewrite negb_involutive, negb_true_iff. tauto.
  - exfalso. rewrite (findOne_none _ _ S) in Hfind. discriminate Hfind.
Qed.

End ListingFacts.

Lemma archive_moves_the_page_between_list_and_trash_witness :
  let stamp := fun p : Page => List.length (_id p) in
  let store := [blankPage "p1" "ann" true false; blankPage "p22" "ann" false false] in
  let o := toggleArchive store (js "ann") (js "p1") in
  map _id (listPages stamp store (js "ann")) = [js "p22"; js "p1"]
  /\ (In (js "p1") (ids (trashPages stamp (db o) (js "ann")))
      <-> (js "p1" = js "p1" /\ false = false)
          \/ (js "p1" <> js "p1"
              /\ In (js "p1") (ids (trashPages stamp store (js "ann"))))).
Proof.
  cbv zeta. split; [reflexivity|].
  apply (archive_moves_the_page_between_list_and_trash
           (fun p : Page => List.length (_id p))
           [blankPage "p1" "ann" true false; blankPage "p22" "ann" false false]
           (js "ann") (js "p1") (blankPage "p1" "ann" true false)).
  - vm_compute. constructor.
    + intros [H|[]]. discriminate H.
    + constructor; [intros [] | constructor].
  - reflexivity.
Defined.


(** ** The database connection *)

Import Connection.

Lemma connected_stays (connects : nat -> bool) (n : nat) (w : World) :
  conn (cached w) = true ->
  callsInARow connects n w = (w, repeat true n).
Proof.
  intros H. induction n as [|n IH]; cbn [callsInARow repeat]; [reflexivity|].
  unfold connectDB. rewrite H, IH. reflexivity.
Qed.

Lemma idle_dials_until_it_connects (connects : nat -> bool) (n : nat) :
  forall w,
    cached w = {| conn := false; promise := None |} ->
    exists k,
      k <= n
      /\ snd (callsInARow connects n w) = repeat false k ++ repeat true (n - k)
      /\ (forall i, i < k -> connects (dials w + i) = false)
      /\ (k < n -> connects (dials w + k) = true)
      /\ dials (fst (callsInARow connects n w)) = dials w + Nat.min n (S k)
      /\ conn (cached (fst (callsInARow connects n w))) = (k <? n).
Proof.
  induction n as [|n IH]; intros w Hw.
  - exists 0. cbn. repeat split; try lia. rewrite Hw. reflexivity.
  - cbn [callsInARow]. unfold connectDB. rewrite Hw. cbn [conn promise].
    destruct (connects (dials w)) eqn:E.
    + rewrite connected_stays by reflexivity.
      exists 0. cbn [fst snd repeat app dials cached conn].
      rewrite Nat.sub_0_r, Nat.add_0_r.
      repeat split; try lia; try assumption.
      intros _. exact E.
    + set (w1 := {| cached := {| conn := false; promise := None |}; dials := S (dials w) |}).
      destruct (IH w1 eq_refl) as [k [Hk [Hres [Hfail [Hok [Hd Hc]]]]]].
      destruct (callsInARow connects n w1) as [w2 rs].
      cbn [fst snd] in *. unfold w1 in *. cbn [dials] in *.
      exists (S k). cbn [repeat app Nat.sub].
      split; [lia|]. split; [rewrite Hres; reflexivity|].
      split.
      { intros [|i] Hi; [rewrite Nat.add_0_r; exact E|].
        replace (dials w + S i) with (S (dials w) + i) by lia. apply Hfail. lia. }
      split.
      { intros Hlt. replace (dials w + S k) with (S (dials w) + k) by lia.
        apply Hok. lia. }
      split; [rewrite Hd; lia|].
      rewrite Hc. reflexivity.
Qed.

(** X20: of [n] calls of [connectDB] made in a row from an empty cache,
    those before the first successful dial fail and every later one
    returns the connection; each failed call dialled once, the first
    successful one dialled once, and no call after it dials at all. *)
Theorem the_connection_is_dialled_until_it_succeeds :
  forall (connects : nat -> bool) (n : nat),
    exists k,
      k <= n
      /\ snd (callsInARow connects n fresh) = repeat false k ++ repeat true (n - k)
      /\ (forall i, i < k -> connects i = false)
      /\ (k < n -> connects k = true)
      /\ dials (fst (callsInARow connects n fresh)) = Nat.min n (S k)
      /\ conn (cached (fst (callsInARow connects n fresh))) = (k <? n).
Proof.
  intros connects n.
  destruct (idle_dials_until_it_connects connects n fresh eq_refl)
    as [k [Hk [Hres [Hfail [Hok [Hd Hc]]]]]].
  exists k. cbn [fresh dials] in *. cbn [Nat.add] in *. auto 10.
Qed.

(** Two refusals, then a connection kept for the calls that follow. *)
Example connect_after_two_refusals :
  callsInARow (fun n => 2 <=? n) 5 fresh
  = ({| cached := {| conn := true; promise := Some true |}; dials := 3 |},
     [false; false; true; true; true]).
Proof. reflexivity. Qed.

(** ** The client: what the browser makes of a response *)

Import Client Assist.

Lemma succeeded_ok (r : Response) : succeeded r = true -> ok r = true.
Proof.
  unfold succeeded, ok. intros H. apply orb_prop in H.
  destruct H as [H|H]; apply Nat.eqb_eq in H; rewrite H; reflexivity.
Qed.

Lemma settle_uniform (fallback : string) (r : Response) :
  uniform r ->
  if succeeded r then settle fallback r = Some (Resolved (body r))
  else exists c m,
         prop (body r) "error" = Some (JString (c :: m))
         /\ settle fallback r = Some (Rejected (ErrorWith (c :: m))).
Proof.
  unfold uniform. destruct (succeeded r) eqn:S.
  - intros _. unfold settle. rewrite (succeeded_ok r S). reflexivity.
  - intros [Hst [_ [c [m Herr]]]]. exists c, m. split; [exact Herr|].
    assert (Hok : ok r = false).
    { unfold ok. cbn in Hst.
      destruct Hst as [H|[H|[H|[H|[H|[]]]]]]; rewrite <- H; reflexivity. }
    unfold settle. rewrite Hok.
    destruct (body r); try discriminate Herr.
    rewrite Herr. reflexivity.
Qed.

(** X21: [fetchApi] and [callAI] on the response to any request: when
    the status is 200 or 201 they resolve with the body, which says
    [success: true]; otherwise they reject with an [Error] whose message
    is the [error] of the body, so that the message of their own is never
    needed. *)
Theorem the_client_reports_the_servers_error :
  forall (toLowerCase : jsstring -> jsstring) (openai : Provider)
         (store : Collection) (session : option jsstring) (r : App.Request),
    let answer := response (App.handle toLowerCase openai store session r) in
    if succeeded answer then
      fetchApi answer = Some (Resolved (body answer))
      /\ callAI answer = Some (Resolved (body answer))
      /\ prop (body answer) "success" = Some (JBool true)
    else
      exists c m,
        prop (body answer) "error" = Some (JString (c :: m))
        /\ fetchApi answer = Some (Rejected (ErrorWith (c :: m)))
        /\ callAI answer = Some (Rejected (ErrorWith (c :: m))).
Proof.
  intros lower openai store session r. cbv zeta.
  pose proof (handle_orderly lower openai store session r) as [U _].
  pose proof (settle_uniform "Something went wrong" _ U) as F.
  pose proof (settle_uniform "AI request failed" _ U) as A.
  unfold uniform in U. unfold fetchApi, callAI.
  destruct (succeeded (response (App.handle lower openai store session r))).
  - destruct U as [U _]. auto.
  - destruct F as [c [m [E F]]]. destruct A as [c' [m' [E' A]]].
    exists c, m. split; [exact E|]. split; [exact F|].
    rewrite E in E'. injection E' as <- <-. exact A.
Qed.

Lemma improve_success :
  forall (openai : Provider) (store : Collection) (req : ReqBody),
    succeeded (response (improve openai store req)) = true ->
    exists improved,
      improved <> []
      /\ response (improve openai store req)
         = success (JObject [ (js "result", JString improved) ]).
Proof.
  intros openai store req H. unfold improve in *.
  destruct req as [e|body0]; [refused|].
  destruct body0; cbv zeta in *; try refused;
  repeat match type of H with
         | context [if ?c then _ else _] => destruct c eqn:?; [refused|]
         end;
  (match type of H with
   | context [openai ?r] => destruct (openai r) as [e1|reply] eqn:E
   end; [refused|]);
  (destruct reply as [reply|]; [|refused]);
  cbn [trimmedOrEmpty] in *;
  (destruct (negb (truthy (trim reply))) eqn:T; [refused|]);
  exists (trim reply); cbn [response];
  (split; [intros Z; rewrite Z in T; discriminate T | reflexivity]).
Qed.

Lemma generate_success :
  forall (openai : Provider) (store : Collection) (req : ReqBody),
    succeeded (response (generate openai store req)) = true ->
    exists generated,
      generated <> []
      /\ response (generate openai store req)
         = success (JObject [ (js "result", JString generated) ]).
Proof.
  intros openai store req H. unfold generate in *.
  destruct req as [e|body0]; [refused|].
  destruct body0; cbv zeta in *; try refused;
  repeat match type of H with
         | context [if ?c then _ else _] => destruct c eqn:?; [refused|]
         end;
  (match type of H with
   | context [openai ?r] => destruct (openai r) as [e1|reply] eqn:E
   end; [refused|]);
  (destruct reply as [reply|]; [|refused]);
  cbn [trimmedOrEmpty] in *;
  (destruct (negb (truthy (trim reply))) eqn:T; [refused|]);
  exists (trim reply); cbn [response];
  (split; [intros Z; rewrite Z in T; discriminate T | reflexivity]).
Qed.

Lemma onError_status (fallback : string) (e : Thrown) :
  status (onError fallback e) = 429 \/ status (onError fallback e) = 500.
Proof.
  unfold onError. destruct e as [message|]; [destruct (includes _ message)|]; auto.
Qed.

(** A prompt that is not blank is never answered with 400. *)
Lemma generate_accepts_a_prompt (openai : Provider) (store : Collection)
      (members : list (jsstring * json)) :
  truthy (trim (stringOr [] (prop (JObject members) "prompt"))) = true ->
  status (response (generate openai store (Parsed (JObject members)))) <> 400.
Proof.
  intros H. unfold generate. cbv zeta. rewrite H. cbn [negb].
  destruct (openai _) as [e|reply].
  - cbn [response]. destruct (onError_status "Failed to generate content" e) as [E|E];
      rewrite E; discriminate.
  - destruct (negb (truthy (trimmedOrEmpty reply))); cbn; discriminate.
Qed.

Section PageFacts.

Variable toLowerCase : jsstring -> jsstring.
Variable openai : Provider.
Variable store : Collection.
Variable session : option jsstring.
Variables pageId title : jsstring.
Variable liveBlocksRef : list Block.
Variable pageContent : option (list Block).

(** A request that fails closes the panel and toasts the message of the
    server; nothing is written. *)
Lemma request_failed (kind : PanelType) (fallback : string) (r : App.Request) (v : View) :
  succeeded (response (App.handle toLowerCase openai store session r)) = false ->
  exists c m,
    prop (body (response (App.handle toLowerCase openai store session r))) "error"
    = Some (JString (c :: m))
    /\ db (App.handle toLowerCase openai store session r) = store
    /\ request (App.handle toLowerCase openai store session) kind fallback r v
       = Some ({| aiPanel := {| type := None; result := None |};
                  toasts := toasts v ++ [c :: m] |},
               Some (App.handle toLowerCase openai store session r)).
Proof.
  intros S.
  pose proof (handle_orderly toLowerCase openai store session r) as [U [C _]].
  pose proof (settle_uniform "AI request failed" _ U) as A.
  rewrite S in A. destruct A as [c [m [E A]]].
  exists c, m. split; [exact E|]. split; [exact (C S)|].
  unfold request, callAI. rewrite A. reflexivity.
Qed.

(** A request answered with a result that is truthy opens the panel on
    it. *)
Lemma request_succeeded (kind : PanelType) (fallback : string) (r : App.Request)
      (v : View) (shown : json) :
  response (App.handle toLowerCase openai store session r)
  = success (JObject [ (js "result", shown) ]) ->
  toBoolean shown = Some true ->
  request (App.handle toLowerCase openai store session) kind fallback r v
  = Some ({| aiPanel := {| type := Some kind; result := Some shown |};
             toasts := toasts v |},
          Some (App.handle toLowerCase openai store session r)).
Proof.
  intros E T. unfold request, callAI, settle. rewrite E.
  cbn [success successWith ok status body Nat.leb andb].
  unfold settled, dataResult.
  replace (prop (JObject [(js "success", JBool true);
                          (js "data", JObject [(js "result", shown)])]) "data")
    with (Some (JObject [(js "result", shown)])) by reflexivity.
  replace (prop (JObject [(js "result", shown)]) "result") with (Some shown)
    by reflexivity.
  unfold orNull. rewrite T. reflexivity.
Qed.

Lemma nonempty_truthy (s : jsstring) : s <> [] -> truthy s = true.
Proof. destruct s; [congruence | reflexivity]. Qed.



(** X24: [handleImprove], end to end: whatever it shows, a non-empty
    suggestion or the error of the server, the collection is as before. *)
Theorem an_improvement_is_shown_not_stored :
  forall (v : View),
    exists (v' : View) (sent : option Outcome),
      handleImprove (App.handle toLowerCase openai store session)
                    pageId liveBlocksRef pageContent v = Some (v', sent)
      /\ match sent with
         | None =>
             trim (getPlainText liveBlocksRef pageContent) = []
             /\ aiPanel v' = aiPanel v
             /\ toasts v' = toasts v ++ [js "Add some content first!"]
         | Some o =>
             trim (getPlainText liveBlocksRef pageContent) <> []
             /\ db o = store
             /\ ((exists improved,
                    improved <> []
                    /\ aiPanel v' = {| type := Some ImprovePanel;
                                       result := Some (JString improved) |}
                    /\ toasts v' = toasts v)
                 \/ (exists message,
                       message <> []
                       /\ prop (body (response o)) "error" = Some (JString message)
                       /\ aiPanel v' = {| type := None; result := None |}
                       /\ toasts v' = toasts v ++ [message]))
         end.
Proof.
  intros v. unfold handleImprove. cbv zeta.
  set (text := getPlainText liveBlocksRef pageContent).
  destruct (negb (truthy (trim text))) eqn:B.
  - eexists. exists None. split; [reflexivity|]. cbn [aiPanel toasts].
    split; [|auto]. destruct (trim text); [reflexivity | discriminate B].
  - set (r := App.PostImprove _).
    assert (T : trim text <> []) by (intros Z; rewrite Z in B; discriminate B).
    assert (D : db (App.handle toLowerCase openai store session r) = store).
    { destruct session as [user|]; [|reflexivity]. apply improve_db. }
    destruct (succeeded (response (App.handle toLowerCase openai store session r))) eqn:S.
    + assert (Hs : exists user, session = Some user).
      { destruct session as [user|]; [eauto | discriminate S]. }
      destruct Hs as [user Hs].
      assert (Ho : App.handle toLowerCase openai store session r
                   = improve openai store
                       (Parsed (JObject [ (js "pageId", JString pageId);
                                          (js "content", JString text) ])))
        by (rewrite Hs; reflexivity).
      rewrite Ho in S.
      destruct (improve_success openai store _ S) as [improved [Hne Hresp]].
      rewrite <- Ho in Hresp.
      rewrite (request_succeeded ImprovePanel "Failed to improve" r v (JString improved)
                 Hresp);
        [|cbn [toBoolean]; rewrite (nonempty_truthy improved Hne); reflexivity].
      eexists. eexists. split; [reflexivity|]. split; [exact T|]. split; [exact D|].
      left. exists improved. cbn [aiPanel toasts]. auto.
    + destruct (request_failed ImprovePanel "Failed to improve" r v S)
        as [c [m [E [_ R]]]].
      rewrite R. eexists. eexists. split; [reflexivity|]. split; [exact T|].
      split; [exact D|].
      right. exists (c :: m). cbn [aiPanel toasts].
      split; [discriminate|]. auto.
Qed.

(** X25: [handleGenerate] of the floating prompt, end to end.  With a
    blank prompt, or while a request is pending, it does nothing.
    Otherwise it sends the trimmed prompt, which the server never answers
    with 400, and the collection stays as it was; then either the
    generated text, which is not empty, is handed to the editor as the
    paragraphs of [insertContent], the prompt is cleared and closed, and
    the success is announced; or the error message of the server is
    toasted and nothing is inserted. *)
Theorem generated_text_is_inserted_not_stored :
  forall (isPending : bool) (f : Floating),
    exists (f' : Floating) (sent : option Outcome),
      handleGenerate (App.handle toLowerCase openai store session)
                     pageId title liveBlocksRef pageContent isPending f
      = Some (f', sent)
      /\ match sent with
         | None => (trim (prompt f) = [] \/ isPending = true) /\ f' = f
         | Some o =>
             trim (prompt f) <> [] /\ isPending = false
             /\ db o = store
             /\ status (response o) <> 400
             /\ ((exists generated,
                    generated <> []
                    /\ response o = success (JObject [ (js "result", JString generated) ])
                    /\ f' = {| prompt := []; isOpen := false;
                               notices := notices f ++ [js "Content generated!"];
                               inserted := inserted f ++ [blocksToInsert generated] |})
                 \/ (exists message,
                       message <> []
                       /\ prop (body (response o)) "error" = Some (JString message)
                       /\ f' = {| prompt := prompt f; isOpen := isOpen f;
                                  notices := notices f ++ [message];
                                  inserted := inserted f |}))
         end.
Proof.
  intros isPending f. unfold handleGenerate.
  destruct (negb (truthy (trim (prompt f)))) eqn:B; cbn [orb].
  { exists f, None. split; [reflexivity|]. split; [|reflexivity].
    left. destruct (trim (prompt f)); [reflexivity | discriminate B]. }
  destruct isPending.
  { exists f, None. split; [reflexivity|]. split; [|reflexivity]. right. reflexivity. }
  cbv zeta.
  set (members := [ (js "pageId", JString pageId); (js "title", JString title);
                    (js "content", JString (getPlainText liveBlocksRef pageContent));
                    (js "prompt", JString (trim (prompt f))) ]).
  set (r := App.PostGenerate (Parsed (JObject members))).
  assert (T : trim (prompt f) <> []) by (intros Z; rewrite Z in B; discriminate B).
  assert (D : db (App.handle toLowerCase openai store session r) = store).
  { destruct session as [user|]; [|reflexivity]. apply generate_db. }
  assert (N : status (response (App.handle toLowerCase openai store session r)) <> 400).
  { destruct session as [user|]; [|cbn; discriminate].
    apply generate_accepts_a_prompt.
    replace (stringOr [] (prop (JObject members) "prompt")) with (trim (prompt f))
      by reflexivity.
    rewrite trim_idempotent. apply nonempty_truthy. exact T. }
  pose proof (handle_orderly toLowerCase openai store session r) as [U _].
  pose proof (settle_uniform "AI request failed" _ U) as A.
  destruct (succeeded (response (App.handle toLowerCase openai store session r))) eqn:S.
  - assert (Hs : exists user, session = Some user).
    { destruct session as [user|]; [eauto | discriminate S]. }
    destruct Hs as [user Hs].
    assert (Ho : App.handle toLowerCase openai store session r
                 = generate openai store (Parsed (JObject members)))
      by (rewrite Hs; reflexivity).
    rewrite Ho in S.
    destruct (generate_success openai store _ S) as [generated [Hne Hresp]].
    rewrite <- Ho in Hresp.
    unfold callAI. rewrite A. rewrite Hresp.
    cbn [success successWith body].
    replace (prop (JObject [(js "success", JBool true);
                            (js "data", JObject [(js "result", JString generated)])])
                  "success")
      with (Some (JBool true)) by reflexivity.
    cbn [toBoolean]. unfold dataResult.
    replace (prop (JObject [(js "success", JBool true);
                            (js "data", JObject [(js "result", JString generated)])])
                  "data")
      with (Some (JObject [(js "result", JString generated)])) by reflexivity.
    replace (prop (JObject [(js "result", JString generated)]) "result")
      with (Some (JString generated)) by reflexivity.
    unfold orNull. cbn [toBoolean]. rewrite (nonempty_truthy generated Hne).
    eexists. eexists. split; [reflexivity|].
    split; [exact T|]. split; [reflexivity|]. split; [exact D|]. split; [exact N|].
    left. exists generated. rewrite Hresp. auto.
  - destruct A as [c [m [E A]]]. unfold callAI. rewrite A.
    eexists. eexists. split; [reflexivity|].
    split; [exact T|]. split; [reflexivity|]. split; [exact D|]. split; [exact N|].
    right. exists (c :: m). cbn [messageOf]. split; [discriminate|]. auto.
Qed.

End PageFacts.

(** ** What the generate route reads of a note *)

Lemma firstn_truthy (n : nat) (a b : jsstring) :
  firstn (S n) a = firstn (S n) b -> truthy a = truthy b.
Proof. destruct a, b; cbn [firstn]; intros H; try discriminate H; reflexivity. Qed.

Lemma generateRequest_prefix (userPrompt title c1 c2 : jsstring) :
  firstn 1000 c1 = firstn 1000 c2 ->
  generateRequest userPrompt title c1 = generateRequest userPrompt title c2.
Proof.
  intros H. unfold generateRequest, getGeneratePrompt. cbv zeta.
  rewrite (firstn_truthy 999 c1 c2 H), H. reflexivity.
Qed.

(** X26: [POST /ai/generate] reads of the content of the note its first
    thousand code units and nothing else: two bodies with the same
    prompt and title whose contents agree that far get the same
    response, completion request included. *)
Theorem generate_reads_a_prefix_of_the_note :
  forall (openai : Provider) (store : Collection) (b1 b2 : json),
    b1 <> JNull -> b2 <> JNull ->
    stringOr [] (prop b1 "prompt") = stringOr [] (prop b2 "prompt") ->
    stringOr [] (prop b1 "title") = stringOr [] (prop b2 "title") ->
    firstn 1000 (stringOr [] (prop b1 "content"))
    = firstn 1000 (stringOr [] (prop b2 "content")) ->
    generate openai store (Parsed b1) = generate openai store (Parsed b2).
Proof.
  intros openai store b1 b2 N1 N2 Hp Ht Hc.
  assert (G : forall b, b <> JNull ->
            generate openai store (Parsed b)
            = let userPrompt := stringOr [] (prop b "prompt") in
              let request := generateRequest userPrompt (stringOr [] (prop b "title"))
                               (stringOr [] (prop b "content")) in
              if negb (truthy (trim userPrompt)) then
                {| response := failure 400 "Prompt is required";
                   db := store; calls := [] |}
              else
                match openai request with
                | Failed e =>
                    {| response := onError "Failed to generate content" e;
                       db := store; calls := [request] |}
                | Replied reply =>
                    if negb (truthy (trimmedOrEmpty reply)) then
                      {| response := failure 500 "AI returned an empty response";
                         db := store; calls := [request] |}
                    else
                      {| response :=
                           success (JObject [ (js "result",
                                               JString (trimmedOrEmpty reply)) ]);
                         db := store; calls := [request] |}
                end).
  { intros b Hb. destruct b; try reflexivity. congruence. }
  rewrite (G b1 N1), (G b2 N2). cbv zeta.
  rewrite Hp, Ht.
  rewrite (generateRequest_prefix _ _ _ _ Hc). reflexivity.
Qed.

Lemma generate_reads_a_prefix_of_the_note_witness :
  let b1 := object [ ("prompt"%string, JString (js "Go on"));
                     ("content"%string, JString (repeat (ch "a") 1000 ++ js "x")) ] in
  let b2 := object [ ("prompt"%string, JString (js "Go on"));
                     ("content"%string, JString (repeat (ch "a") 1000 ++ js "yz")) ] in
  generate (answering (js "More.")) [] (Parsed b1)
  = generate (answering (js "More.")) [] (Parsed b2).
Proof.
  cbv zeta.
  apply (generate_reads_a_prefix_of_the_note (answering (js "More.")) []
           (object [ ("prompt"%string, JString (js "Go on"));
                     ("content"%string, JString (repeat (ch "a") 1000 ++ js "x")) ])
           (object [ ("prompt"%string, JString (js "Go on"));
                     ("content"%string, JString (repeat (ch "a") 1000 ++ js "yz")) ])).
  - discriminate.
  - discriminate.
  - reflexivity.
  - reflexivity.
  - vm_compute. reflexivity.
Defined.

(** ** The forms *)

(** X27: data that [registerSchema] accepts give credentials that
    [loginSchema] accepts: the e-mail passes the same checks, the
    password has between 6 and 128 code units and is the confirmation,
    and the name has between 2 and 50. *)
Theorem registered_credentials_pass_the_login_form :
  forall (isEmail : jsstring -> bool) (name email password confirmPassword : jsstring),
    Validations.registerSchema isEmail name email password confirmPassword = true ->
    Validations.loginSchema isEmail email password = true
    /\ confirmPassword = password
    /\ 2 <= List.length name <= 50
    /\ 6 <= List.length password <= 128.
Proof.
  intros isEmail name email password confirm H.
  unfold Validations.registerSchema, Validations.loginSchema,
         Validations.min, Validations.max in *.
  repeat match goal with
         | X : (_ && _) = true |- _ => apply andb_prop in X; destruct X
         end.
  repeat match goal with
         | X : (_ <=? _) = true |- _ => apply Nat.leb_le in X
         end.
  match goal with X : Js.eqb _ _ = true |- _ => apply jseqb_eq in X; subst confirm end.
  split; [|split; [reflexivity | split; lia]].
  repeat (apply andb_true_intro; split); try assumption; apply Nat.leb_le; lia.
Qed.

Lemma registered_credentials_pass_the_login_form_witness :
  Validations.loginSchema (existsb (N.eqb (ch "@"))) (js "ann@notes.io") (js "s3cret!") = true
  /\ js "s3cret!" = js "s3cret!"
  /\ 2 <= List.length (js "Ann") <= 50
  /\ 6 <= List.length (js "s3cret!") <= 128.
Proof.
  apply (registered_credentials_pass_the_login_form
           (existsb (N.eqb (ch "@"))) (js "Ann") (js "ann@notes.io")
           (js "s3cret!") (js "s3cret!")).
  reflexivity.
Defined.
